(** * CSGOTrading: the portfolio ledger, the snapshot store and the trading-date driver

    Shallow embedding of
      - [src/graph/workflow.py]   (class [AgentWorkflow]),
      - [src/agents/registry.py]  (class [AgentRegistry]),
      - [src/database/cs2_sqlite_helper.py] (class [CS2SQLiteDB], the
        [cs2_portfolio] table),
      - [src/run.py]              ([run_single_experiment]).

    Numbers.  Python [int] is [Z].  Python [float] (cash, prices, position
    values) is a rational of [Q], and the ledger engine is embedded at two
    levels of the arithmetic.
      - [Ledger] computes on the exact rationals: [a // b] is the floor of
        the exact quotient and [round(x, 2)] is round-half-to-even of the
        exact value to a multiple of 1/100.  It carries the properties that
        do not depend on the last cent: the accounting invariant, the frame
        of an update, the threading of the portfolio through a run.
      - [Ledger64] computes as the interpreter does, on IEEE 754 binary64:
        a float is the rational value of a double and every operation rounds
        to the nearest double ([Binary64]).  It carries the settlement
        equations of a Buy, a Sell and a Hold, which are sensitive to the
        cent: [1.0 // 0.1] is 9 and [round(2.675, 2)] is 2.67. *)

From Stdlib Require Import QArith Qround Qabs Qpower Lia Lqa.
From stdpp Require Import gmap strings list sorting.

Local Open Scope Z_scope.

(** ** Rational helpers *)

Definition Qltb (x y : Q) : bool :=
  match (x ?= y)%Q with Lt => true | _ => false end.

(** [round_half_even x]: the integer nearest to [x], ties going to the even
    neighbour (Python's rounding mode for [round]). *)
Definition round_half_even (x : Q) : Z :=
  let f := Qfloor x in
  match ((x - inject_Z f) ?= (1 # 2))%Q with
  | Lt => f
  | Gt => f + 1
  | Eq => if Z.even f then f else f + 1
  end.

(** Python [round(x, 2)]. *)
Definition round2 (x : Q) : Q := (inject_Z (round_half_even (x * 100)) / 100)%Q.

(** ** Python outcomes

    A call either returns a value or raises.  The exceptions are the ones the
    modelled sources raise, tagged by the raising site. *)

Inductive Message :=
| NotChronological            (* run.py line 64 *)
| FailedCreatePortfolio       (* workflow.py line 30 *)
| FailedGenerate (portfolio_id : nat)  (* workflow.py line 131 *)
| FailedUpdate                (* workflow.py line 146 *)
| NoAnalystsSelected.         (* workflow.py line 97 *)

Inductive PyExn :=
| RuntimeError (m : Message)
| ValueError (m : Message)
| TypeError                   (* the Portfolio constructor applied to None, workflow.py line 34 *)
| KeyError (key : string).    (* dict[key] on an absent key *)

Inductive Outcome (A : Type) :=
| Returns (v : A)
| Raises (e : PyExn).
Arguments Returns {A} v.
Arguments Raises {A} e.

(** ** graph/schema.py *)

Module Schema.

(** Modelled from the spec: [graph/schema.py] is not among the sources; the
    three actions are those of section 3 of the specification and of the
    tests [action == Action.BUY], [action == Action.SELL] in [workflow.py]. *)
Inductive Action := BUY | SELL | HOLD.

(** Modelled from the spec: the [Position] of [graph/schema.py], with the two
    fields [workflow.py] assigns ([shares], an integer, and [value]). *)
Record Position := mkPosition {
  pos_shares : Z;
  pos_value : Q
}.

(** Modelled from the spec: the [Decision] of [graph/schema.py], with the
    fields [workflow.py] and [save_decision] read; the specification puts no
    constraint on [price]. *)
Record Decision := mkDecision {
  action : Action;
  shares : Z;
  price : Q;
  justification : string
}.

(** Modelled from the spec: the [Portfolio] of [graph/schema.py], with the
    fields of the dictionaries [cs2_sqlite_helper.py] builds it from.  The
    uuid strings [id] and [config_id] are numbered, and [trading_date] is a
    day number. *)
Record Portfolio := mkPortfolio {
  pf_id : nat;
  config_id : nat;
  trading_date : Z;
  cashflow : Q;
  total_assets : Q;
  positions : gmap string Position
}.

#[global] Instance Action_eq_dec : EqDecision Action.
Proof. solve_decision. Defined.

End Schema.

Export Schema.

(** ** graph/workflow.py : the ledger engine *)

Module Ledger.

(** [TRANSACTION_FEE_RATE = 0.02] (workflow.py line 12). *)
Definition TRANSACTION_FEE_RATE : Q := 2 # 100.

(** The two [logger.warning] calls of [update_portfolio_ticker]. *)
Inductive Warning :=
| LimitedBuy (ticker : string) (requested actual : Z)
| LimitedSell (ticker : string) (requested actual max_sellable : Z).

(** Attribute assignments on the (mutable) portfolio object. *)
Definition set_cashflow (c : Q) (p : Portfolio) : Portfolio :=
  mkPortfolio (pf_id p) (config_id p) (trading_date p) c (total_assets p) (positions p).

Definition set_positions (m : gmap string Position) (p : Portfolio) : Portfolio :=
  mkPortfolio (pf_id p) (config_id p) (trading_date p) (cashflow p) (total_assets p) m.

(** [portfolio.positions[ticker]] once line 161-162 has run: the entry is
    there. Before that, an absent ticker reads as the entry line 162 would
    create. *)
Definition position_of (p : Portfolio) (ticker : string) : Position :=
  default (mkPosition 0 0) (positions p !! ticker).

Definition shares_of (p : Portfolio) (ticker : string) : Z := pos_shares (position_of p ticker).
Definition value_of (p : Portfolio) (ticker : string) : Q := pos_value (position_of p ticker).

(** lines 161-162 *)
Definition ensure_position (ticker : string) (p : Portfolio) : Portfolio :=
  match positions p !! ticker with
  | Some _ => p
  | None => set_positions (<[ticker := mkPosition 0 0]> (positions p)) p
  end.

(** [portfolio.positions[ticker].shares = s] *)
Definition set_shares (ticker : string) (s : Z) (p : Portfolio) : Portfolio :=
  set_positions (<[ticker := mkPosition s (pos_value (position_of p ticker))]> (positions p)) p.

(** [portfolio.positions[ticker].value = v] *)
Definition set_value (ticker : string) (v : Q) (p : Portfolio) : Portfolio :=
  set_positions (<[ticker := mkPosition (pos_shares (position_of p ticker)) v]> (positions p)) p.

(** line 166: [int(portfolio.cashflow // price) if price > 0 else 0] *)
Definition max_affordable_shares (cash price : Q) : Z :=
  if Qltb 0 price then Qfloor (cash / price) else 0.

(** lines 164-177 *)
Definition buy (ticker : string) (shares : Z) (price : Q) (p : Portfolio)
  : Portfolio * list Warning :=
  let actual_shares := Z.min shares (max_affordable_shares (cashflow p) price) in
  let p1 := set_shares ticker (shares_of p ticker + actual_shares) p in
  let p2 := set_cashflow (cashflow p1 - price * inject_Z actual_shares)%Q p1 in
  (p2, if actual_shares <? shares then [LimitedBuy ticker shares actual_shares] else []).

(** lines 178-196 *)
Definition sell (ticker : string) (shares : Z) (price : Q) (enable_transaction_fee : bool)
  (p : Portfolio) : Portfolio * list Warning :=
  let max_sellable_shares := shares_of p ticker in
  let actual_shares := Z.min shares max_sellable_shares in
  let p1 := set_shares ticker (shares_of p ticker - actual_shares) p in
  let p2 :=
    if enable_transaction_fee
    then set_cashflow (cashflow p1 + price * inject_Z actual_shares * (1 - TRANSACTION_FEE_RATE))%Q p1
    else set_cashflow (cashflow p1 + price * inject_Z actual_shares)%Q p1 in
  (p2, if actual_shares <? shares
       then [LimitedSell ticker shares actual_shares max_sellable_shares] else []).

(** lines 154-204, with the log made explicit *)
Definition update_portfolio_ticker_log (portfolio : Portfolio) (ticker : string)
  (decision : Decision) (enable_transaction_fee : bool) : Portfolio * list Warning :=
  let p0 := ensure_position ticker portfolio in
  let '(p1, log) :=
    match action decision with
    | BUY => buy ticker (shares decision) (price decision) p0
    | SELL => sell ticker (shares decision) (price decision) enable_transaction_fee p0
    | HOLD => (p0, [])
    end in
  let p2 := set_value ticker (round2 (price decision * inject_Z (shares_of p1 ticker))) p1 in
  (set_cashflow (round2 (cashflow p2)) p2, log).

Definition update_portfolio_ticker (portfolio : Portfolio) (ticker : string)
  (decision : Decision) (enable_transaction_fee : bool) : Portfolio :=
  fst (update_portfolio_ticker_log portfolio ticker decision enable_transaction_fee).

Definition warnings (portfolio : Portfolio) (ticker : string)
  (decision : Decision) (enable_transaction_fee : bool) : list Warning :=
  snd (update_portfolio_ticker_log portfolio ticker decision enable_transaction_fee).

End Ledger.

Import Ledger.

(** ** Python floats: IEEE 754 binary64

    A finite double is the rational it stands for, and every operation of
    the ledger is the exact operation followed by the rounding of the
    hardware: to the nearest double, ties to the even mantissa.  [inf] and
    [nan] are left out; the theorems about doubles bound their inputs so that
    no operation overflows. *)

Module Binary64.

Local Open Scope Q_scope.

(** floor(log2 x), for 0 < x. *)
Definition ilog2 (x : Q) : Z :=
  let k := (Z.log2 (Qnum x) - Z.log2 (Zpos (Qden x)))%Z in
  if Qle_bool (2 ^ k) x then k else (k - 1)%Z.

(** The exponent of the last place of the doubles of the magnitude of [x]:
    52 places below the leading bit, and never below 2^-1074, the spacing of
    the subnormal doubles. *)
Definition ulp_exponent (x : Q) : Z := Z.max (ilog2 (Qabs x) - 52) (-1074).

(** The double nearest to [x], ties to even: the rounding of every float
    operation, and of the conversion of a decimal literal and of an [int]. *)
Definition RN (x : Q) : Q :=
  if Qeq_bool x 0 then 0
  else let e := ulp_exponent x in
       Qred (inject_Z (round_half_even (x / 2 ^ e)) * 2 ^ e).

(** [x] is (the value of) a double. *)
Definition double (x : Q) : Prop := RN x == x.

(** [float(n)], as in [price * n] for an [int] n. *)
Definition of_int (n : Z) : Q := RN (inject_Z n).

(** [x * y], [x + y], [x - y] on floats. *)
Definition mul (x y : Q) : Q := RN (x * y).
Definition add (x y : Q) : Q := RN (x + y).
Definition sub (x y : Q) : Q := RN (x - y).

(** [int(x // y)] on floats, y > 0.  CPython's [float_floor_div] takes the
    exact remainder [fmod(x, y)] and returns the floor of the exact quotient
    of the two doubles; its intermediate roundings are corrected as long as
    the quotient is below 2^51 in magnitude. *)
Definition floordiv_int (x y : Q) : Z := Qfloor (x / y).

(** [round(x, 2)] on a float: CPython rounds the exact value of the double
    to two decimals, half to even ([_Py_dg_dtoa] in mode 3), and returns the
    double nearest to that decimal ([_Py_dg_strtod]). *)
Definition round_2 (x : Q) : Q := RN (round2 x).

#[global] Arguments RN : simpl never.
#[global] Arguments of_int : simpl never.
#[global] Arguments mul : simpl never.
#[global] Arguments add : simpl never.
#[global] Arguments sub : simpl never.
#[global] Arguments floordiv_int : simpl never.
#[global] Arguments round_2 : simpl never.

End Binary64.

(** ** graph/workflow.py : the ledger engine on doubles

    [update_portfolio_ticker] once more, line by line, with the arithmetic of
    the interpreter in place of the exact one of [Ledger]. *)

Module Ledger64.

Import Binary64.

(** [TRANSACTION_FEE_RATE = 0.02] (workflow.py line 12): the double of the
    literal. *)
Definition TRANSACTION_FEE_RATE : Q := RN (2 # 100).

(** line 166: [int(portfolio.cashflow // price) if price > 0 else 0] *)
Definition max_affordable_shares (cash price : Q) : Z :=
  if Qltb 0 price then floordiv_int cash price else 0.

(** lines 164-177 *)
Definition buy (ticker : string) (shares : Z) (price : Q) (p : Portfolio)
  : Portfolio * list Warning :=
  let actual_shares := Z.min shares (max_affordable_shares (cashflow p) price) in
  let p1 := set_shares ticker (shares_of p ticker + actual_shares) p in
  let p2 := set_cashflow (sub (cashflow p1) (mul price (of_int actual_shares))) p1 in
  (p2, if actual_shares <? shares then [LimitedBuy ticker shares actual_shares] else []).

(** lines 178-196; [price * actual_shares * (1 - TRANSACTION_FEE_RATE)] is
    evaluated from the left. *)
Definition sell (ticker : string) (shares : Z) (price : Q) (enable_transaction_fee : bool)
  (p : Portfolio) : Portfolio * list Warning :=
  let max_sellable_shares := shares_of p ticker in
  let actual_shares := Z.min shares max_sellable_shares in
  let p1 := set_shares ticker (shares_of p ticker - actual_shares) p in
  let p2 :=
    if enable_transaction_fee
    then set_cashflow (add (cashflow p1)
                         (mul (mul price (of_int actual_shares))
                              (sub (of_int 1) TRANSACTION_FEE_RATE))) p1
    else set_cashflow (add (cashflow p1) (mul price (of_int actual_shares))) p1 in
  (p2, if actual_shares <? shares
       then [LimitedSell ticker shares actual_shares max_sellable_shares] else []).

(** lines 154-204, with the log made explicit *)
Definition update_portfolio_ticker_log (portfolio : Portfolio) (ticker : string)
  (decision : Decision) (enable_transaction_fee : bool) : Portfolio * list Warning :=
  let p0 := ensure_position ticker portfolio in
  let '(p1, log) :=
    match action decision with
    | BUY => buy ticker (shares decision) (price decision) p0
    | SELL => sell ticker (shares decision) (price decision) enable_transaction_fee p0
    | HOLD => (p0, [])
    end in
  let p2 := set_value ticker (round_2 (mul (price decision) (of_int (shares_of p1 ticker)))) p1 in
  (set_cashflow (round_2 (cashflow p2)) p2, log).

Definition update_portfolio_ticker (portfolio : Portfolio) (ticker : string)
  (decision : Decision) (enable_transaction_fee : bool) : Portfolio :=
  fst (update_portfolio_ticker_log portfolio ticker decision enable_transaction_fee).

Definition warnings (portfolio : Portfolio) (ticker : string)
  (decision : Decision) (enable_transaction_fee : bool) : list Warning :=
  snd (update_portfolio_ticker_log portfolio ticker decision enable_transaction_fee).

(** The inputs on which the definitions above are the code: the cash and
    the price are doubles; the amounts and the quantities stay below 2^500,
    so that no product or sum becomes [inf] and no [int] is too large for a
    float; and the quotient of the floor division stays within 2^50. *)
Definition in_range (p : Portfolio) (t : string) (d : Decision) : Prop :=
  double (cashflow p) ∧ double (price d)
  ∧ (Qabs (cashflow p) <= 2 ^ 500)%Q ∧ (Qabs (price d) <= 2 ^ 500)%Q
  ∧ Z.abs (shares d) <= 2 ^ 500 ∧ Z.abs (shares_of p t) <= 2 ^ 500
  ∧ ((0 < price d)%Q → (Qabs (cashflow p / price d) <= 2 ^ 50)%Q).

End Ledger64.

(** ** agents/registry.py *)

Module Registry.

(** The agent callables that [run_registry] registers. *)
Inductive AgentFunc :=
| portfolio_agent | technical_agent | sentiment_agent
| sentiment_reverse_agent | liquidity_agent | event_agent.

(** Modelled from the spec: [graph/constants.py] (class [AgentKey]) is not
    among the sources; its six string constants are taken as a parameter. *)
Record AgentKey := mkAgentKey {
  PORTFOLIO : string;
  TECHNICAL : string;
  SENTIMENT : string;
  SENTIMENT_REVERSE : string;
  LIQUIDITY : string;
  EVENT : string
}.

(** The two class-level dictionaries. *)
Record AgentRegistry := mkRegistry {
  agent_func_mapping : gmap string AgentFunc;
  agent_doc_mapping : gmap string string
}.

Definition empty_registry : AgentRegistry := mkRegistry ∅ ∅.

(** lines 14-20 *)
Definition ANALYST_KEYS (K : AgentKey) : list string :=
  [TECHNICAL K; SENTIMENT K; SENTIMENT_REVERSE K; LIQUIDITY K; EVENT K].

(** lines 22-25: [cls.agent_func_mapping.get(key)]; [dict.get] yields [None]
    for an absent key. *)
Definition get_agent_func_by_key (cls : AgentRegistry) (key : string)
  : Outcome (option AgentFunc) :=
  Returns (agent_func_mapping cls !! key).

(** lines 32-35 *)
Definition check_agent_key (K : AgentKey) (key : string) : bool :=
  bool_decide (key ∈ ANALYST_KEYS K).

(** lines 37-40: [cls.agent_doc_mapping[key]] *)
Definition get_analyst_info (cls : AgentRegistry) (key : string) : Outcome string :=
  match agent_doc_mapping cls !! key with
  | Some doc => Returns doc
  | None => Raises (KeyError key)
  end.

(** lines 42-53 *)
Definition register_agent (key : string) (agent_func : AgentFunc) (agent_doc : string)
  (cls : AgentRegistry) : AgentRegistry :=
  mkRegistry (<[key := agent_func]> (agent_func_mapping cls))
             (<[key := agent_doc]> (agent_doc_mapping cls)).

(** lines 55-93; the description strings are abbreviated. *)
Definition run_registry (K : AgentKey) (cls : AgentRegistry) : AgentRegistry :=
  register_agent (EVENT K) event_agent "Event analysis specialist"
  (register_agent (LIQUIDITY K) liquidity_agent "Liquidity analysis specialist"
  (register_agent (SENTIMENT_REVERSE K) sentiment_reverse_agent "Reverse sentiment analysis specialist"
  (register_agent (SENTIMENT K) sentiment_agent "Sentiment analysis specialist"
  (register_agent (TECHNICAL K) technical_agent "Technical analysis specialist"
  (register_agent (PORTFOLIO K) portfolio_agent "Portfolio manager" cls))))).

End Registry.

(** ** database/cs2_sqlite_helper.py : the [cs2_portfolio] table *)

Module CS2SQLiteDB.

(** One row of [cs2_portfolio] (cs2_sqlite_setup.py lines 31-43).  The JSON
    column [positions] is kept decoded; the constant column [market_type] is
    left out.  [trading_date] is the day number of the ISO date string,
    [updated_at] the instant of the write. *)
Record Row := mkRow {
  row_id : nat;
  row_config_id : nat;
  row_updated_at : nat;
  row_trading_date : Z;
  row_cashflow : Q;
  row_total_assets : Q;
  row_positions : gmap string Position
}.

(** The database together with the two sources of fresh values the helper
    draws from: [uuid.uuid4()] and [datetime.now(timezone.utc)]. *)
Record DB := mkDB {
  cs2_portfolio : list Row;
  now : nat;
  next_uuid : nat
}.

(** The dictionaries the helper returns.  The one built after an INSERT has
    no ['updated_at'] key. *)
Record PortfolioDict := mkDict {
  d_id : nat;
  d_config_id : nat;
  d_updated_at : option nat;
  d_trading_date : Z;
  d_cashflow : Q;
  d_total_assets : Q;
  d_positions : gmap string Position
}.

Definition dict_of_row (r : Row) : PortfolioDict :=
  mkDict (row_id r) (row_config_id r) (Some (row_updated_at r)) (row_trading_date r)
         (row_cashflow r) (row_total_assets r) (row_positions r).

Definition uuid4 (db : DB) : nat * DB :=
  (next_uuid db, mkDB (cs2_portfolio db) (now db) (S (next_uuid db))).

Definition utcnow (db : DB) : nat * DB :=
  (now db, mkDB (cs2_portfolio db) (S (now db)) (next_uuid db)).

(** [WHERE config_id = ? AND trading_date = ?] *)
Definition matches (config_id : nat) (trading_date : Z) (r : Row) : bool :=
  (row_config_id r =? config_id)%nat && (row_trading_date r =? trading_date).

(** [ORDER BY updated_at DESC LIMIT 1] over the rows of one configuration;
    among equal stamps the earliest row of the table is taken. *)
Definition newer (best : option Row) (r : Row) : option Row :=
  match best with
  | None => Some r
  | Some b => if (row_updated_at b <? row_updated_at r)%nat then Some r else Some b
  end.

Definition latest_row (config_id : nat) (rows : list Row) : option Row :=
  foldl newer None (filter (λ r, row_config_id r = config_id) rows).

(** lines 112-136 *)
Definition get_latest_trading_date (db : DB) (config_id : nat) : option Z :=
  row_trading_date <$> latest_row config_id (cs2_portfolio db).

(** lines 138-173 *)
Definition get_latest_portfolio (db : DB) (config_id : nat) : option PortfolioDict :=
  dict_of_row <$> latest_row config_id (cs2_portfolio db).

(** [sum(position['value'] for position in positions.values())] *)
Definition sum_values (m : gmap string Position) : Q :=
  map_fold (λ _ pos acc, acc + pos_value pos)%Q 0%Q m.

(** [INSERT INTO cs2_portfolio]: the primary key [id] must be new, otherwise
    sqlite raises and the caller's [except] turns that into [None]. *)
Definition insert_row (r : Row) (rows : list Row) : option (list Row) :=
  if existsb (λ r', (row_id r' =? row_id r)%nat) rows then None else Some (rows ++ [r]).

(** lines 210-247 *)
Definition create_portfolio (db : DB) (config_id : nat) (cashflow : Q) (trading_date : Z)
  : option PortfolioDict * DB :=
  let '(portfolio_id, db1) := uuid4 db in
  let '(stamp, db2) := utcnow db1 in
  match insert_row (mkRow portfolio_id config_id stamp trading_date cashflow cashflow ∅)
                   (cs2_portfolio db2) with
  | Some rows =>
      (Some (mkDict portfolio_id config_id None trading_date cashflow cashflow ∅),
       mkDB rows (now db2) (next_uuid db2))
  | None => (None, db2)
  end.

(** lines 249-336, for [portfolio['positions']] a dict (what
    [get_latest_portfolio] and [create_portfolio] hand over).  The SELECT has
    [LIMIT 1] and no ORDER BY: the first matching row of the table is taken. *)
Definition copy_portfolio (db : DB) (config_id : nat) (portfolio : PortfolioDict)
  (trading_date : Z) : option PortfolioDict * DB :=
  match find (matches config_id trading_date) (cs2_portfolio db) with
  | Some existing_row => (Some (dict_of_row existing_row), db)
  | None =>
      let '(portfolio_id, db1) := uuid4 db in
      let positions_data := d_positions portfolio in
      let total_assets := (d_cashflow portfolio + sum_values positions_data)%Q in
      let '(stamp, db2) := utcnow db1 in
      match insert_row (mkRow portfolio_id config_id stamp trading_date
                              (d_cashflow portfolio) total_assets positions_data)
                       (cs2_portfolio db2) with
      | Some rows =>
          (Some (mkDict portfolio_id config_id None trading_date
                        (d_cashflow portfolio) total_assets positions_data),
           mkDB rows (now db2) (next_uuid db2))
      | None => (None, db2)
      end
  end.

(** lines 338-379: [UPDATE ... WHERE config_id = ? AND trading_date = ?];
    the result is [cursor.rowcount > 0]. *)
Definition update_row (config_id : nat) (trading_date : Z) (cash total : Q)
  (pos : gmap string Position) (stamp : nat) (r : Row) : Row :=
  if matches config_id trading_date r
  then mkRow (row_id r) (row_config_id r) stamp (row_trading_date r) cash total pos
  else r.

Definition update_portfolio (db : DB) (config_id : nat) (portfolio : Portfolio)
  (trading_date : Z) : bool * DB :=
  let total_assets := (cashflow portfolio + sum_values (positions portfolio))%Q in
  let '(stamp, db1) := utcnow db in
  let rowcount := length (filter (λ r, matches config_id trading_date r = true) (cs2_portfolio db1)) in
  ((0 <? rowcount)%nat,
   mkDB (update_row config_id trading_date (cashflow portfolio) total_assets
                    (positions portfolio) stamp <$> cs2_portfolio db1)
        (now db1) (next_uuid db1)).

(** "A snapshot exists for [(config_id, trading_date)]". *)
Definition has_snapshot (db : DB) (config_id : nat) (trading_date : Z) : Prop :=
  ∃ r, r ∈ cs2_portfolio db ∧ row_config_id r = config_id ∧ row_trading_date r = trading_date.

Definition snapshots (db : DB) (config_id : nat) (trading_date : Z) : list Row :=
  filter (λ r, matches config_id trading_date r = true) (cs2_portfolio db).

(** A store in which [uuid4] has never yet produced the identifier it is
    about to produce. *)
Definition uuid_fresh (db : DB) : Prop :=
  Forall (λ r, (row_id r < next_uuid db)%nat) (cs2_portfolio db).

(** The row a first copy for a day writes (the INSERT of [copy_portfolio]). *)
Definition copied_row (db : DB) (config_id : nat) (portfolio : PortfolioDict)
  (trading_date : Z) : Row :=
  mkRow (next_uuid db) config_id (now db) trading_date (d_cashflow portfolio)
        (d_cashflow portfolio + sum_values (d_positions portfolio))%Q
        (d_positions portfolio).

End CS2SQLiteDB.

Import CS2SQLiteDB.

(** ** graph/workflow.py and run.py : the trading-date driver *)

Module Driver.

Import Registry.

(** The experiment configuration ([cfg], a dict built by [ConfigParser]); the
    optional keys carry their [config.get] defaults.  The opaque [llm] entry
    is closed over by the collaborators below. *)
Record Config := mkConfig {
  exp_name : string;
  tickers : list string;
  cfg_trading_date : Z;
  cfg_cashflow : Q;
  planner_mode : bool;
  workflow_analysts : list string;
  enable_transaction_fee : bool
}.

(** The collaborators that are not among the sources:
    - [planner_agent(ticker, llm_config, workflow_analysts)] ([agents/planner.py]);
    - the compiled langgraph workflow: [workflow_invoke db ticker analysts
      portfolio] is [final_state["decision"]] of [workflow.invoke(state)] for
      the graph [self.build()] wires over [analysts] ([build] itself is taken
      to return), [None] when the invocation raises; the agents may read the
      database and append audit rows to [cs2_decision] and [cs2_signal], which
      are not modelled; they do not write [cs2_portfolio];
    - the [AgentKey] constants. *)
Record Env := mkEnv {
  planner_agent : string → list string → list string;
  workflow_invoke : DB → string → list string → Portfolio → option Decision;
  agent_keys : AgentKey
}.

(** The attributes [__init__] sets on the workflow object. *)
Record AgentWorkflow := mkWorkflow {
  wf_tickers : list string;
  wf_trading_date : Z;
  init_portfolio : Portfolio;
  wf_planner_mode : bool;
  wf_workflow_analysts : list string;
  wf_enable_transaction_fee : bool
}.

(** [Portfolio( **new_portfolio )] *)
Definition portfolio_of_dict (d : PortfolioDict) : Portfolio :=
  mkPortfolio (d_id d) (d_config_id d) (d_trading_date d) (d_cashflow d)
              (d_total_assets d) (d_positions d).

(** lines 46-51: the analysts whose key [check_agent_key] rejects are removed. *)
Definition validate_analysts (K : AgentKey) (analysts : list string) : list string :=
  filter (λ a, check_agent_key K a = true) analysts.

(** lines 18-54, [AgentWorkflow.__init__] *)
Definition new_workflow (env : Env) (db : DB) (config : Config) (config_id : nat)
  : Outcome AgentWorkflow * DB :=
  let '(portfolio, db1) :=
    match get_latest_portfolio db config_id with
    | Some portfolio => (Some portfolio, db)
    | None => create_portfolio db config_id (cfg_cashflow config) (cfg_trading_date config)
    end in
  match portfolio with
  | None => (Raises (RuntimeError FailedCreatePortfolio), db1)
  | Some portfolio =>
      let '(new_portfolio, db2) :=
        copy_portfolio db1 config_id portfolio (cfg_trading_date config) in
      match new_portfolio with
      | None => (Raises TypeError, db2)
      | Some new_portfolio =>
          (Returns (mkWorkflow (tickers config) (cfg_trading_date config)
                      (portfolio_of_dict new_portfolio) (planner_mode config)
                      (validate_analysts (agent_keys env) (workflow_analysts config))
                      (enable_transaction_fee config)),
           db2)
      end
  end.

(** lines 83-102, [load_analysts]: the value left in [self.current_analysts] *)
Definition load_analysts (env : Env) (wf : AgentWorkflow) (ticker : string)
  : Outcome (list string) :=
  match wf_workflow_analysts wf with
  | [] => Returns []
  | _ :: _ =>
      if wf_planner_mode wf then
        match planner_agent env ticker (wf_workflow_analysts wf) with
        | [] => Raises (ValueError NoAnalystsSelected)
        | current_analysts => Returns current_analysts
        end
      else Returns (wf_workflow_analysts wf)
  end.

(** lines 110-138, the [for ticker in self.tickers] loop *)
Fixpoint run_tickers (env : Env) (db : DB) (wf : AgentWorkflow) (portfolio : Portfolio)
  (remaining : list string) : Outcome Portfolio :=
  match remaining with
  | [] => Returns portfolio
  | ticker :: rest =>
      match load_analysts env wf ticker with
      | Raises e => Raises e
      | Returns current_analysts =>
          match workflow_invoke env db ticker current_analysts portfolio with
          | None => Raises (RuntimeError (FailedGenerate (pf_id portfolio)))
          | Some decision =>
              run_tickers env db wf
                (update_portfolio_ticker portfolio ticker decision
                   (wf_enable_transaction_fee wf))
                rest
          end
      end
  end.

(** lines 104-151, [AgentWorkflow.run]; the returned [time_cost] is dropped. *)
Definition run (env : Env) (wf : AgentWorkflow) (db : DB) (config_id : nat)
  : Outcome unit * DB :=
  match run_tickers env db wf (init_portfolio wf) (wf_tickers wf) with
  | Raises e => (Raises e, db)
  | Returns portfolio =>
      let '(success, db') := update_portfolio db config_id portfolio (wf_trading_date wf) in
      if success then (Returns (), db') else (Raises (RuntimeError FailedUpdate), db')
  end.

(** run.py lines 60-71, [run_single_experiment] from the ordering check on;
    [cfg] and [config_id] are what lines 40-58 computed. *)
Definition run_workflow (env : Env) (db : DB) (cfg : Config) (config_id : nat)
  : Outcome unit * DB :=
  match new_workflow env db cfg config_id with
  | (Raises e, db1) => (Raises e, db1)
  | (Returns app, db1) => run env app db1 config_id
  end.

Definition run_single_experiment (env : Env) (db : DB) (cfg : Config) (config_id : nat)
  : Outcome unit * DB :=
  match get_latest_trading_date db config_id with
  | Some latest_trading_date =>
      if cfg_trading_date cfg <? latest_trading_date
      then (Raises (RuntimeError NotChronological), db)
      else run_workflow env db cfg config_id
  | None => run_workflow env db cfg config_id
  end.

End Driver.

Import Driver.

(** * Reading the ledger: what a decision settles to

    The share count and the cash balance one application arrives at, before
    the two final roundings; one case per branch of [update_portfolio_ticker]. *)

Definition actual_buy (p : Portfolio) (d : Decision) : Z :=
  Z.min (shares d) (max_affordable_shares (cashflow p) (price d)).

Definition actual_sell (p : Portfolio) (t : string) (d : Decision) : Z :=
  Z.min (shares d) (shares_of p t).

Definition settled_shares (p : Portfolio) (t : string) (d : Decision) : Z :=
  match action d with
  | BUY => shares_of p t + actual_buy p d
  | SELL => shares_of p t - actual_sell p t d
  | HOLD => shares_of p t
  end.

Definition settled_cash (p : Portfolio) (t : string) (d : Decision) (fee : bool) : Q :=
  match action d with
  | BUY => cashflow p - price d * inject_Z (actual_buy p d)
  | SELL =>
      if fee
      then cashflow p + price d * inject_Z (actual_sell p t d) * (1 - TRANSACTION_FEE_RATE)
      else cashflow p + price d * inject_Z (actual_sell p t d)
  | HOLD => cashflow p
  end%Q.

(** The same reading on doubles: the share count and the cash balance one
    application of [Ledger64.update_portfolio_ticker] arrives at, before the
    two final roundings. *)

Definition actual_buy64 (p : Portfolio) (d : Decision) : Z :=
  Z.min (shares d) (Ledger64.max_affordable_shares (cashflow p) (price d)).

Definition settled_shares64 (p : Portfolio) (t : string) (d : Decision) : Z :=
  match action d with
  | BUY => shares_of p t + actual_buy64 p d
  | SELL => shares_of p t - actual_sell p t d
  | HOLD => shares_of p t
  end.

Definition settled_cash64 (p : Portfolio) (t : string) (d : Decision) (fee : bool) : Q :=
  match action d with
  | BUY => Binary64.sub (cashflow p) (Binary64.mul (price d) (Binary64.of_int (actual_buy64 p d)))
  | SELL =>
      if fee
      then Binary64.add (cashflow p)
             (Binary64.mul (Binary64.mul (price d) (Binary64.of_int (actual_sell p t d)))
                (Binary64.sub (Binary64.of_int 1) Ledger64.TRANSACTION_FEE_RATE))
      else Binary64.add (cashflow p)
             (Binary64.mul (price d) (Binary64.of_int (actual_sell p t d)))
  | HOLD => cashflow p
  end.


(** The successive portfolios of a sequence of per-ticker decisions, each
    applied to the result of the one before (the threading of
    [AgentWorkflow.run]). *)
Fixpoint apply_decisions (fee : bool) (p : Portfolio) (ds : list (string * Decision))
  : list Portfolio :=
  match ds with
  | [] => []
  | (t, d) :: rest =>
      let p' := update_portfolio_ticker p t d fee in
      p' :: apply_decisions fee p' rest
  end.


(** * Concrete portfolios, decisions and stores used in the examples *)

Module Examples.

(** Scenario A of the specification: cash 1000, Buy 15 at 100. *)
Definition pfA : Portfolio := mkPortfolio 7 1 20 1000 1000 ∅.
Definition buy15 : Decision := mkDecision BUY 15 100 "scenario A".

(** Scenario B: 5 shares held, Sell 5 at 50 with the fee. *)
Definition pfB : Portfolio :=
  mkPortfolio 7 1 20 0 250 {[ "AK-47" := mkPosition 5 250 ]}.

(** One share held, valued at 1.01. *)
Definition pf_one : Portfolio :=
  mkPortfolio 7 1 20 0 (101 # 100) {[ "AK-47" := mkPosition 1 (101 # 100) ]}.


(** A portfolio seeded with a starting cash of 100.126, and a Hold. *)
Definition pf_seed : Portfolio := mkPortfolio 7 1 20 (100126 # 1000) (100126 # 1000) ∅.
Definition hold_at_3 : Decision := mkDecision HOLD 0 3 "hold".

(** Two tickers held. *)
Definition pf_two : Portfolio :=
  mkPortfolio 7 1 20 500 800
    {[ "AK-47" := mkPosition 2 200; "AWP" := mkPosition 1 100 ]}.

(** Assumed values of the [AgentKey] constants, for the examples only. *)
Definition keys : Registry.AgentKey :=
  Registry.mkAgentKey "portfolio" "technical" "sentiment" "sentiment_reverse"
                      "liquidity" "event".

Definition registry : Registry.AgentRegistry := Registry.run_registry keys Registry.empty_registry.

(** A store holding one snapshot: configuration 1, day 1, cash 1000. *)
Definition db1 : DB := mkDB [mkRow 0 1 0 1 1000 1000 ∅] 1 1.

(** A planner that selects nothing, and one that keeps the whole list. *)
Definition planner_none : string → list string → list string := λ _ _, [].
Definition planner_all : string → list string → list string := λ _ l, l.

(** A decision step that buys one share at 100 of whatever it is asked
    about, and one that does so for "AK-47" and raises for any other ticker. *)
Definition invoke_buy : DB → string → list string → Portfolio → option Decision :=
  λ _ _ _ _, Some (mkDecision BUY 1 100 "buy one").
Definition invoke_ak_only : DB → string → list string → Portfolio → option Decision :=
  λ _ ticker _ _,
    if bool_decide (ticker = "AK-47") then Some (mkDecision BUY 1 100 "buy one") else None.

Definition env_planner_none : Env := mkEnv planner_none invoke_buy keys.
Definition env_ak_only : Env := mkEnv planner_all invoke_ak_only keys.
Definition env_buy : Env := mkEnv planner_all invoke_buy keys.

(** Day 2, planned mode over the sentiment analyst. *)
Definition cfg_planned : Config :=
  mkConfig "exp" ["AK-47"] 2 1000 true ["sentiment"] true.

(** Day 2, direct mode, two tickers. *)
Definition cfg_two : Config :=
  mkConfig "exp" ["AK-47"; "AWP"] 2 1000 false [] true.

(** Day 0 and day 1, direct mode. *)
Definition cfg_day0 : Config := mkConfig "exp" ["AK-47"] 0 1000 false [] true.
Definition cfg_day1 : Config := mkConfig "exp" ["AK-47"] 1 1000 false [] true.

(** What the constructor makes of [db1] for day 2: the store with the
    copied row, and the workflow objects of the two configurations. *)
Definition db2 : DB :=
  mkDB [mkRow 0 1 0 1 1000 1000 ∅; mkRow 1 1 1 2 1000 1000 ∅] 2 2.
Definition wf_planned : AgentWorkflow :=
  mkWorkflow ["AK-47"] 2 (mkPortfolio 1 1 2 1000 1000 ∅) true ["sentiment"] true.
Definition wf_two : AgentWorkflow :=
  mkWorkflow ["AK-47"; "AWP"] 2 (mkPortfolio 1 1 2 1000 1000 ∅) false [] true.

End Examples.

(** Portfolios and decisions on doubles: a decimal literal is the double
    nearest to it. *)

Module Examples64.

Import Binary64.

(** A buy at a price with three decimals. *)
Definition buy_fine : Decision := mkDecision BUY 1 (RN (12346 # 1000)) "one share at 12.346".

(** Cash 1.0 and a Buy of ten at 0.1: the double 0.1 lies above 1/10, and
    [1.0 // 0.1] is 9. *)
Definition pf_unit : Portfolio := mkPortfolio 7 1 20 1 1 ∅.
Definition buy_tenths : Decision := mkDecision BUY 10 (RN (1 # 10)) "ten at 0.1".

(** One share held, sold at 1.01 with the 2% fee: the proceeds are 0.9898. *)
Definition pf_one : Portfolio :=
  mkPortfolio 7 1 20 0 (RN (101 # 100)) {[ "AK-47" := mkPosition 1 (RN (101 # 100)) ]}.


(** A portfolio seeded with a starting cash of 100.126, and one with 2.675,
    a double just below the tie between 2.67 and 2.68. *)
Definition pf_seed : Portfolio :=
  mkPortfolio 7 1 20 (RN (100126 # 1000)) (RN (100126 # 1000)) ∅.

End Examples64.

(** * Further definitions: the rest of the cited files *)

Module MoreExamples.

(** Scenario C of the specification: three shares held, Sell 10. *)
Definition pfC : Portfolio :=
  mkPortfolio 7 1 20 0 150 {[ "AK-47" := mkPosition 3 150 ]}.
Definition sell10 : Decision := mkDecision SELL 10 50 "scenario C".

End MoreExamples.

(** ** database/cs2_sqlite_helper.py : further operations and invariants *)

Module StoreMore.

(** lines 175-208, [get_portfolio]: [SELECT * FROM cs2_portfolio WHERE id = ?] *)
Definition get_portfolio (db : DB) (portfolio_id : nat) : option PortfolioDict :=
  dict_of_row <$> find (λ r, (row_id r =? portfolio_id)%nat) (cs2_portfolio db).

(** Every stamp in the table lies before the instant the clock shows. *)
Definition clock_fresh (db : DB) : Prop :=
  Forall (λ r, (row_updated_at r < now db)%nat) (cs2_portfolio db).

(** A store as the helper leaves it: identifiers and stamps come from the
    two counters, so they are below them, and identifiers do not repeat. *)
Definition store_ok (db : DB) : Prop :=
  uuid_fresh db ∧ clock_fresh db ∧ NoDup (row_id <$> cs2_portfolio db).

(** No configuration has two rows for one day. *)
Definition one_snapshot_per_day (db : DB) : Prop :=
  ∀ config_id date, (length (snapshots db config_id date) <= 1)%nat.

End StoreMore.

Import StoreMore.

(** ** run.py : [run_experiment] and the loop of [main] *)

Module Batch.

(** lines 74-88, [run_experiment]: any exception of the day is logged and
    turned into [False]. *)
Definition run_experiment (env : Env) (db : DB) (cfg : Config) (config_id : nat)
  : bool * DB :=
  match run_single_experiment env db cfg config_id with
  | (Returns _, db') => (true, db')
  | (Raises _, db') => (false, db')
  end.

(** The days [current_date] goes through, from [start_date] for [n] days
    ([current_date += timedelta(days=1)]). *)
Fixpoint days_from (start : Z) (n : nat) : list Z :=
  match n with
  | O => []
  | S n => start :: days_from (start + 1) n
  end.

(** [while current_date <= end_date] *)
Definition date_range (start_date end_date : Z) : list Z :=
  days_from start_date (Z.to_nat (end_date - start_date + 1)).

(** lines 167-175: the days are run in turn and the first failing day ends
    the program ([sys.exit(1)]).  [config_for d] is the configuration
    [ConfigParser] builds for day [d] (not among the sources); [config_id] is
    what [load_portfolio_config] finds for the experiment's name.  The result
    lists the days run with their outcomes. *)
Fixpoint run_dates (env : Env) (config_for : Z → Config) (config_id : nat) (db : DB)
  (dates : list Z) : list (Z * Outcome unit) * DB :=
  match dates with
  | [] => ([], db)
  | date :: rest =>
      match run_single_experiment env db (config_for date) config_id with
      | (Returns v, db') =>
          let '(log, db'') := run_dates env config_for config_id db' rest in
          ((date, Returns v) :: log, db'')
      | (Raises e, db') => ([(date, Raises e)], db')
      end
  end.

(** No row of the configuration is dated after [day]. *)
Definition none_after (config_id : nat) (day : Z) (db : DB) : Prop :=
  ∀ r, r ∈ cs2_portfolio db → row_config_id r = config_id → row_trading_date r <= day.

End Batch.

Import Batch.

Module BatchExamples.

(** The configuration of day [d]: one ticker, direct mode. *)
Definition config_for (d : Z) : Config := mkConfig "exp" ["AK-47"] d 1000 false [] true.

End BatchExamples.

(** ** Sorting in descending order of a key

    [ORDER BY key DESC] and [list.sort(key=..., reverse=True)]: elements with
    equal keys keep their order (Python's sort is stable; SQL leaves the order
    of ties open, and nothing below depends on it). *)

Fixpoint insert_desc {A} (key : A → Z) (x : A) (l : list A) : list A :=
  match l with
  | [] => [x]
  | y :: l' => if key x <? key y then y :: insert_desc key x l' else x :: l
  end.

Definition sort_desc {A} (key : A → Z) (l : list A) : list A :=
  foldr (insert_desc key) [] l.

(** ** run.py and cs2_sqlite_helper.py : the [cs2_config] table *)

Module ConfigTable.

(** One row of [cs2_config] (cs2_sqlite_setup.py lines 17-28); the columns
    [llm_model] and [llm_provider], copied from the opaque [llm] entry, and
    the constant [market_type] are left out. *)
Record ConfigRow := mkConfigRow {
  crow_id : nat;
  crow_exp_name : string;
  crow_updated_at : nat;
  crow_items : list string;
  crow_has_planner : bool
}.

(** The database with both tables; the counters of [uuid4] and of the clock
    are those of [portfolios]. *)
Record Store := mkStore {
  portfolios : DB;
  cs2_config : list ConfigRow
}.

(** cs2_sqlite_helper.py lines 61-79: [SELECT * FROM cs2_config WHERE
    exp_name = ?], first row. *)
Definition get_config_id_by_name (st : Store) (exp_name : string) : option nat :=
  crow_id <$> find (λ r, bool_decide (crow_exp_name r = exp_name)) (cs2_config st).

(** The entries of the configuration dictionary that [create_config] and
    [load_portfolio_config] read with [config[...]].  [None] stands for a
    missing key, and for the last three also for a [None] value, which the
    NOT NULL columns refuse (cs2_sqlite_setup.py lines 22-24); [llm_model] and
    [llm_provider] are [config["llm"]["model"]] and
    [config["llm"]["provider"]]. *)
Record ConfigDict := mkConfigDict {
  cd_exp_name : string;
  cd_tickers : option (list string);
  cd_planner_mode : option bool;
  cd_llm_model : option string;
  cd_llm_provider : option string
}.

(** The dictionary has what the INSERT of [create_config] needs. *)
Definition complete (config : ConfigDict) : Prop :=
  is_Some (cd_tickers config) ∧ is_Some (cd_planner_mode config)
  ∧ is_Some (cd_llm_model config) ∧ is_Some (cd_llm_provider config).

(** cs2_sqlite_helper.py lines 81-110.  The id and the stamp are taken
    before the entries are read; a [KeyError] of a missing entry and the
    failure of the INSERT (a NOT NULL column, an id already there) both end
    in the [except] branch, which returns [None]. *)
Definition create_config (st : Store) (config : ConfigDict) : option nat * Store :=
  let '(config_id, db1) := uuid4 (portfolios st) in
  let '(stamp, db2) := utcnow db1 in
  match cd_tickers config, cd_planner_mode config, cd_llm_model config,
        cd_llm_provider config with
  | Some items, Some has_planner, Some _, Some _ =>
      if existsb (λ r, (crow_id r =? config_id)%nat) (cs2_config st)
      then (None, mkStore db2 (cs2_config st))
      else (Some config_id,
            mkStore db2 (cs2_config st
                         ++ [mkConfigRow config_id (cd_exp_name config) stamp items
                                         has_planner]))
  | _, _, _, _ => (None, mkStore db2 (cs2_config st))
  end.

(** The [RuntimeError] of run.py line 32. *)
Inductive LoadError := FailedCreateConfig.

(** run.py lines 25-33 *)
Definition load_portfolio_config (cfg : ConfigDict) (st : Store) : (nat + LoadError) * Store :=
  match get_config_id_by_name st (cd_exp_name cfg) with
  | Some config_id => (inl config_id, st)
  | None =>
      match create_config st cfg with
      | (Some config_id, st') => (inl config_id, st')
      | (None, st') => (inr FailedCreateConfig, st')
      end
  end.

(** The store after a call of [create_config], with the rows it leaves. *)
Definition after_create (st : Store) (rows : list ConfigRow) : Store :=
  mkStore (mkDB (cs2_portfolio (portfolios st)) (S (now (portfolios st)))
                (S (next_uuid (portfolios st))))
          rows.

Definition named (exp_name : string) (st : Store) : list ConfigRow :=
  filter (λ r, crow_exp_name r = exp_name) (cs2_config st).

End ConfigTable.

Import ConfigTable.

(** ** cs2_sqlite_helper.py : the [cs2_decision] table and the decision memory *)

Module DecisionTable.

(** One row of [cs2_decision] (cs2_sqlite_setup.py lines 46-61). *)
Record DecisionRow := mkDecisionRow {
  dec_id : nat;
  dec_portfolio_id : nat;
  dec_updated_at : nat;
  dec_trading_date : Z;
  dec_item_name : string;
  dec_llm_prompt : string;
  dec_action : Action;
  dec_quantity : Z;
  dec_price : Q;
  dec_justification : string
}.

(** The entries [get_decision_memory] returns. *)
Record MemoryEntry := mkMemoryEntry {
  mem_trading_date : Z;
  mem_action : Action;
  mem_quantity : Z;
  mem_price : Q
}.

Definition entry_of_row (r : DecisionRow) : MemoryEntry :=
  mkMemoryEntry (dec_trading_date r) (dec_action r) (dec_quantity r) (dec_price r).

(** lines 473-493: the ids of the [limit] most recently written portfolios
    of the configuration. *)
Definition get_recent_portfolio_ids_by_config_id (db : DB) (config_id : nat) (limit : nat)
  : list nat :=
  row_id <$> take limit
    (sort_desc (λ r, Z.of_nat (row_updated_at r))
       (filter (λ r, row_config_id r = config_id) (cs2_portfolio db))).

(** The rows the query of lines 519-528 selects: [portfolio_id IN (...) AND
    item_name = ? ORDER BY updated_at DESC LIMIT ?]. *)
Definition memory_rows (decisions : list DecisionRow) (portfolio_ids : list nat)
  (ticker : string) (limit : nat) : list DecisionRow :=
  take limit
    (sort_desc (λ r, Z.of_nat (dec_updated_at r))
       (filter (λ r, dec_portfolio_id r ∈ portfolio_ids ∧ dec_item_name r = ticker)
          decisions)).

(** lines 495-545, [get_decision_memory] *)
Definition get_decision_memory (st : Store) (decisions : list DecisionRow)
  (exp_name ticker : string) (limit : nat) : list MemoryEntry :=
  match get_config_id_by_name st exp_name with
  | None => []
  | Some config_id =>
      match get_recent_portfolio_ids_by_config_id (portfolios st) config_id limit with
      | [] => []
      | portfolio_ids => entry_of_row <$> memory_rows decisions portfolio_ids ticker limit
      end
  end.

End DecisionTable.

Import DecisionTable.

Module AuditExamples.

Definition st1 : Store := mkStore Examples.db2 [mkConfigRow 1 "exp" 0 ["AK-47"] false].

(** The configuration of the examples as a dictionary, and the same without
    the [planner_mode] entry. *)
Definition cfg_exp : ConfigDict :=
  mkConfigDict "exp" (Some ["AK-47"; "AWP"]) (Some false) (Some "model") (Some "provider").
Definition cfg_no_planner_mode : ConfigDict :=
  mkConfigDict "exp" (Some ["AK-47"; "AWP"]) None (Some "model") (Some "provider").

(** Three decisions: two for "AK-47" under portfolios 0 and 1, one for "AWP". *)
Definition decisions : list DecisionRow :=
  [ mkDecisionRow 10 0 5 1 "AK-47" "p" BUY 1 100 "j";
    mkDecisionRow 11 1 7 2 "AK-47" "p" SELL 1 110 "j";
    mkDecisionRow 12 1 8 2 "AWP" "p" HOLD 0 50 "j" ].

End AuditExamples.

(** ** apis/reddit/api.py : the end of [get_ticker_relevant_posts] *)

Module Reddit.

(** The [MediaNews] objects ([apis/common_model.py] is not among the
    sources; the fields are those the constructor calls of
    [apis/reddit/api.py] pass). *)
Record MediaNews := mkNews {
  title : string;
  publish_time : string;
  publisher : string;
  link : string;
  summary : string;
  score : option Z;
  num_comments : option Z
}.

(** lines 482-488: a post is kept when no post kept so far has its title
    ([seen_titles] holds the titles of [all_posts]). *)
Definition add_unseen (all_posts : list MediaNews) (post : MediaNews) : list MediaNews :=
  if bool_decide (title post ∈ title <$> all_posts) then all_posts else all_posts ++ [post].

(** lines 470-488: the results of the searches, one list per query, in the
    order of the queries. *)
Definition merge_results (results : list (list MediaNews)) : list MediaNews :=
  foldl (foldl add_unseen) [] results.

(** lines 520-521: [all_posts.sort(key=relevance_score, reverse=True)] and
    [all_posts[:limit]]; [relevance_score] (lines 491-518) is a function of
    the post. *)
Definition get_ticker_relevant_posts (relevance_score : MediaNews → Z) (limit : nat)
  (results : list (list MediaNews)) : list MediaNews :=
  take limit (sort_desc relevance_score (merge_results results)).

End Reddit.

(** ** agents/analysts/sentiment.py and sentiment_reverse.py *)

Module Sentiment.

Import Registry Reddit.

(** Modelled from the spec: the [Signal] of [graph/constants.py] and the
    [AnalystSignal] of [graph/schema.py] are not among the sources; the three
    values and the two fields are those of section 3 of the specification. *)
Inductive Signal := Bullish | Bearish | Neutral.

Record AnalystSignal := mkSignal {
  signal : Signal;
  justification : string
}.

(** sentiment.py lines 14-23, the two thresholds the agent uses for the
    number of posts. *)
Definition reddit_post_count : nat := 25.
Definition reddit_relevant_limit : nat := 15.

(** The prompts of [llm/prompt.py], by template and arguments. *)
Inductive Prompt :=
| SENTIMENT_PROMPT (ticker : string) (reddit_posts : list MediaNews) (post_count : nat)
| REDDIT_SENTIMENT_INSUFFICIENT_DATA_PROMPT (ticker : string) (post_count min_posts : nat)
| REDDIT_SENTIMENT_FETCH_ERROR_PROMPT (ticker : string)
| SENTIMENT_REVERSE_PROMPT (ticker : string) (original_signal : Signal)
    (original_justification : string).

(** One row of [cs2_signal], as [save_signal] writes it; the columns [id]
    and [updated_at] are left out. *)
Record SignalRow := mkSignalRow {
  sig_portfolio_id : nat;
  sig_analyst : string;
  sig_item_name : string;
  sig_llm_prompt : Prompt;
  sig_signal : AnalystSignal
}.

(** The part of [FundState] the two agents read. *)
Record AgentState := mkAgentState {
  st_ticker : string;
  st_portfolio_id : nat
}.

(** [agent_call] then [save_signal], then the return of the one signal. *)
Definition call_and_save (agent_call : Prompt → Outcome AnalystSignal) (agent_name : string)
  (state : AgentState) (prompt : Prompt) (table : list SignalRow)
  : Outcome (list AnalystSignal) * list SignalRow :=
  match agent_call prompt with
  | Raises e => (Raises e, table)
  | Returns signal =>
      (Returns [signal],
       table ++ [mkSignalRow (st_portfolio_id state) agent_name (st_ticker state) prompt signal])
  end.

(** sentiment.py lines 26-122.  [fetched] is the outcome of
    [router.get_ticker_relevant_reddit_posts(...)]; [agent_call] is the call
    to the model ([llm/inference.py], not among the sources), which may
    raise. *)
Definition sentiment_agent (K : AgentKey) (agent_call : Prompt → Outcome AnalystSignal)
  (fetched : Outcome (list MediaNews)) (state : AgentState) (table : list SignalRow)
  : Outcome (list AnalystSignal) * list SignalRow :=
  let agent_name := SENTIMENT K in
  let ticker := st_ticker state in
  let on_error :=
    call_and_save agent_call agent_name state (REDDIT_SENTIMENT_FETCH_ERROR_PROMPT ticker) table in
  match fetched with
  | Raises _ => on_error
  | Returns reddit_posts =>
      let min_posts := reddit_post_count in
      if (length reddit_posts <? min_posts)%nat then
        match agent_call (REDDIT_SENTIMENT_INSUFFICIENT_DATA_PROMPT ticker
                            (length reddit_posts) min_posts) with
        | Raises _ => on_error
        | Returns signal =>
            (Returns [signal],
             table ++ [mkSignalRow (st_portfolio_id state) agent_name ticker
                         (REDDIT_SENTIMENT_INSUFFICIENT_DATA_PROMPT ticker
                            (length reddit_posts) min_posts) signal])
        end
      else
        call_and_save agent_call agent_name state
          (SENTIMENT_PROMPT ticker reddit_posts (length reddit_posts)) table
  end.

(** What [sentiment_reverse_agent] returns: the state as it is (line 27) or
    the one reversed signal. *)
Inductive ReverseResult :=
| StateUnchanged
| AnalystSignals (signals : list AnalystSignal).

(** sentiment_reverse.py lines 9-53 *)
Definition sentiment_reverse_agent (K : AgentKey) (agent_call : Prompt → Outcome AnalystSignal)
  (fetched : Outcome (list MediaNews)) (state : AgentState) (table : list SignalRow)
  : Outcome ReverseResult * list SignalRow :=
  match sentiment_agent K agent_call fetched state table with
  | (Raises e, table1) => (Raises e, table1)
  | (Returns [], table1) => (Returns StateUnchanged, table1)
  | (Returns (original_signal :: _), table1) =>
      let prompt := SENTIMENT_REVERSE_PROMPT (st_ticker state) (signal original_signal)
                      (justification original_signal) in
      match agent_call prompt with
      | Raises e => (Raises e, table1)
      | Returns reversed_signal_obj =>
          (Returns (AnalystSignals [reversed_signal_obj]),
           table1 ++ [mkSignalRow (st_portfolio_id state) (SENTIMENT_REVERSE K)
                        (st_ticker state) prompt reversed_signal_obj])
      end
  end.

(** The prompts that tell the model that data is missing. *)
Definition is_fallback_prompt (p : Prompt) : Prop :=
  match p with
  | REDDIT_SENTIMENT_INSUFFICIENT_DATA_PROMPT _ _ _ | REDDIT_SENTIMENT_FETCH_ERROR_PROMPT _ => True
  | _ => False
  end.

End Sentiment.

Module SentimentExamples.

Import Reddit Sentiment.

Definition post (t : string) (s : Z) : MediaNews := mkNews t "2025-10-01" "r/cs2" "" "" (Some s) (Some 3).

(** Two searches with one title in common, ranked by the post's score. *)
Definition results : list (list MediaNews) :=
  [[post "AK-47 price" 5; post "Asiimov trade" 9]; [post "AK-47 price" 5; post "Skins" 7]].
Definition by_score (p : MediaNews) : Z := default 0 (score p).

(** A model that answers Neutral to the fallback prompts and Bullish
    otherwise. *)
Definition model (p : Prompt) : Outcome AnalystSignal :=
  match p with
  | REDDIT_SENTIMENT_INSUFFICIENT_DATA_PROMPT _ _ _ | REDDIT_SENTIMENT_FETCH_ERROR_PROMPT _ =>
      Returns (mkSignal Neutral "not enough data")
  | _ => Returns (mkSignal Bullish "answer")
  end.

Definition state : AgentState := mkAgentState "AK-47" 1.

End SentimentExamples.

(** * Rational arithmetic used by the ledger proofs *)

Section Rounding.

Lemma Qltb_true x y : Qltb x y = true ↔ (x < y)%Q.
Proof.
  unfold Qltb. rewrite Qlt_alt.
  destruct (x ?= y)%Q; split; congruence.
Qed.

Lemma Qltb_false x y : Qltb x y = false ↔ (y <= x)%Q.
Proof.
  rewrite <- not_true_iff_false, Qltb_true. split.
  - apply Qnot_lt_le.
  - intros H1 H2. exact (Qlt_not_le _ _ H2 H1).
Qed.




Lemma cents_eq (c : Z) : (inject_Z c / 100 == c # 100)%Q.
Proof. unfold Qeq, Qdiv, Qmult, Qinv; simpl. lia. Qed.

Lemma cents_times_100 (c : Z) : ((c # 100) * 100 == inject_Z c)%Q.
Proof. unfold Qeq, Qmult; simpl. lia. Qed.


Lemma round_half_even_Z (x : Q) (z : Z) : (x == inject_Z z)%Q → round_half_even x = z.
Proof.
  intros Hx. unfold round_half_even; cbv zeta.
  rewrite (Qfloor_comp _ _ Hx), Qfloor_Z.
  replace (x - inject_Z z ?= 1 # 2)%Q with Lt; [done|].
  symmetry. apply Qlt_alt. rewrite Hx. unfold Qminus. by rewrite Qplus_opp_r.
Qed.

(** Rounding to cents leaves an amount of whole cents alone. *)
Lemma round2_cents (x : Q) (c : Z) : (x == c # 100)%Q → (round2 x == x)%Q.
Proof.
  intros Hx. unfold round2.
  rewrite (round_half_even_Z (x * 100) c).
  - by rewrite Hx, cents_eq.
  - by rewrite Hx, cents_times_100.
Qed.


End Rounding.

(** * The ledger engine *)

Section LedgerFacts.

Implicit Types (p : Portfolio) (d : Decision) (t : string).

Lemma position_of_ensure p t : position_of (ensure_position t p) t = position_of p t.
Proof.
  unfold ensure_position, position_of.
  destruct (positions p !! t) eqn:E; simpl; [by rewrite E|].
  by rewrite lookup_insert_eq.
Qed.

Lemma positions_ensure_insert p t (x : Position) :
  <[t := x]> (positions (ensure_position t p)) = <[t := x]> (positions p).
Proof.
  unfold ensure_position.
  destruct (positions p !! t); simpl; [done|]. apply insert_insert_eq.
Qed.

Lemma ensure_position_fields p t :
  pf_id (ensure_position t p) = pf_id p
  ∧ config_id (ensure_position t p) = config_id p
  ∧ trading_date (ensure_position t p) = trading_date p
  ∧ cashflow (ensure_position t p) = cashflow p
  ∧ total_assets (ensure_position t p) = total_assets p.
Proof. unfold ensure_position. by destruct (positions p !! t). Qed.

(** One closed form for the whole of [update_portfolio_ticker]. *)
Lemma update_portfolio_ticker_eq p t d fee :
  update_portfolio_ticker p t d fee =
  mkPortfolio (pf_id p) (config_id p) (trading_date p)
    (round2 (settled_cash p t d fee)) (total_assets p)
    (<[t := mkPosition (settled_shares p t d)
                       (round2 (price d * inject_Z (settled_shares p t d)))]> (positions p)).
Proof.
  unfold update_portfolio_ticker, update_portfolio_ticker_log,
    settled_cash, settled_shares, actual_buy, actual_sell.
  pose proof (position_of_ensure p t) as Hpos.
  pose proof (positions_ensure_insert p t) as Hins.
  destruct (ensure_position_fields p t) as (H1 & H2 & H3 & H4 & H5).
  destruct (action d); [| destruct fee |]; simpl;
    unfold set_value, set_cashflow, set_shares, set_positions, shares_of, position_of; simpl;
    rewrite ?lookup_insert_eq; simpl; rewrite ?insert_insert_eq, ?Hins, ?H1, ?H2, ?H3, ?H4, ?H5;
    fold (position_of (ensure_position t p) t); rewrite ?Hpos; reflexivity.
Qed.

Lemma warnings_eq p t d fee :
  warnings p t d fee =
  match action d with
  | BUY => if actual_buy p d <? shares d
           then [LimitedBuy t (shares d) (actual_buy p d)] else []
  | SELL => if actual_sell p t d <? shares d
            then [LimitedSell t (shares d) (actual_sell p t d) (shares_of p t)] else []
  | HOLD => []
  end.
Proof.
  unfold warnings, update_portfolio_ticker_log, actual_buy, actual_sell.
  pose proof (position_of_ensure p t) as Hpos.
  destruct (ensure_position_fields p t) as (_ & _ & _ & H4 & _).
  destruct (action d); simpl; unfold shares_of; rewrite ?Hpos, ?H4; reflexivity.
Qed.

Lemma shares_of_update p t d fee :
  shares_of (update_portfolio_ticker p t d fee) t = settled_shares p t d.
Proof.
  rewrite update_portfolio_ticker_eq. unfold shares_of, position_of; simpl.
  by rewrite lookup_insert_eq.
Qed.

Lemma value_of_update p t d fee :
  value_of (update_portfolio_ticker p t d fee) t
  = round2 (price d * inject_Z (settled_shares p t d)).
Proof.
  rewrite update_portfolio_ticker_eq. unfold value_of, position_of; simpl.
  by rewrite lookup_insert_eq.
Qed.

Lemma cashflow_update p t d fee :
  cashflow (update_portfolio_ticker p t d fee) = round2 (settled_cash p t d fee).
Proof. by rewrite update_portfolio_ticker_eq. Qed.

Lemma positions_update_ne p t t' d fee :
  t' ≠ t → positions (update_portfolio_ticker p t d fee) !! t' = positions p !! t'.
Proof.
  intros Hne. rewrite update_portfolio_ticker_eq; simpl.
  by rewrite lookup_insert_ne.
Qed.




End LedgerFacts.

Section LedgerInvariant.

Implicit Types (p : Portfolio) (d : Decision) (t : string).






End LedgerInvariant.

Section LedgerClaims.

Implicit Types (p : Portfolio) (d : Decision) (t : string).




(** C10: applying a decision for ticker [t] leaves the entry of every other
    ticker as it was, shares and value, and enters no position under another
    key: the keys afterwards are the keys before together with [t]. *)
Theorem other_positions_untouched p t t' d fee :
  t' ≠ t →
  let p' := update_portfolio_ticker p t d fee in
  positions p' !! t' = positions p !! t'
  ∧ shares_of p' t' = shares_of p t'
  ∧ value_of p' t' = value_of p t'
  ∧ (positions p !! t' = None → positions p' !! t' = None)
  ∧ dom (positions p') = {[ t ]} ∪ dom (positions p).
Proof.
  intros Hne p'.
  pose proof (positions_update_ne p t t' d fee Hne) as Hl. fold p' in Hl.
  split_and!.
  - exact Hl.
  - unfold shares_of, position_of. by rewrite Hl.
  - unfold value_of, position_of. by rewrite Hl.
  - intros Hnone. by rewrite Hl.
  - unfold p'. rewrite update_portfolio_ticker_eq; simpl. apply dom_insert_L.
Qed.

(** Buying "AK-47" in a portfolio that also holds "AWP" and does not hold
    "M4A4". *)
Lemma other_positions_untouched_example :
  let p' := update_portfolio_ticker Examples.pf_two "AK-47" Examples.buy15 true in
  "AWP" ≠ "AK-47" ∧ "M4A4" ≠ "AK-47"
  ∧ positions p' !! "AWP" = Some (mkPosition 1 100)
  ∧ positions p' !! "M4A4" = None.
Proof.
  assert (H1 : "AWP" ≠ "AK-47") by discriminate.
  assert (H2 : "M4A4" ≠ "AK-47") by discriminate.
  split_and!; [exact H1 | exact H2 | |].
  - rewrite (proj1 (other_positions_untouched Examples.pf_two "AK-47" "AWP"
                      Examples.buy15 true H1)). reflexivity.
  - apply (other_positions_untouched Examples.pf_two "AK-47" "M4A4" Examples.buy15 true H2).
    reflexivity.
Defined.

End LedgerClaims.

(** * Binary64: the rounding of the doubles *)

Section Binary64Facts.

Import Binary64.
Local Open Scope Q_scope.

Lemma pow2_pos (e : Z) : 0 < 2 ^ e.
Proof. apply Qpower_0_lt. reflexivity. Qed.

Lemma pow2_succ (e : Z) : 2 ^ (e + 1) == 2 * 2 ^ e.
Proof. rewrite Qpower_plus by discriminate. change (2 ^ 1) with 2. ring. Qed.

Lemma pow2_le (a b : Z) : (a <= b)%Z → 2 ^ a <= 2 ^ b.
Proof. intros H. apply Qpower_le_compat_l; [done | discriminate]. Qed.

Lemma pow2_lt (a b : Z) : (a < b)%Z → 2 ^ a < 2 ^ b.
Proof. intros H. apply Qpower_lt_compat_l; [done | reflexivity]. Qed.

Lemma pow2_Z (n : Z) : (0 <= n)%Z → inject_Z (2 ^ n) == 2 ^ n.
Proof. intros H. by rewrite Zpower_Qpower. Qed.

(** [ilog2 x] is the exponent of the binade of [x]. *)
Lemma ilog2_spec (x : Q) : 0 < x → 2 ^ ilog2 x <= x ∧ x < 2 ^ (ilog2 x + 1).
Proof.
  intros Hx. unfold ilog2.
  destruct x as [n d]. simpl Qnum. simpl Qden.
  assert (Hn : (0 < n)%Z).
  { unfold Qlt in Hx; simpl in Hx. lia. }
  set (a := Z.log2 n). set (b := Z.log2 (Z.pos d)).
  destruct (Z.log2_spec n Hn) as [Ha1 Ha2]. fold a in Ha1, Ha2.
  destruct (Z.log2_spec (Z.pos d) eq_refl) as [Hb1 Hb2]. fold b in Hb1, Hb2.
  assert (Ha0 : (0 <= a)%Z) by apply Z.log2_nonneg.
  assert (Hb0 : (0 <= b)%Z) by apply Z.log2_nonneg.
  assert (Hxq : n # d == inject_Z n / inject_Z (Z.pos d)).
  { unfold Qeq, Qdiv, Qmult, Qinv, inject_Z; simpl. lia. }
  assert (Hd : 0 < inject_Z (Z.pos d)) by (unfold Qlt; simpl; lia).
  (* bounds in Q *)
  assert (Hlow : 2 ^ (a - b - 1) <= n # d).
  { rewrite Hxq. apply Qle_shift_div_l; [done|].
    apply Qle_trans with (2 ^ (a - b - 1) * 2 ^ (b + 1)).
    - apply Qmult_le_l; [apply pow2_pos|].
      rewrite <- pow2_Z by lia. rewrite <- Zle_Qle.
      replace (2 ^ (b + 1))%Z with (2 ^ Z.succ b)%Z by (f_equal; lia). lia.
    - rewrite <- Qpower_plus by discriminate.
      replace (a - b - 1 + (b + 1))%Z with a by lia.
      rewrite <- pow2_Z by lia. by rewrite <- Zle_Qle. }
  assert (Hhigh : n # d < 2 ^ (a - b + 1)).
  { rewrite Hxq. apply Qlt_shift_div_r; [done|].
    apply Qlt_le_trans with (2 ^ (a - b + 1) * 2 ^ b).
    - rewrite <- Qpower_plus by discriminate.
      replace (a - b + 1 + b)%Z with (a + 1)%Z by lia.
      rewrite <- pow2_Z by lia. rewrite <- Zlt_Qlt.
      replace (2 ^ (a + 1))%Z with (2 ^ Z.succ a)%Z by (f_equal; lia). lia.
    - apply Qmult_le_l; [apply pow2_pos|].
      rewrite <- pow2_Z by lia. by rewrite <- Zle_Qle. }
  destruct (Qle_bool (2 ^ (a - b)) (n # d)) eqn:E.
  - apply Qle_bool_iff in E. split; [done|]. exact Hhigh.
  - split.
    + exact Hlow.
    + replace (a - b - 1 + 1)%Z with (a - b)%Z by lia.
      apply Qnot_le_lt. intros H. apply Qle_bool_iff in H. congruence.
Qed.

(** The binade of a positive rational is unique. *)
Lemma ilog2_unique (x : Q) (k : Z) : 2 ^ k <= x → x < 2 ^ (k + 1) → ilog2 x = k.
Proof.
  intros H1 H2.
  assert (Hx : 0 < x) by (eapply Qlt_le_trans; [apply pow2_pos | exact H1]).
  destruct (ilog2_spec x Hx) as [H3 H4].
  destruct (Z.lt_trichotomy (ilog2 x) k) as [Hlt|[Heq|Hgt]]; [|done|].
  - exfalso. assert (H5 : 2 ^ (ilog2 x + 1) <= 2 ^ k) by (apply pow2_le; lia).
    apply (Qlt_irrefl x). eapply Qlt_le_trans; [exact H4|]. by eapply Qle_trans.
  - exfalso. assert (H5 : 2 ^ (k + 1) <= 2 ^ ilog2 x) by (apply pow2_le; lia).
    apply (Qlt_irrefl x). eapply Qlt_le_trans; [exact H2|]. by eapply Qle_trans.
Qed.

Lemma ilog2_comp (x y : Q) : 0 < x → x == y → ilog2 x = ilog2 y.
Proof.
  intros Hx Hxy. destruct (ilog2_spec x Hx) as [H1 H2].
  symmetry. apply ilog2_unique; by rewrite <- Hxy.
Qed.

End Binary64Facts.

Section Binary64Rounding.

Import Binary64.
Local Open Scope Q_scope.

Lemma round_half_even_comp (x y : Q) : x == y → round_half_even x = round_half_even y.
Proof.
  intros H. unfold round_half_even; cbv zeta.
  rewrite (Qfloor_comp _ _ H).
  replace (x - inject_Z (Qfloor y) ?= 1 # 2) with (y - inject_Z (Qfloor y) ?= 1 # 2); [done|].
  by rewrite H.
Qed.

(** Rounding to an integer moves by at most one half. *)
Lemma round_half_even_error (t : Q) : Qabs (inject_Z (round_half_even t) - t) <= 1 # 2.
Proof.
  pose proof (Qfloor_le t) as Hlo. pose proof (Qlt_floor t) as Hhi.
  rewrite inject_Z_plus in Hhi. change (inject_Z 1) with 1 in Hhi.
  apply Qabs_Qle_condition.
  unfold round_half_even; cbv zeta.
  destruct (t - inject_Z (Qfloor t) ?= 1 # 2) eqn:E.
  - apply Qeq_alt in E.
    destruct (Z.even (Qfloor t)); rewrite ?inject_Z_plus; change (inject_Z 1) with 1; split; lra.
  - apply Qlt_alt in E. split; lra.
  - apply Qgt_alt in E. rewrite inject_Z_plus. change (inject_Z 1) with 1. split; lra.
Qed.


Lemma ulp_exponent_comp (x y : Q) : ¬ x == 0 → x == y → ulp_exponent x = ulp_exponent y.
Proof.
  intros Hx Hxy. unfold ulp_exponent. f_equal. f_equal.
  apply ilog2_comp; [|by rewrite Hxy].
  destruct (Qlt_le_dec 0 (Qabs x)) as [?|Hle]; [done|].
  exfalso. apply Hx. pose proof (Qabs_nonneg x) as Hn.
  assert (Hz : Qabs x == 0) by lra.
  destruct (Qabs_Qle_condition x 0) as [Hc _].
  destruct Hc as [Hc1 Hc2]; [lra|]. lra.
Qed.

Lemma RN_comp (x y : Q) : x == y → RN x = RN y.
Proof.
  intros Hxy. unfold RN.
  destruct (Qeq_bool x 0) eqn:Ex.
  - apply Qeq_bool_iff in Ex.
    assert (Ey : Qeq_bool y 0 = true) by (apply Qeq_bool_iff; by rewrite <- Hxy).
    by rewrite Ey.
  - assert (Hx : ¬ x == 0) by (by apply Qeq_bool_neq).
    assert (Ey : Qeq_bool y 0 = false).
    { destruct (Qeq_bool y 0) eqn:E; [|done]. apply Qeq_bool_iff in E.
      exfalso. apply Hx. by rewrite Hxy. }
    rewrite Ey. cbv zeta. rewrite (ulp_exponent_comp x y Hx Hxy).
    apply Qred_complete.
    rewrite (round_half_even_comp (x / 2 ^ ulp_exponent y) (y / 2 ^ ulp_exponent y));
      [reflexivity|]. by rewrite Hxy.
Qed.

Lemma RN_0 : RN 0 = 0.
Proof. reflexivity. Qed.

(** The error of the rounding is at most half the last place. *)
Lemma RN_error (x : Q) : Qabs (RN x - x) <= 2 ^ ulp_exponent x * (1 # 2).
Proof.
  unfold RN. destruct (Qeq_bool x 0) eqn:Ex.
  - apply Qeq_bool_iff in Ex.
    assert (H0 : 0 - x == 0) by (rewrite Ex; ring).
    rewrite H0. simpl Qabs.
    apply Qmult_le_0_compat; [apply Qlt_le_weak, pow2_pos | discriminate].
  - cbv zeta. set (e := ulp_exponent x). rewrite Qred_correct.
    pose proof (pow2_pos e) as He.
    pose proof (round_half_even_error (x / 2 ^ e)) as Hr.
    set (m := round_half_even (x / 2 ^ e)) in *.
    assert (Heq : inject_Z m * 2 ^ e - x == (inject_Z m - x / 2 ^ e) * 2 ^ e).
    { field. intros H. rewrite H in He. by apply Qlt_irrefl in He. }
    rewrite Heq, Qabs_Qmult, (Qabs_pos (2 ^ e)) by (by apply Qlt_le_weak).
    rewrite (Qmult_comm (2 ^ e)). apply Qmult_le_compat_r; [done | by apply Qlt_le_weak].
Qed.

End Binary64Rounding.

Section Binary64Cents.

Import Binary64.
Local Open Scope Q_scope.

(** In the normal range the rounding error is at most 2^-53 of the value. *)
Lemma RN_relative_error (x : Q) :
  2 ^ (-1022) <= Qabs x → Qabs (RN x - x) <= Qabs x * 2 ^ (-53).
Proof.
  intros Hx.
  assert (Hpos : 0 < Qabs x) by (eapply Qlt_le_trans; [apply (pow2_pos (-1022)) | exact Hx]).
  destruct (ilog2_spec (Qabs x) Hpos) as [H1 H2].
  set (k := ilog2 (Qabs x)) in *.
  assert (Hk : (-1022 <= k)%Z).
  { destruct (Z_le_gt_dec (-1022) k) as [?|Hgt]; [done|]. exfalso.
    assert (H3 : 2 ^ (k + 1) <= 2 ^ (-1022)) by (apply pow2_le; lia).
    apply (Qlt_irrefl (Qabs x)). eapply Qlt_le_trans; [exact H2|]. by eapply Qle_trans. }
  pose proof (RN_error x) as He. unfold ulp_exponent in He. fold k in He.
  rewrite Z.max_l in He by lia.
  eapply Qle_trans; [exact He|].
  replace (k - 52)%Z with (k + -52)%Z by lia.
  rewrite Qpower_plus by discriminate.
  rewrite <- Qmult_assoc.
  assert (Hc : 2 ^ (-52) * (1 # 2) == 2 ^ (-53)) by reflexivity.
  rewrite Hc. apply Qmult_le_compat_r; [done|]. apply Qlt_le_weak, pow2_pos.
Qed.




End Binary64Cents.

Section Binary64Errors.

Import Binary64.
Local Open Scope Q_scope.

Lemma Qabs_zero (x : Q) : Qabs x <= 0 → x == 0.
Proof. intros H. apply Qabs_Qle_condition in H as [H1 H2]. lra. Qed.

(** The rounding error of a value of magnitude at most 2^B is at most
    2^(B-53). *)
Lemma RN_abs_error (x : Q) (B : Z) :
  (-1022 <= B)%Z → Qabs x <= 2 ^ B → Qabs (RN x - x) <= 2 ^ (B - 53).
Proof.
  intros HB Hx.
  destruct (Qlt_le_dec 0 (Qabs x)) as [Hpos|Hle].
  - destruct (ilog2_spec (Qabs x) Hpos) as [H1 _].
    set (k := ilog2 (Qabs x)) in *.
    assert (Hk : (k <= B)%Z).
    { destruct (Z_le_gt_dec k B) as [?|Hgt]; [done|]. exfalso.
      assert (H3 : 2 ^ B < 2 ^ k) by (apply pow2_lt; lia).
      apply (Qlt_irrefl (2 ^ B)). eapply Qlt_le_trans; [exact H3|]. by eapply Qle_trans. }
    pose proof (RN_error x) as He. unfold ulp_exponent in He. fold k in He.
    eapply Qle_trans; [exact He|].
    apply Qle_trans with (2 ^ (B - 52) * (1 # 2)).
    + apply Qmult_le_compat_r; [apply pow2_le; lia | discriminate].
    + replace (B - 52)%Z with (B - 53 + 1)%Z by lia. rewrite pow2_succ.
      apply Qle_lteq. right. ring.
  - apply Qabs_zero in Hle. rewrite (RN_comp x 0 Hle), RN_0.
    assert (H0 : 0 - x == 0) by (rewrite Hle; ring). rewrite H0. simpl Qabs.
    apply Qlt_le_weak, pow2_pos.
Qed.

(** Rounding to cents moves by at most half a cent. *)
Lemma round2_error (x : Q) : Qabs (round2 x - x) <= 1 # 200.
Proof.
  pose proof (round_half_even_error (x * 100)) as H.
  apply Qabs_Qle_condition in H as [H1 H2].
  apply Qabs_Qle_condition. unfold round2.
  generalize dependent (inject_Z (round_half_even (x * 100))). intros m H1 H2.
  unfold Qdiv. change (/ 100) with (1 # 100). split; lra.
Qed.

(** The conversion of an integer keeps a product within 2^-53 of itself. *)
Lemma mul_of_int_error (x : Q) (n : Z) :
  Qabs (x * of_int n - x * inject_Z n) <= Qabs (x * inject_Z n) * 2 ^ (-53).
Proof.
  assert (Heq : x * of_int n - x * inject_Z n == x * (of_int n - inject_Z n)) by ring.
  rewrite Heq, !Qabs_Qmult, <- Qmult_assoc.
  rewrite !(Qmult_comm (Qabs x)). apply Qmult_le_compat_r; [|apply Qabs_nonneg].
  unfold of_int.
  destruct (Z.eq_dec n 0%Z) as [->|Hne].
  - by vm_compute.
  - apply RN_relative_error.
    apply Qle_trans with 1; [by vm_compute|].
    change 1 with (inject_Z 1). rewrite <- (Zabs_Qabs n 1).
    unfold inject_Z. unfold Qle; simpl. lia.
Qed.

End Binary64Errors.

Section SettlementErrors.

Import Binary64.
Local Open Scope Q_scope.

Local Ltac pow2_numeral k :=
  let v := eval vm_compute in (2 ^ k) in change (2 ^ k) with v in *.

Local Ltac split_abs H :=
  let H1 := fresh H "l" in let H2 := fresh H "u" in
  apply Qabs_Qle_condition in H as [H1 H2].

(** One rounding step of an error budget: a value within [δ] of its target,
    of magnitude at most 2^B, is within [δ + 2^(B-53)] of it once rounded. *)
Lemma RN_step (x x0 δ : Q) (B : Z) :
  (-1022 <= B)%Z → Qabs (x - x0) <= δ → Qabs x0 + δ <= 2 ^ B →
  Qabs (RN x - x0) <= δ + 2 ^ (B - 53) ∧ Qabs (RN x) <= 2 ^ B + 2 ^ (B - 53).
Proof.
  intros HB Hx Hx0.
  assert (Hmag : Qabs x <= 2 ^ B).
  { pose proof (Qabs_triangle (x - x0) x0) as Ht.
    assert (He : x - x0 + x0 == x) by ring. rewrite He in Ht. lra. }
  pose proof (RN_abs_error x B HB Hmag) as He.
  split.
  - pose proof (Qabs_triangle (RN x - x) (x - x0)) as Ht.
    assert (Heq : RN x - x + (x - x0) == RN x - x0) by ring. rewrite Heq in Ht. lra.
  - pose proof (Qabs_triangle (RN x - x) x) as Ht.
    assert (Heq : RN x - x + x == RN x) by ring. rewrite Heq in Ht. lra.
Qed.

(** The two final steps, [round(_, 2)] on a computed balance. *)
Lemma round_2_step (z z0 δ : Q) :
  Qabs (z - z0) <= δ → Qabs z0 + δ + (1 # 200) <= 2 ^ 43 →
  Qabs (round_2 z - z0) <= δ + (1 # 200) + 2 ^ (-10).
Proof.
  intros Hz Hz0. unfold round_2.
  pose proof (round2_error z) as Hr.
  assert (H1 : Qabs (round2 z - z0) <= δ + (1 # 200)).
  { pose proof (Qabs_triangle (round2 z - z) (z - z0)) as Ht.
    assert (Heq : round2 z - z + (z - z0) == round2 z - z0) by ring. rewrite Heq in Ht. lra. }
  destruct (RN_step (round2 z) z0 (δ + (1 # 200)) 43 ltac:(lia) H1) as [H2 _]; [lra|].
  exact H2.
Qed.

(** A Buy settles within a cent of cash - price * quantity, for amounts up
    to 2^40. *)
Lemma buy_cash_error (cash price : Q) (n : Z) :
  Qabs cash <= 2 ^ 40 → Qabs (price * inject_Z n) <= 2 ^ 40 →
  Qabs (round_2 (sub cash (mul price (of_int n))) - (cash - price * inject_Z n)) <= 1 # 100.
Proof.
  intros Hc Ha.
  pose proof (mul_of_int_error price n) as H1.
  assert (H1' : Qabs (price * of_int n - price * inject_Z n) <= 2 ^ (-13)).
  { eapply Qle_trans; [exact H1|].
    apply Qle_trans with (2 ^ 40 * 2 ^ (-53)); [|by vm_compute].
    apply Qmult_le_compat_r; [done | by vm_compute]. }
  clear H1.
  destruct (RN_step (price * of_int n) (price * inject_Z n) (2 ^ (-13)) 41 ltac:(lia) H1')
    as [H2 _].
  { pow2_numeral 40%Z. pow2_numeral (-13)%Z. pow2_numeral 41%Z. lra. }
  fold (mul price (of_int n)) in H2.
  assert (H3 : Qabs (cash - mul price (of_int n) - (cash - price * inject_Z n))
               <= 2 ^ (-13) + 2 ^ (41 - 53)).
  { assert (Heq : cash - mul price (of_int n) - (cash - price * inject_Z n)
                  == - (mul price (of_int n) - price * inject_Z n)) by ring.
    by rewrite Heq, Qabs_opp. }
  assert (Hmag : Qabs (cash - price * inject_Z n) <= 2 ^ 41).
  { pose proof (Qabs_triangle cash (- (price * inject_Z n))) as Ht.
    rewrite Qabs_opp in Ht. unfold Qminus.
    pow2_numeral 40%Z. pow2_numeral 41%Z. lra. }
  destruct (RN_step (cash - mul price (of_int n)) (cash - price * inject_Z n)
              (2 ^ (-13) + 2 ^ (41 - 53)) 42 ltac:(lia) H3) as [H4 _].
  { pow2_numeral 41%Z. pow2_numeral (-13)%Z. pow2_numeral (41 - 53)%Z. pow2_numeral 42%Z. lra. }
  fold (sub cash (mul price (of_int n))) in H4.
  pose proof (round_2_step _ _ _ H4) as H5.
  eapply Qle_trans; [apply H5|].
  - pow2_numeral 41%Z. pow2_numeral (-13)%Z. pow2_numeral (41 - 53)%Z.
    pow2_numeral (42 - 53)%Z. pow2_numeral 43%Z. lra.
  - by vm_compute.
Qed.




End SettlementErrors.

(** * The ledger engine on doubles *)

Section Ledger64Facts.

Import Binary64.

Implicit Types (p : Portfolio) (d : Decision) (t : string).

(** One closed form for the whole of [Ledger64.update_portfolio_ticker]. *)
Lemma update_portfolio_ticker64_eq p t d fee :
  Ledger64.update_portfolio_ticker p t d fee =
  mkPortfolio (pf_id p) (config_id p) (trading_date p)
    (round_2 (settled_cash64 p t d fee)) (total_assets p)
    (<[t := mkPosition (settled_shares64 p t d)
                       (round_2 (mul (price d) (of_int (settled_shares64 p t d))))]>
       (positions p)).
Proof.
  unfold Ledger64.update_portfolio_ticker, Ledger64.update_portfolio_ticker_log,
    Ledger64.buy, Ledger64.sell,
    settled_cash64, settled_shares64, actual_buy64, actual_sell.
  pose proof (position_of_ensure p t) as Hpos.
  pose proof (positions_ensure_insert p t) as Hins.
  destruct (ensure_position_fields p t) as (H1 & H2 & H3 & H4 & H5).
  destruct (action d); [| destruct fee |]; simpl;
    unfold set_value, set_cashflow, set_shares, set_positions, shares_of, position_of; simpl;
    rewrite ?lookup_insert_eq; simpl; rewrite ?insert_insert_eq, ?Hins, ?H1, ?H2, ?H3, ?H4, ?H5;
    fold (position_of (ensure_position t p) t); rewrite ?Hpos; reflexivity.
Qed.

Lemma warnings64_eq p t d fee :
  Ledger64.warnings p t d fee =
  match action d with
  | BUY => if actual_buy64 p d <? shares d
           then [LimitedBuy t (shares d) (actual_buy64 p d)] else []
  | SELL => if actual_sell p t d <? shares d
            then [LimitedSell t (shares d) (actual_sell p t d) (shares_of p t)] else []
  | HOLD => []
  end.
Proof.
  unfold Ledger64.warnings, Ledger64.update_portfolio_ticker_log, Ledger64.buy, Ledger64.sell,
    actual_buy64, actual_sell.
  pose proof (position_of_ensure p t) as Hpos.
  destruct (ensure_position_fields p t) as (_ & _ & _ & H4 & _).
  destruct (action d); simpl; unfold shares_of; rewrite ?Hpos, ?H4; reflexivity.
Qed.

Lemma shares_of_update64 p t d fee :
  shares_of (Ledger64.update_portfolio_ticker p t d fee) t = settled_shares64 p t d.
Proof.
  rewrite update_portfolio_ticker64_eq. unfold shares_of, position_of; simpl.
  by rewrite lookup_insert_eq.
Qed.

Lemma value_of_update64 p t d fee :
  value_of (Ledger64.update_portfolio_ticker p t d fee) t
  = round_2 (mul (price d) (of_int (settled_shares64 p t d))).
Proof.
  rewrite update_portfolio_ticker64_eq. unfold value_of, position_of; simpl.
  by rewrite lookup_insert_eq.
Qed.

Lemma cashflow_update64 p t d fee :
  cashflow (Ledger64.update_portfolio_ticker p t d fee) = round_2 (settled_cash64 p t d fee).
Proof. by rewrite update_portfolio_ticker64_eq. Qed.

Lemma max_affordable64_positive cash pr :
  (0 < pr)%Q → Ledger64.max_affordable_shares cash pr = Qfloor (cash / pr).
Proof.
  intros H. unfold Ledger64.max_affordable_shares. by rewrite (proj2 (Qltb_true _ _) H).
Qed.

Lemma max_affordable64_nonpositive cash pr :
  (pr <= 0)%Q → Ledger64.max_affordable_shares cash pr = 0.
Proof.
  intros H. unfold Ledger64.max_affordable_shares. by rewrite (proj2 (Qltb_false _ _) H).
Qed.

End Ledger64Facts.

Section Ledger64Claims.

Import Binary64.

Implicit Types (p : Portfolio) (d : Decision) (t : string).

Local Ltac in_range_by_computation :=
  unfold Ledger64.in_range, double;
  split_and!; [by vm_compute | by vm_compute | by vm_compute | by vm_compute
               | by vm_compute | by vm_compute | intros _; by vm_compute].

(** C1, as stated, fails on the cash side: buying one share at 12.346 out of
    1000 adds the one share, but the balance left is 987.65, so that the cash
    has gone down by 12.35 and not by 12.346 * 1, whether the difference is
    taken exactly or on doubles. *)
Lemma buy_cash_not_exact :
  let p := Examples.pfA in
  let d := Examples64.buy_fine in
  let p' := Ledger64.update_portfolio_ticker p "AK-47" d true in
  let actual := Z.min (shares d) (Qfloor (cashflow p / price d)) in
  action d = BUY ∧ 0 <= shares d ∧ (0 < price d)%Q
  ∧ shares_of p' "AK-47" - shares_of p "AK-47" = actual
  ∧ cashflow p' = RN (98765 # 100)
  ∧ ¬ (cashflow p - cashflow p' == price d * inject_Z actual)%Q
  ∧ sub (cashflow p) (cashflow p') ≠ mul (price d) (of_int actual).
Proof. vm_compute. split_and!; try discriminate; auto. Qed.

(** C1 (amended): on doubles, a Buy with a non-negative quantity adds
    exactly min(requested, floor(cash / price)) shares when the price is
    positive, the quotient being that of the two doubles, and none
    otherwise; it takes no fee; the new cash balance is
    round(cash - price * actual, 2) as the interpreter computes it, which is
    within one cent of cash - price * actual for amounts up to 2^40; a
    clipped order is logged as a warning and the function still returns. *)
Theorem buy_settlement p t d fee :
  action d = BUY → 0 <= shares d → Ledger64.in_range p t d →
  let p' := Ledger64.update_portfolio_ticker p t d fee in
  let actual := shares_of p' t - shares_of p t in
  ((0 < price d)%Q → actual = Z.min (shares d) (Qfloor (cashflow p / price d)))
  ∧ ((price d <= 0)%Q → actual = 0)
  ∧ cashflow p' = round_2 (sub (cashflow p) (mul (price d) (of_int actual)))
  ∧ ((Qabs (cashflow p) <= 2 ^ 40)%Q → (Qabs (price d * inject_Z actual) <= 2 ^ 40)%Q →
     (Qabs (cashflow p' - (cashflow p - price d * inject_Z actual)) <= 1 # 100)%Q)
  ∧ Ledger64.update_portfolio_ticker p t d true = Ledger64.update_portfolio_ticker p t d false
  ∧ Ledger64.warnings p t d fee
    = if actual <? shares d then [LimitedBuy t (shares d) actual] else [].
Proof.
  intros Ha Hs _ p' actual.
  assert (Hact : actual = actual_buy64 p d).
  { unfold actual, p'. rewrite shares_of_update64. unfold settled_shares64.
    rewrite Ha. lia. }
  assert (Hcash : cashflow p' = round_2 (sub (cashflow p) (mul (price d) (of_int actual)))).
  { unfold p'. rewrite cashflow_update64, Hact. unfold settled_cash64. by rewrite Ha. }
  split_and!.
  - intros Hpos. rewrite Hact. unfold actual_buy64. by rewrite max_affordable64_positive.
  - intros Hneg. rewrite Hact. unfold actual_buy64.
    rewrite max_affordable64_nonpositive by done. lia.
  - exact Hcash.
  - intros Hc Hp. rewrite Hcash. by apply buy_cash_error.
  - rewrite !update_portfolio_ticker64_eq. unfold settled_cash64. by rewrite Ha.
  - rewrite warnings64_eq, Ha, Hact. reflexivity.
Qed.

(** Scenario A: cash 1000, price 100, Buy 15: ten shares, cash 0, value 1000,
    and the clipping is logged.  And cash 1.0, Buy 10 at 0.1: nine shares, as
    [1.0 // 0.1] is 9 on doubles, the clipping logged and 0.1 left. *)
Lemma buy_settlement_scenario_A :
  let p' := Ledger64.update_portfolio_ticker Examples.pfA "AK-47" Examples.buy15 true in
  let q' := Ledger64.update_portfolio_ticker Examples64.pf_unit "AK-47"
              Examples64.buy_tenths true in
  action Examples.buy15 = BUY ∧ 0 <= shares Examples.buy15
  ∧ Ledger64.in_range Examples.pfA "AK-47" Examples.buy15
  ∧ shares_of p' "AK-47" - shares_of Examples.pfA "AK-47" = 10
  ∧ (cashflow p' == 0)%Q
  ∧ (value_of p' "AK-47" == 1000)%Q
  ∧ Ledger64.warnings Examples.pfA "AK-47" Examples.buy15 true = [LimitedBuy "AK-47" 15 10]
  ∧ Ledger64.in_range Examples64.pf_unit "AK-47" Examples64.buy_tenths
  ∧ shares_of q' "AK-47" - shares_of Examples64.pf_unit "AK-47" = 9
  ∧ cashflow q' = RN (1 # 10)
  ∧ Ledger64.warnings Examples64.pf_unit "AK-47" Examples64.buy_tenths true
    = [LimitedBuy "AK-47" 10 9].
Proof.
  assert (HrA : Ledger64.in_range Examples.pfA "AK-47" Examples.buy15)
    by in_range_by_computation.
  assert (HrU : Ledger64.in_range Examples64.pf_unit "AK-47" Examples64.buy_tenths)
    by in_range_by_computation.
  pose proof (buy_settlement Examples.pfA "AK-47" Examples.buy15 true eq_refl
                ltac:(discriminate) HrA) as (H1 & _ & H3 & _ & _ & H6).
  pose proof (buy_settlement Examples64.pf_unit "AK-47" Examples64.buy_tenths true eq_refl
                ltac:(discriminate) HrU) as (U1 & _ & U3 & _ & _ & U6).
  specialize (H1 eq_refl). specialize (U1 eq_refl).
  split_and!.
  - reflexivity.
  - discriminate.
  - exact HrA.
  - exact H1.
  - rewrite H3, H1. by vm_compute.
  - rewrite value_of_update64. by vm_compute.
  - rewrite H6, H1. reflexivity.
  - exact HrU.
  - rewrite U1. by vm_compute.
  - rewrite U3, U1. by vm_compute.
  - rewrite U6, U1. by vm_compute.
Defined.







End Ledger64Claims.

(** * The step registry *)

Section RegistryClaims.

Import Registry.

(** C7, as stated, fails: "momentum" is not a key of the registry that
    [run_registry] fills, and resolving it raises nothing. *)
Lemma unregistered_key_raises_nothing :
  agent_func_mapping Examples.registry !! "momentum" = None
  ∧ ¬ (∃ e, get_agent_func_by_key Examples.registry "momentum" = Raises e).
Proof.
  split; [reflexivity|].
  intros [e He]. discriminate He.
Qed.

(** C7 (amended): resolving an identifier that was never registered raises
    no error; it returns [None], so no callable is returned for it.  A
    registered identifier resolves to the callable registered last under it;
    only the description lookup [get_analyst_info] raises (a [KeyError]) on
    an absent identifier. *)
Theorem resolve_absent_returns_none (cls : AgentRegistry) (key : string) :
  agent_func_mapping cls !! key = None →
  get_agent_func_by_key cls key = Returns None
  ∧ (∀ e, get_agent_func_by_key cls key ≠ Raises e)
  ∧ (∀ f, get_agent_func_by_key cls key ≠ Returns (Some f))
  ∧ (∀ f doc, get_agent_func_by_key (register_agent key f doc cls) key = Returns (Some f))
  ∧ (agent_doc_mapping cls !! key = None → get_analyst_info cls key = Raises (KeyError key)).
Proof.
  intros Habs. unfold get_agent_func_by_key, get_analyst_info. rewrite Habs.
  split_and!.
  - reflexivity.
  - intros e. discriminate.
  - intros f. discriminate.
  - intros f doc. simpl. by rewrite lookup_insert_eq.
  - intros Hdoc. by rewrite Hdoc.
Qed.

Lemma resolve_absent_example :
  agent_func_mapping Examples.registry !! "momentum" = None
  ∧ get_agent_func_by_key Examples.registry "momentum" = Returns None
  ∧ get_agent_func_by_key Examples.registry "sentiment" = Returns (Some sentiment_agent).
Proof.
  assert (H : agent_func_mapping Examples.registry !! "momentum" = None) by reflexivity.
  split_and!.
  - exact H.
  - exact (proj1 (resolve_absent_returns_none Examples.registry "momentum" H)).
  - reflexivity.
Defined.

End RegistryClaims.

(** * The snapshot store *)

Section StoreFacts.

Implicit Types (db : DB) (r : Row) (rows : list Row).

Lemma find_snoc {A} (f : A → bool) (l : list A) (x : A) :
  find f l = None → f x = true → find f (l ++ [x]) = Some x.
Proof.
  intros Hnone Hx. induction l as [|a l IH]; simpl in *.
  - by rewrite Hx.
  - destruct (f a); [discriminate | by apply IH].
Qed.

Lemma find_none_filter config_id date rows :
  find (matches config_id date) rows = None →
  filter (λ r, matches config_id date r = true) rows = [].
Proof.
  induction rows as [|a rows IH]; simpl; [done|].
  destruct (matches config_id date a) eqn:E; [discriminate|].
  intros H. rewrite filter_cons_False by (rewrite E; discriminate). by apply IH.
Qed.

Lemma find_some_filter config_id date rows r :
  find (matches config_id date) rows = Some r →
  (1 <= length (filter (λ r, matches config_id date r = true) rows))%nat.
Proof.
  induction rows as [|a rows IH]; simpl; [discriminate|].
  destruct (matches config_id date a) eqn:E.
  - intros _. rewrite filter_cons_True by done. simpl. lia.
  - intros H. rewrite filter_cons_False by (rewrite E; discriminate). by apply IH.
Qed.

Lemma find_matches config_id date rows r :
  find (matches config_id date) rows = Some r →
  r ∈ rows ∧ row_config_id r = config_id ∧ row_trading_date r = date.
Proof.
  intros H. apply find_some in H as [Hin Hm].
  unfold matches in Hm. apply andb_true_iff in Hm as [H1 H2].
  apply Nat.eqb_eq in H1. apply Z.eqb_eq in H2.
  split_and!; [by apply list_elem_of_In | done | done].
Qed.

Lemma matches_refl r : matches (row_config_id r) (row_trading_date r) r = true.
Proof. unfold matches. by rewrite Nat.eqb_refl, Z.eqb_refl. Qed.

Lemma insert_row_fresh r rows :
  Forall (λ r', (row_id r' < row_id r)%nat) rows → insert_row r rows = Some (rows ++ [r]).
Proof.
  intros H. unfold insert_row.
  replace (existsb _ rows) with false; [done|].
  symmetry. apply not_true_iff_false. intros Hex.
  apply existsb_exists in Hex as (r' & Hin & Heq).
  apply Nat.eqb_eq in Heq. rewrite Forall_forall in H.
  apply list_elem_of_In in Hin. specialize (H _ Hin). lia.
Qed.

Lemma insert_row_some r rows rows' :
  insert_row r rows = Some rows' → rows' = rows ++ [r].
Proof. unfold insert_row. destruct (existsb _ _); congruence. Qed.

Lemma copy_portfolio_existing db config_id portfolio date r :
  find (matches config_id date) (cs2_portfolio db) = Some r →
  copy_portfolio db config_id portfolio date = (Some (dict_of_row r), db).
Proof. intros H. unfold copy_portfolio. by rewrite H. Qed.

Lemma copy_portfolio_new db config_id portfolio date :
  find (matches config_id date) (cs2_portfolio db) = None →
  copy_portfolio db config_id portfolio date
  = match insert_row (copied_row db config_id portfolio date) (cs2_portfolio db) with
    | Some rows =>
        (Some (mkDict (next_uuid db) config_id None date (d_cashflow portfolio)
                 (d_cashflow portfolio + sum_values (d_positions portfolio))%Q
                 (d_positions portfolio)),
         mkDB rows (S (now db)) (S (next_uuid db)))
    | None => (None, mkDB (cs2_portfolio db) (S (now db)) (S (next_uuid db)))
    end.
Proof. intros H. unfold copy_portfolio. rewrite H. reflexivity. Qed.

End StoreFacts.

Section StoreClaims.

Implicit Types (db : DB) (r : Row).

(** C5: two successive copy-on-write calls for one [(config_id, trading_date)]
    return the same snapshot: whenever the first returns a snapshot, the
    second returns one with the same id, for the same pair and with the same
    cash, total and positions, and leaves the store as the first left it;
    the pair has afterwards as many rows as before, or one if it had none;
    a row that exists for the pair is returned as it is and nothing is
    written; and the first call does return a snapshot as long as [uuid4]
    gives an identifier not yet in the table. *)
Theorem copy_portfolio_idempotent db (config_id : nat) (portfolio portfolio' : PortfolioDict)
    (date : Z) :
  let first := copy_portfolio db config_id portfolio date in
  let second := copy_portfolio first.2 config_id portfolio' date in
  (∀ s1, first.1 = Some s1 →
     ∃ s2, second.1 = Some s2
       ∧ d_id s2 = d_id s1
       ∧ (d_config_id s2, d_trading_date s2) = (config_id, date)
       ∧ (d_config_id s1, d_trading_date s1) = (config_id, date)
       ∧ (d_cashflow s2, d_total_assets s2, d_positions s2)
         = (d_cashflow s1, d_total_assets s1, d_positions s1)
       ∧ second.2 = first.2
       ∧ length (snapshots first.2 config_id date)
         = Nat.max 1 (length (snapshots db config_id date)))
  ∧ (∀ r, find (matches config_id date) (cs2_portfolio db) = Some r →
       first = (Some (dict_of_row r), db))
  ∧ (uuid_fresh db → is_Some first.1).
Proof.
  intros first second. subst second.
  destruct (find (matches config_id date) (cs2_portfolio db)) as [r|] eqn:Hfind.
  - (* a row exists: both calls return it *)
    pose proof (copy_portfolio_existing db config_id portfolio date r Hfind) as H1.
    pose proof (copy_portfolio_existing db config_id portfolio' date r Hfind) as H2.
    fold first in H1. rewrite H1; simpl. rewrite H2; simpl.
    destruct (find_matches _ _ _ _ Hfind) as (_ & Hc & Hd).
    split_and!.
    + intros s1 [= <-]. exists (dict_of_row r). simpl. rewrite Hc, Hd.
      split_and!; try done.
      pose proof (find_some_filter _ _ _ _ Hfind). unfold snapshots. lia.
    + by intros r' [= <-].
    + intros _. by eexists.
  - (* none: the first call inserts, the second finds the inserted row *)
    pose proof (copy_portfolio_new db config_id portfolio date Hfind) as H1.
    fold first in H1.
    destruct (insert_row (copied_row db config_id portfolio date) (cs2_portfolio db))
      as [rows|] eqn:Hins.
    + apply insert_row_some in Hins. subst rows.
      rewrite H1; simpl.
      assert (Hfind' : find (matches config_id date)
                (cs2_portfolio db ++ [copied_row db config_id portfolio date])
              = Some (copied_row db config_id portfolio date)).
      { apply find_snoc; [done|]. apply (matches_refl (copied_row db config_id portfolio date)). }
      rewrite (copy_portfolio_existing (mkDB _ _ _) config_id portfolio' date _ Hfind'); simpl.
      split_and!.
      * intros s1 [= <-]. eexists. split; [reflexivity|]. simpl.
        split_and!; try done.
        unfold snapshots; simpl. rewrite filter_app, (find_none_filter _ _ _ Hfind).
        rewrite filter_cons_True by apply (matches_refl (copied_row db config_id portfolio date)).
        reflexivity.
      * intros r' [=].
      * intros _. by eexists.
    + rewrite H1; simpl. split_and!.
      * intros s1 [=].
      * intros r' [=].
      * intros Hfresh. exfalso.
        rewrite insert_row_fresh in Hins; [discriminate|]. exact Hfresh.
Qed.

(** On the one-row store, copying twice to day 2 gives the new id 1 twice and
    one row for day 2; copying to day 1 gives the stored row 0. *)
Lemma copy_portfolio_idempotent_example :
  let p := dict_of_row (mkRow 0 1 0 1 1000 1000 ∅) in
  let first := copy_portfolio Examples.db1 1 p 2 in
  let second := copy_portfolio first.2 1 p 2 in
  uuid_fresh Examples.db1
  ∧ d_id <$> first.1 = Some 1%nat
  ∧ d_id <$> second.1 = Some 1%nat
  ∧ second.2 = first.2
  ∧ length (snapshots second.2 1 2) = 1%nat
  ∧ d_id <$> (copy_portfolio Examples.db1 1 p 1).1 = Some 0%nat.
Proof.
  intros p first second.
  assert (Hfresh : uuid_fresh Examples.db1).
  { repeat constructor. }
  destruct (copy_portfolio_idempotent Examples.db1 1 p p 2) as (H1 & _ & H3).
  fold first in H1, H3. fold second in H1.
  destruct (H3 Hfresh) as [s1 Hs1].
  destruct (H1 s1 Hs1) as (s2 & Hs2 & Hid & _ & _ & _ & Hdb & Hlen).
  split_and!.
  - exact Hfresh.
  - reflexivity.
  - rewrite Hs2; simpl. rewrite Hid.
    assert (Hs : d_id <$> first.1 = Some 1%nat) by reflexivity.
    rewrite Hs1 in Hs. exact Hs.
  - exact Hdb.
  - rewrite Hdb, Hlen. reflexivity.
  - reflexivity.
Defined.

End StoreClaims.

(** * The trading-date driver *)

Section DriverFacts.

Variable env : Env.

Implicit Types (db : DB) (wf : AgentWorkflow) (cfg : Config) (p : Portfolio).

Lemma run_tickers_app db wf p (pre post : list string) :
  run_tickers env db wf p (pre ++ post)
  = match run_tickers env db wf p pre with
    | Returns p' => run_tickers env db wf p' post
    | Raises e => Raises e
    end.
Proof.
  revert p. induction pre as [|t pre IH]; intros p; simpl; [done|].
  destruct (load_analysts env wf t); [|done].
  destruct (workflow_invoke env db t v p); [apply IH | done].
Qed.

Lemma load_analysts_not_chronological wf t :
  load_analysts env wf t ≠ Raises (RuntimeError NotChronological).
Proof.
  unfold load_analysts.
  destruct (wf_workflow_analysts wf); [discriminate|].
  destruct (wf_planner_mode wf); [|discriminate].
  destruct (planner_agent env t _); discriminate.
Qed.

Lemma run_tickers_not_chronological db wf p (ts : list string) :
  run_tickers env db wf p ts ≠ Raises (RuntimeError NotChronological).
Proof.
  revert p. induction ts as [|t ts IH]; intros p; simpl; [discriminate|].
  pose proof (load_analysts_not_chronological wf t) as Hl.
  destruct (load_analysts env wf t); [|congruence].
  destruct (workflow_invoke env db t v p); [apply IH | discriminate].
Qed.

Lemma run_not_chronological wf db config_id :
  (run env wf db config_id).1 ≠ Raises (RuntimeError NotChronological).
Proof.
  unfold run.
  pose proof (run_tickers_not_chronological db wf (init_portfolio wf) (wf_tickers wf)) as H.
  destruct (run_tickers env db wf (init_portfolio wf) (wf_tickers wf)) as [final|e].
  - destruct (update_portfolio db config_id final (wf_trading_date wf)) as [[] db'];
      simpl; discriminate.
  - simpl. congruence.
Qed.

Lemma run_workflow_not_chronological db cfg config_id :
  (run_workflow env db cfg config_id).1 ≠ Raises (RuntimeError NotChronological).
Proof.
  unfold run_workflow.
  destruct (new_workflow env db cfg config_id) as [[app|e] db1] eqn:E.
  - apply run_not_chronological.
  - simpl. intros [= ->]. revert E. unfold new_workflow.
    destruct (get_latest_portfolio db config_id) as [pd|].
    + destruct (copy_portfolio db config_id pd (cfg_trading_date cfg)) as [[?|] ?]; discriminate.
    + destruct (create_portfolio db config_id (cfg_cashflow cfg) (cfg_trading_date cfg))
        as [[pd|] db2]; [|discriminate].
      destruct (copy_portfolio db2 config_id pd (cfg_trading_date cfg)) as [[?|] ?]; discriminate.
Qed.

(** The threading of the loop: a run over all tickers that returns has
    applied one decision per ticker, in the order of the list. *)
Lemma run_tickers_threads db wf p (ts : list string) final :
  run_tickers env db wf p ts = Returns final →
  ∃ ds : list (string * Decision),
    ds.*1 = ts
    ∧ last (p :: apply_decisions (wf_enable_transaction_fee wf) p ds) = Some final.
Proof.
  revert p. induction ts as [|t ts IH]; intros p; simpl.
  - intros [= <-]. by exists [].
  - destruct (load_analysts env wf t); [|discriminate].
    destruct (workflow_invoke env db t v p) as [d|]; [|discriminate].
    intros H. destruct (IH _ H) as (ds & Hfst & Hlast).
    exists ((t, d) :: ds). split; [by rewrite fmap_cons, Hfst|].
    simpl. simpl in Hlast. exact Hlast.
Qed.

Lemma foldl_newer_some (l : list Row) (b : Row) : is_Some (foldl newer (Some b) l).
Proof.
  revert b. induction l as [|a l IH]; intros b; simpl; [by eexists|].
  destruct (row_updated_at b <? row_updated_at a)%nat; apply IH.
Qed.

Lemma latest_row_none config_id (rows : list Row) date :
  latest_row config_id rows = None → find (matches config_id date) rows = None.
Proof.
  unfold latest_row. intros Hnone.
  assert (Hnil : filter (λ r, row_config_id r = config_id) rows = []).
  { destruct (filter _ rows) as [|a l]; [done|]. simpl in Hnone.
    destruct (foldl_newer_some l a) as [r Hr]. congruence. }
  destruct (find (matches config_id date) rows) as [r|] eqn:Hf; [|done].
  destruct (find_matches _ _ _ _ Hf) as (Hin & Hc & _).
  assert (Hin' : r ∈ filter (λ r, row_config_id r = config_id) rows).
  { apply list_elem_of_filter. by split. }
  rewrite Hnil in Hin'. by apply not_elem_of_nil in Hin'.
Qed.

(** What the constructor hands to [run]: the configuration's fields, and a
    store in which the run's day has a row holding exactly the initial
    portfolio.  The row was there already, and then the store is untouched,
    or it is the one row the constructor has appended. *)
Lemma new_workflow_returns db cfg config_id wf db' :
  new_workflow env db cfg config_id = (Returns wf, db') →
  wf_tickers wf = tickers cfg
  ∧ wf_trading_date wf = cfg_trading_date cfg
  ∧ wf_enable_transaction_fee wf = enable_transaction_fee cfg
  ∧ wf_planner_mode wf = planner_mode cfg
  ∧ wf_workflow_analysts wf = validate_analysts (agent_keys env) (workflow_analysts cfg)
  ∧ ∃ r, find (matches config_id (cfg_trading_date cfg)) (cs2_portfolio db') = Some r
       ∧ init_portfolio wf = portfolio_of_dict (dict_of_row r)
       ∧ ((find (matches config_id (cfg_trading_date cfg)) (cs2_portfolio db) = Some r ∧ db' = db)
          ∨ (find (matches config_id (cfg_trading_date cfg)) (cs2_portfolio db) = None
             ∧ cs2_portfolio db' = cs2_portfolio db ++ [r])).
Proof.
  unfold new_workflow.
  destruct (get_latest_portfolio db config_id) as [pd|] eqn:Hl.
  - destruct (find (matches config_id (cfg_trading_date cfg)) (cs2_portfolio db))
      as [r|] eqn:Hf.
    + rewrite (copy_portfolio_existing _ _ _ _ _ Hf). intros [= <- <-]; simpl.
      split_and!; try done. exists r. split_and!; try done. by left.
    + rewrite (copy_portfolio_new _ _ _ _ Hf).
      destruct (insert_row _ _) as [rows|] eqn:Hins; [|discriminate].
      apply insert_row_some in Hins. subst rows. intros [= <- <-]; simpl.
      split_and!; try done.
      exists (copied_row db config_id pd (cfg_trading_date cfg)). split_and!.
      * apply find_snoc; [done|].
        apply (matches_refl (copied_row db config_id pd (cfg_trading_date cfg))).
      * reflexivity.
      * by right.
  - assert (Hf : find (matches config_id (cfg_trading_date cfg)) (cs2_portfolio db) = None).
    { apply latest_row_none. unfold get_latest_portfolio in Hl.
      by destruct (latest_row config_id (cs2_portfolio db)). }
    unfold create_portfolio; simpl.
    destruct (insert_row _ _) as [rows|] eqn:Hins; [|discriminate].
    apply insert_row_some in Hins. subst rows.
    set (created := mkRow (next_uuid db) config_id (now db) (cfg_trading_date cfg)
                          (cfg_cashflow cfg) (cfg_cashflow cfg) ∅).
    assert (Hf' : find (matches config_id (cfg_trading_date cfg))
                    (cs2_portfolio db ++ [created]) = Some created).
    { apply find_snoc; [done | apply (matches_refl created)]. }
    rewrite (copy_portfolio_existing (mkDB _ _ _) _ _ _ _ Hf'). intros [= <- <-]; simpl.
    split_and!; try done.
    exists created. split_and!; try done. by right.
Qed.

Lemma update_portfolio_succeeds db config_id p date r :
  find (matches config_id date) (cs2_portfolio db) = Some r →
  (update_portfolio db config_id p date).1 = true.
Proof.
  intros Hf. unfold update_portfolio; simpl.
  pose proof (find_some_filter _ _ _ _ Hf) as Hlen.
  apply Nat.ltb_lt. lia.
Qed.

End DriverFacts.

Section DriverClaims.

Variable env : Env.

Implicit Types (db : DB) (wf : AgentWorkflow) (cfg : Config) (p : Portfolio).

(** C6: when the configuration has a most recently written snapshot, a run
    for a day strictly before that snapshot's day raises the ordering error
    at once: the store is returned as it was and neither the planner nor any
    ticker's pipeline has a part in the outcome.  A run for the same day (or
    a later one) passes the check and goes on to the workflow, and whatever
    that raises is not the ordering error. *)
Theorem chronological_order_check db cfg (config_id : nat) (latest : Z) :
  get_latest_trading_date db config_id = Some latest →
  (cfg_trading_date cfg < latest →
     run_single_experiment env db cfg config_id = (Raises (RuntimeError NotChronological), db))
  ∧ (latest <= cfg_trading_date cfg →
       run_single_experiment env db cfg config_id = run_workflow env db cfg config_id
       ∧ (run_single_experiment env db cfg config_id).1 ≠ Raises (RuntimeError NotChronological)).
Proof.
  intros Hlatest. unfold run_single_experiment. rewrite Hlatest. split.
  - intros Hlt. by rewrite (proj2 (Z.ltb_lt _ _) Hlt).
  - intros Hle. rewrite (proj2 (Z.ltb_ge _ _) Hle).
    split; [done | apply run_workflow_not_chronological].
Qed.

(** C8 (amended): in planned mode, over a non-empty list of valid analysts,
    a ticker of the run for which the planner selects nothing makes
    [load_analysts] raise (the source's [ValueError], "No analysts selected by
    planner"), with no fallback to the direct mode or to the full list; the
    run of the day then ends in an error, which is that one unless an earlier
    ticker has failed first, and the final write never happens: the store is
    the one the workflow constructor left, in which the day's row, appended
    by the constructor unless it existed, holds the portfolio as it was
    before the first ticker. *)
Theorem planned_empty_selection_aborts db cfg (config_id : nat) wf db' (t : string) :
  new_workflow env db cfg config_id = (Returns wf, db') →
  wf_planner_mode wf = true →
  wf_workflow_analysts wf ≠ [] →
  t ∈ wf_tickers wf →
  planner_agent env t (wf_workflow_analysts wf) = [] →
  load_analysts env wf t = Raises (ValueError NoAnalystsSelected)
  ∧ (∃ e, run_workflow env db cfg config_id = (Raises e, db'))
  ∧ (∀ pre post pmid,
       wf_tickers wf = pre ++ t :: post →
       run_tickers env db' wf (init_portfolio wf) pre = Returns pmid →
       run_workflow env db cfg config_id = (Raises (ValueError NoAnalystsSelected), db'))
  ∧ (∃ r, find (matches config_id (cfg_trading_date cfg)) (cs2_portfolio db') = Some r
        ∧ init_portfolio wf = portfolio_of_dict (dict_of_row r)).
Proof.
  intros Hnew Hmode Hne Hin Hplan.
  assert (Hload : load_analysts env wf t = Raises (ValueError NoAnalystsSelected)).
  { unfold load_analysts. destruct (wf_workflow_analysts wf); [done|].
    by rewrite Hmode, Hplan. }
  assert (Hrun : ∀ pre post, wf_tickers wf = pre ++ t :: post →
            run_workflow env db cfg config_id
            = (match run_tickers env db' wf (init_portfolio wf) pre with
               | Returns _ => Raises (ValueError NoAnalystsSelected)
               | Raises e => Raises e
               end, db')).
  { intros pre post Hts. unfold run_workflow, run. rewrite Hnew, Hts, run_tickers_app.
    destruct (run_tickers env db' wf (init_portfolio wf) pre); [|done].
    simpl. by rewrite Hload. }
  split_and!.
  - exact Hload.
  - apply list_elem_of_split in Hin as (pre & post & Hts).
    rewrite (Hrun pre post Hts).
    destruct (run_tickers env db' wf (init_portfolio wf) pre); by eexists.
  - intros pre post pmid Hts Hpre. by rewrite (Hrun pre post Hts), Hpre.
  - destruct (new_workflow_returns env _ _ _ _ _ Hnew) as (_ & _ & _ & _ & _ & r & Hr & Hinit & _).
    by exists r.
Qed.

(** C9 (amended): once the workflow is constructed, the run of the day writes
    the portfolio with one [update_portfolio], after the loop has gone
    through every ticker in the order of the list, each decision applied to
    the portfolio the previous one left; if a ticker's pipeline raises, the
    run ends in that error and writes nothing: the store is the one the
    constructor left, whose row for the day holds the portfolio as it was
    before the first ticker, so the mutations made for the earlier tickers
    are lost. *)
Theorem run_commits_once_or_never db cfg (config_id : nat) wf db' :
  new_workflow env db cfg config_id = (Returns wf, db') →
  (∃ r, find (matches config_id (cfg_trading_date cfg)) (cs2_portfolio db') = Some r
      ∧ init_portfolio wf = portfolio_of_dict (dict_of_row r))
  ∧ (∀ e, run_tickers env db' wf (init_portfolio wf) (tickers cfg) = Raises e →
       run_workflow env db cfg config_id = (Raises e, db'))
  ∧ (∀ final, run_tickers env db' wf (init_portfolio wf) (tickers cfg) = Returns final →
       run_workflow env db cfg config_id
       = (Returns (), (update_portfolio db' config_id final (cfg_trading_date cfg)).2)
       ∧ ∃ ds : list (string * Decision),
           ds.*1 = tickers cfg
           ∧ last (init_portfolio wf
                   :: apply_decisions (enable_transaction_fee cfg) (init_portfolio wf) ds)
             = Some final).
Proof.
  intros Hnew.
  destruct (new_workflow_returns env _ _ _ _ _ Hnew)
    as (Hts & Hdate & Hfee & _ & _ & r & Hr & Hinit & _).
  split_and!.
  - by exists r.
  - intros e He. unfold run_workflow, run. by rewrite Hnew, Hts, He.
  - intros final Hfinal. split.
    + unfold run_workflow, run. rewrite Hnew, Hts, Hfinal, Hdate.
      pose proof (update_portfolio_succeeds db' config_id final _ r Hr) as Hok.
      destruct (update_portfolio db' config_id final (cfg_trading_date cfg)) as [success db''].
      simpl in Hok. by rewrite Hok.
    + rewrite <- Hfee. exact (run_tickers_threads env db' wf _ _ _ Hfinal).
Qed.

End DriverClaims.

Section DriverExamples.

(** The one-row store has day 1 as its latest day: a run for day 0 is
    refused and a run for day 1 goes through. *)
Lemma chronological_order_check_example :
  get_latest_trading_date Examples.db1 1 = Some 1
  ∧ cfg_trading_date Examples.cfg_day0 < 1
  ∧ 1 <= cfg_trading_date Examples.cfg_day1
  ∧ run_single_experiment Examples.env_buy Examples.db1 Examples.cfg_day0 1
    = (Raises (RuntimeError NotChronological), Examples.db1)
  ∧ (run_single_experiment Examples.env_buy Examples.db1 Examples.cfg_day1 1).1
    ≠ Raises (RuntimeError NotChronological).
Proof.
  assert (H : get_latest_trading_date Examples.db1 1 = Some 1) by reflexivity.
  assert (H0 : cfg_trading_date Examples.cfg_day0 < 1) by reflexivity.
  assert (H1 : 1 <= cfg_trading_date Examples.cfg_day1) by discriminate.
  split_and!; [exact H | exact H0 | exact H1 | |].
  - exact (proj1 (chronological_order_check Examples.env_buy Examples.db1
                    Examples.cfg_day0 1 1 H) H0).
  - exact (proj2 (proj2 (chronological_order_check Examples.env_buy Examples.db1
                           Examples.cfg_day1 1 1 H) H1)).
Defined.

(** C8, as stated, fails: with a planner that selects nothing the run for
    day 2 raises, and the store, which had no snapshot for day 2, now has
    one. *)
Lemma planner_abort_leaves_snapshot :
  let out := run_single_experiment Examples.env_planner_none Examples.db1 Examples.cfg_planned 1 in
  out.1 = Raises (ValueError NoAnalystsSelected)
  ∧ ¬ has_snapshot Examples.db1 1 2
  ∧ has_snapshot out.2 1 2.
Proof.
  split_and!.
  - reflexivity.
  - intros (r & Hin & _ & Hd). apply list_elem_of_singleton in Hin. subst r. discriminate Hd.
  - exists (mkRow 1 1 1 2 1000 1000 ∅). split_and!; [|reflexivity|reflexivity].
    vm_compute. apply list_elem_of_further, list_elem_of_here.
Qed.

(** The same run, through the theorem. *)
Lemma planned_empty_selection_example :
  new_workflow Examples.env_planner_none Examples.db1 Examples.cfg_planned 1
  = (Returns Examples.wf_planned, Examples.db2)
  ∧ wf_planner_mode Examples.wf_planned = true
  ∧ wf_workflow_analysts Examples.wf_planned ≠ []
  ∧ "AK-47" ∈ wf_tickers Examples.wf_planned
  ∧ planner_agent Examples.env_planner_none "AK-47" (wf_workflow_analysts Examples.wf_planned) = []
  ∧ run_workflow Examples.env_planner_none Examples.db1 Examples.cfg_planned 1
    = (Raises (ValueError NoAnalystsSelected), Examples.db2).
Proof.
  assert (H1 : new_workflow Examples.env_planner_none Examples.db1 Examples.cfg_planned 1
               = (Returns Examples.wf_planned, Examples.db2)) by reflexivity.
  assert (H2 : wf_planner_mode Examples.wf_planned = true) by reflexivity.
  assert (H3 : wf_workflow_analysts Examples.wf_planned ≠ []) by discriminate.
  assert (H4 : "AK-47" ∈ wf_tickers Examples.wf_planned) by apply list_elem_of_here.
  assert (H5 : planner_agent Examples.env_planner_none "AK-47"
                 (wf_workflow_analysts Examples.wf_planned) = []) by reflexivity.
  split_and!; [exact H1 | exact H2 | exact H3 | exact H4 | exact H5 |].
  destruct (planned_empty_selection_aborts Examples.env_planner_none Examples.db1
              Examples.cfg_planned 1 Examples.wf_planned Examples.db2 "AK-47"
              H1 H2 H3 H4 H5) as (_ & _ & Hfirst & _).
  exact (Hfirst [] [] _ eq_refl eq_refl).
Defined.

(** C9, as stated, fails: the pipeline of the second ticker raises, the run
    for day 2 ends in that error, and the store, which had no snapshot for
    day 2, now has one. *)
Lemma pipeline_abort_leaves_snapshot :
  let out := run_single_experiment Examples.env_ak_only Examples.db1 Examples.cfg_two 1 in
  out.1 = Raises (RuntimeError (FailedGenerate 1))
  ∧ ¬ has_snapshot Examples.db1 1 2
  ∧ has_snapshot out.2 1 2.
Proof.
  split_and!.
  - reflexivity.
  - intros (r & Hin & _ & Hd). apply list_elem_of_singleton in Hin. subst r. discriminate Hd.
  - exists (mkRow 1 1 1 2 1000 1000 ∅). split_and!; [|reflexivity|reflexivity].
    vm_compute. apply list_elem_of_further, list_elem_of_here.
Qed.

(** Two tickers, one share of each bought at 100: the run returns and the
    row of day 2 goes from the copied 1000 to 800 in cash.  When the second
    pipeline raises instead, the row of day 2 keeps the copied 1000. *)
Lemma run_commits_once_or_never_example :
  new_workflow Examples.env_buy Examples.db1 Examples.cfg_two 1
  = (Returns Examples.wf_two, Examples.db2)
  ∧ (run_workflow Examples.env_buy Examples.db1 Examples.cfg_two 1).1 = Returns ()
  ∧ row_cashflow <$> snapshots (run_workflow Examples.env_buy Examples.db1 Examples.cfg_two 1).2 1 2
    = [Qmake 80000 100]
  ∧ run_workflow Examples.env_ak_only Examples.db1 Examples.cfg_two 1
    = (Raises (RuntimeError (FailedGenerate 1)), Examples.db2)
  ∧ row_cashflow <$> snapshots Examples.db2 1 2 = [1000%Q].
Proof.
  assert (H1 : new_workflow Examples.env_buy Examples.db1 Examples.cfg_two 1
               = (Returns Examples.wf_two, Examples.db2)) by reflexivity.
  assert (H2 : new_workflow Examples.env_ak_only Examples.db1 Examples.cfg_two 1
               = (Returns Examples.wf_two, Examples.db2)) by reflexivity.
  destruct (run_commits_once_or_never Examples.env_buy Examples.db1 Examples.cfg_two 1
              Examples.wf_two Examples.db2 H1) as (_ & _ & Hok).
  destruct (run_commits_once_or_never Examples.env_ak_only Examples.db1 Examples.cfg_two 1
              Examples.wf_two Examples.db2 H2) as (_ & Herr & _).
  destruct (Hok _ eq_refl) as [Hrun _].
  split_and!.
  - exact H1.
  - rewrite Hrun. reflexivity.
  - rewrite Hrun. reflexivity.
  - exact (Herr _ eq_refl).
  - reflexivity.
Defined.

End DriverExamples.

(** * More on the ledger engine *)

Section LedgerExtras.

Implicit Types (p : Portfolio) (d : Decision) (t : string).

Lemma round2_idempotent (x : Q) : round2 (round2 x) = round2 x.
Proof.
  unfold round2 at 1 3.
  rewrite (round_half_even_Z (round2 x * 100) (round_half_even (x * 100))); [done|].
  unfold round2. generalize (round_half_even (x * 100)). intros n.
  unfold Qeq, Qdiv, Qmult, Qinv; simpl. lia.
Qed.

(** X1: once a decision has been applied, valuing the ticker again at the
    same price changes nothing: cash and value are already rounded, so a Hold
    at the decision's price returns the portfolio as it is.  In particular a
    Hold applied twice is a Hold applied once. *)
Theorem hold_after_settlement_is_identity p t d (h : Decision) fee fee' :
  action h = HOLD → price h = price d →
  update_portfolio_ticker (update_portfolio_ticker p t d fee) t h fee'
  = update_portfolio_ticker p t d fee.
Proof.
  intros Hh Hp.
  rewrite (update_portfolio_ticker_eq (update_portfolio_ticker p t d fee) t h fee').
  unfold settled_cash, settled_shares. rewrite Hh, Hp.
  rewrite shares_of_update, cashflow_update, round2_idempotent.
  rewrite (update_portfolio_ticker_eq p t d fee) at 1 2 3 4 5; simpl.
  rewrite update_portfolio_ticker_eq. simpl. by rewrite insert_insert_eq.
Qed.

Lemma hold_after_settlement_example :
  action Examples.hold_at_3 = HOLD ∧ price Examples.hold_at_3 = price Examples.hold_at_3
  ∧ update_portfolio_ticker
      (update_portfolio_ticker Examples.pf_seed "AK-47" Examples.hold_at_3 true)
      "AK-47" Examples.hold_at_3 false
    = update_portfolio_ticker Examples.pf_seed "AK-47" Examples.hold_at_3 true.
Proof.
  split_and!; [reflexivity | reflexivity |].
  exact (hold_after_settlement_is_identity Examples.pf_seed "AK-47" Examples.hold_at_3
           Examples.hold_at_3 true false eq_refl eq_refl).
Defined.

(** X4: a Sell for at least the quantity held empties the position: no share
    is left and its value is 0; the holding never goes below zero whatever is
    requested; and the limited-order warning is logged exactly when more is
    requested than is held. *)
Theorem sell_all_empties_position p t d fee :
  action d = SELL → 0 <= shares_of p t →
  let p' := update_portfolio_ticker p t d fee in
  0 <= shares_of p' t
  ∧ (shares_of p t <= shares d → shares_of p' t = 0 ∧ (value_of p' t == 0)%Q)
  ∧ (shares_of p t < shares d ↔ warnings p t d fee ≠ []).
Proof.
  intros Ha Hheld p'.
  assert (Hsh : shares_of p' t = shares_of p t - Z.min (shares d) (shares_of p t)).
  { unfold p'. rewrite shares_of_update. unfold settled_shares, actual_sell. by rewrite Ha. }
  split_and!.
  - lia.
  - intros Hall.
    assert (H0 : shares_of p' t = 0) by lia.
    split; [exact H0|].
    unfold p'. rewrite value_of_update. fold p'.
    unfold p' in H0. rewrite shares_of_update in H0. rewrite H0.
    rewrite (round2_cents _ 0); [apply Qmult_0_r|]. rewrite Qmult_0_r. reflexivity.
  - rewrite warnings_eq, Ha. unfold actual_sell.
    destruct (Z.min (shares d) (shares_of p t) <? shares d) eqn:E.
    + apply Z.ltb_lt in E. split; [discriminate | lia].
    + apply Z.ltb_ge in E. split; [lia | congruence].
Qed.

(** Scenario C: three shares held, Sell 10: clipped to 3, none left. *)
Lemma sell_all_scenario_C :
  let p' := update_portfolio_ticker MoreExamples.pfC "AK-47" MoreExamples.sell10 true in
  action MoreExamples.sell10 = SELL ∧ 0 <= shares_of MoreExamples.pfC "AK-47"
  ∧ shares_of p' "AK-47" = 0
  ∧ warnings MoreExamples.pfC "AK-47" MoreExamples.sell10 true
    = [LimitedSell "AK-47" 10 3 3].
Proof.
  assert (H1 : action MoreExamples.sell10 = SELL) by reflexivity.
  assert (H2 : 0 <= shares_of MoreExamples.pfC "AK-47") by discriminate.
  destruct (sell_all_empties_position MoreExamples.pfC "AK-47" MoreExamples.sell10 true H1 H2)
    as (_ & Hall & _).
  split_and!; [exact H1 | exact H2 | | reflexivity].
  apply Hall. discriminate.
Defined.

End LedgerExtras.

(** * More on the step registry *)

Section RegistryExtras.

Import Registry.

Implicit Types (K : AgentKey) (cls : AgentRegistry) (key : string).

Lemma run_registry_func_is_Some K cls key :
  key ∈ PORTFOLIO K :: ANALYST_KEYS K →
  is_Some (agent_func_mapping (run_registry K cls) !! key).
Proof.
  intros Hin. unfold run_registry, register_agent, ANALYST_KEYS in *; simpl.
  rewrite !lookup_insert_is_Some'.
  repeat (apply elem_of_cons in Hin as [->|Hin]; [tauto|]).
  by apply elem_of_nil in Hin.
Qed.

Lemma run_registry_doc_is_Some K cls key :
  key ∈ PORTFOLIO K :: ANALYST_KEYS K →
  is_Some (agent_doc_mapping (run_registry K cls) !! key).
Proof.
  intros Hin. unfold run_registry, register_agent, ANALYST_KEYS in *; simpl.
  rewrite !lookup_insert_is_Some'.
  repeat (apply elem_of_cons in Hin as [->|Hin]; [tauto|]).
  by apply elem_of_nil in Hin.
Qed.

Lemma check_agent_key_spec K key : check_agent_key K key = true ↔ key ∈ ANALYST_KEYS K.
Proof. unfold check_agent_key. apply bool_decide_eq_true. Qed.

(** X5: once [run_registry] has run, whatever the registry held before,
    every key that [check_agent_key] accepts, and the portfolio key, resolves
    to a callable and has a description: neither [None] nor a [KeyError].
    When the six keys are pairwise distinct each one resolves to the agent
    registered under it. *)
Theorem run_registry_resolves_valid_keys K cls key :
  check_agent_key K key = true ∨ key = PORTFOLIO K →
  (∃ f, get_agent_func_by_key (run_registry K cls) key = Returns (Some f))
  ∧ (∃ doc, get_analyst_info (run_registry K cls) key = Returns doc)
  ∧ (NoDup (PORTFOLIO K :: ANALYST_KEYS K) →
       get_agent_func_by_key (run_registry K cls) (PORTFOLIO K) = Returns (Some portfolio_agent)
       ∧ get_agent_func_by_key (run_registry K cls) (TECHNICAL K) = Returns (Some technical_agent)
       ∧ get_agent_func_by_key (run_registry K cls) (SENTIMENT K) = Returns (Some sentiment_agent)
       ∧ get_agent_func_by_key (run_registry K cls) (SENTIMENT_REVERSE K)
         = Returns (Some sentiment_reverse_agent)
       ∧ get_agent_func_by_key (run_registry K cls) (LIQUIDITY K) = Returns (Some liquidity_agent)
       ∧ get_agent_func_by_key (run_registry K cls) (EVENT K) = Returns (Some event_agent)).
Proof.
  intros Hkey.
  assert (Hin : key ∈ PORTFOLIO K :: ANALYST_KEYS K).
  { destruct Hkey as [H| ->]; [|apply list_elem_of_here].
    apply list_elem_of_further. by apply check_agent_key_spec. }
  split_and!.
  - destruct (run_registry_func_is_Some K cls key Hin) as [f Hf].
    exists f. unfold get_agent_func_by_key. by rewrite Hf.
  - destruct (run_registry_doc_is_Some K cls key Hin) as [doc Hdoc].
    exists doc. unfold get_analyst_info. by rewrite Hdoc.
  - unfold ANALYST_KEYS. intros Hnd.
    repeat (apply NoDup_cons in Hnd as [?%not_elem_of_cons Hnd]).
    repeat match goal with H : _ ∧ _ |- _ => destruct H end.
    repeat match goal with H : _ ∉ _ :: _ |- _ => apply not_elem_of_cons in H as [? ?] end.
    unfold get_agent_func_by_key, run_registry, register_agent; simpl.
    split_and!; f_equal; simplify_map_eq; reflexivity.
Qed.

Lemma run_registry_resolves_example :
  check_agent_key Examples.keys "liquidity" = true
  ∧ NoDup (PORTFOLIO Examples.keys :: ANALYST_KEYS Examples.keys)
  ∧ get_agent_func_by_key (run_registry Examples.keys empty_registry) "liquidity"
    = Returns (Some liquidity_agent)
  ∧ ∃ doc, get_analyst_info (run_registry Examples.keys empty_registry) "liquidity" = Returns doc.
Proof.
  assert (H1 : check_agent_key Examples.keys "liquidity" = true) by reflexivity.
  assert (H2 : NoDup (PORTFOLIO Examples.keys :: ANALYST_KEYS Examples.keys)).
  { apply (bool_decide_unpack _). reflexivity. }
  destruct (run_registry_resolves_valid_keys Examples.keys empty_registry "liquidity"
              (or_introl H1)) as (_ & Hdoc & Hall).
  destruct (Hall H2) as (_ & _ & _ & _ & Hliq & _).
  split_and!; [exact H1 | exact H2 | exact Hliq | exact Hdoc].
Defined.

(** X6: registering keeps the two dictionaries on the same keys, leaves every
    other key as it was, and the later of two registrations under one key
    replaces the earlier one in both; on a registry whose dictionaries have
    the same keys, as the empty one has, the description lookup raises
    [KeyError] exactly for the keys that resolve to [None]. *)
Theorem register_agent_keeps_dictionaries_aligned cls key (f f' : AgentFunc)
    (doc doc' : string) :
  dom (agent_func_mapping cls) = dom (agent_doc_mapping cls) →
  dom (agent_func_mapping (register_agent key f doc cls))
  = dom (agent_doc_mapping (register_agent key f doc cls))
  ∧ register_agent key f' doc' (register_agent key f doc cls) = register_agent key f' doc' cls
  ∧ (∀ key', key' ≠ key →
       get_agent_func_by_key (register_agent key f doc cls) key' = get_agent_func_by_key cls key'
       ∧ get_analyst_info (register_agent key f doc cls) key' = get_analyst_info cls key')
  ∧ (∀ key', get_agent_func_by_key cls key' = Returns None
             ↔ get_analyst_info cls key' = Raises (KeyError key')).
Proof.
  intros Hdom. split_and!.
  - unfold register_agent; simpl. by rewrite !dom_insert_L, Hdom.
  - unfold register_agent; simpl. by rewrite !insert_insert_eq.
  - intros key' Hne. unfold get_agent_func_by_key, get_analyst_info, register_agent; simpl.
    by rewrite !lookup_insert_ne.
  - intros key'. unfold get_agent_func_by_key, get_analyst_info.
    assert (Hiff : agent_func_mapping cls !! key' = None ↔ agent_doc_mapping cls !! key' = None).
    { rewrite <- !not_elem_of_dom. by rewrite Hdom. }
    split.
    + intros [= Hnone]. apply Hiff in Hnone. by rewrite Hnone.
    + destruct (agent_doc_mapping cls !! key') eqn:E; [discriminate|].
      intros _. f_equal. by apply Hiff.
Qed.

Lemma register_agent_aligned_example :
  dom (agent_func_mapping Examples.registry) = dom (agent_doc_mapping Examples.registry)
  ∧ get_agent_func_by_key
      (register_agent "sentiment" technical_agent "replaced" Examples.registry) "sentiment"
    = Returns (Some technical_agent)
  ∧ get_agent_func_by_key
      (register_agent "sentiment" technical_agent "replaced" Examples.registry) "event"
    = Returns (Some event_agent)
  ∧ get_analyst_info Examples.registry "momentum" = Raises (KeyError "momentum").
Proof.
  assert (H : dom (agent_func_mapping Examples.registry)
              = dom (agent_doc_mapping Examples.registry)).
  { unfold Examples.registry, run_registry, register_agent; simpl.
    by rewrite !dom_insert_L. }
  destruct (register_agent_keeps_dictionaries_aligned Examples.registry "sentiment"
              technical_agent technical_agent "replaced" "replaced" H)
    as (_ & _ & Hother & Hkey).
  split_and!.
  - exact H.
  - reflexivity.
  - rewrite (proj1 (Hother "event" ltac:(discriminate))). reflexivity.
  - apply Hkey. reflexivity.
Defined.

End RegistryExtras.

(** * More on the snapshot store *)

Section StoreExtras.

Implicit Types (db : DB) (r : Row) (rows : list Row) (p : Portfolio).

Lemma foldl_newer_max rows (b r : Row) :
  foldl newer (Some b) rows = Some r →
  r ∈ b :: rows ∧ ∀ x, x ∈ b :: rows → (row_updated_at x <= row_updated_at r)%nat.
Proof.
  revert b. induction rows as [|a rows IH]; intros b; simpl.
  - intros [= <-]. split; [apply list_elem_of_here|].
    intros x Hx. apply list_elem_of_singleton in Hx. by subst.
  - destruct (row_updated_at b <? row_updated_at a)%nat eqn:E; intros H;
      destruct (IH _ H) as [Hin Hmax].
    + apply Nat.ltb_lt in E. split.
      * by apply list_elem_of_further.
      * intros x Hx. apply elem_of_cons in Hx as [->|Hx]; [|by apply Hmax].
        pose proof (Hmax a (list_elem_of_here _ _)). lia.
    + apply Nat.ltb_ge in E. split.
      * apply elem_of_cons in Hin as [->|Hin]; [apply list_elem_of_here|].
        by do 2 apply list_elem_of_further.
      * intros x Hx. apply elem_of_cons in Hx as [->|Hx].
        -- apply Hmax, list_elem_of_here.
        -- apply elem_of_cons in Hx as [->|Hx].
           ++ pose proof (Hmax b (list_elem_of_here _ _)). lia.
           ++ by apply Hmax, list_elem_of_further.
Qed.

Lemma latest_row_some config_id rows r :
  latest_row config_id rows = Some r →
  r ∈ rows ∧ row_config_id r = config_id
  ∧ ∀ x, x ∈ rows → row_config_id x = config_id →
         (row_updated_at x <= row_updated_at r)%nat.
Proof.
  unfold latest_row.
  destruct (filter (λ r, row_config_id r = config_id) rows) as [|b l] eqn:Ef; [discriminate|].
  simpl. intros H. destruct (foldl_newer_max l b r H) as [Hin Hmax].
  rewrite <- Ef in Hin. apply list_elem_of_filter in Hin as [Hc Hin].
  split_and!; [done | done |].
  intros x Hx Hxc. apply Hmax. rewrite <- Ef. by apply list_elem_of_filter.
Qed.

Lemma latest_row_none_iff config_id rows :
  latest_row config_id rows = None ↔ ∀ x, x ∈ rows → row_config_id x ≠ config_id.
Proof.
  unfold latest_row. split.
  - intros Hnone x Hx Hc.
    destruct (filter (λ r, row_config_id r = config_id) rows) as [|b l] eqn:Ef.
    + assert (Hin : x ∈ filter (λ r, row_config_id r = config_id) rows)
        by (by apply list_elem_of_filter).
      rewrite Ef in Hin. by apply elem_of_nil in Hin.
    + simpl in Hnone. destruct (foldl_newer_some l b) as [r Hr]. congruence.
  - intros Hall.
    destruct (filter (λ r, row_config_id r = config_id) rows) as [|b l] eqn:Ef; [done|].
    assert (Hin : b ∈ filter (λ r, row_config_id r = config_id) rows)
      by (rewrite Ef; apply list_elem_of_here).
    apply list_elem_of_filter in Hin as [Hc Hin]. by destruct (Hall b Hin).
Qed.

(** X10: [get_latest_portfolio] answers [None] exactly when the
    configuration has no row; otherwise it answers a row of that
    configuration whose [updated_at] no other row of the configuration
    exceeds, and [get_latest_trading_date] answers the day of that same
    row. *)
Theorem get_latest_portfolio_is_newest db (config_id : nat) :
  (get_latest_portfolio db config_id = None
   ↔ ∀ x, x ∈ cs2_portfolio db → row_config_id x ≠ config_id)
  ∧ (get_latest_trading_date db config_id = None
     ↔ get_latest_portfolio db config_id = None)
  ∧ (∀ d, get_latest_portfolio db config_id = Some d →
       ∃ r, r ∈ cs2_portfolio db ∧ d = dict_of_row r ∧ row_config_id r = config_id
         ∧ (∀ x, x ∈ cs2_portfolio db → row_config_id x = config_id →
                 (row_updated_at x <= row_updated_at r)%nat)
         ∧ get_latest_trading_date db config_id = Some (row_trading_date r)).
Proof.
  unfold get_latest_portfolio, get_latest_trading_date. split_and!.
  - rewrite <- latest_row_none_iff.
    destruct (latest_row config_id (cs2_portfolio db)); split; done.
  - destruct (latest_row config_id (cs2_portfolio db)); split; done.
  - intros d Hd.
    destruct (latest_row config_id (cs2_portfolio db)) as [r|] eqn:E; [|discriminate].
    injection Hd as <-. destruct (latest_row_some _ _ _ E) as (Hin & Hc & Hmax).
    exists r. split_and!; done.
Qed.

Lemma get_latest_portfolio_is_newest_example :
  get_latest_portfolio Examples.db2 1 = Some (dict_of_row (mkRow 1 1 1 2 1000 1000 ∅))
  ∧ get_latest_trading_date Examples.db2 1 = Some 2
  ∧ get_latest_portfolio Examples.db2 5 = None.
Proof.
  destruct (get_latest_portfolio_is_newest Examples.db2 1) as (_ & _ & Hsome).
  destruct (get_latest_portfolio_is_newest Examples.db2 5) as (Hnone & _ & _).
  assert (H : get_latest_portfolio Examples.db2 1
              = Some (dict_of_row (mkRow 1 1 1 2 1000 1000 ∅))) by reflexivity.
  destruct (Hsome _ H) as (r & _ & Hr & _ & _ & Hdate).
  split_and!.
  - exact H.
  - rewrite Hdate. apply (f_equal d_trading_date) in Hr. simpl in Hr. by rewrite <- Hr.
  - apply Hnone. intros x Hx.
    apply elem_of_cons in Hx as [->|Hx]; [discriminate|].
    apply list_elem_of_singleton in Hx as ->. discriminate.
Defined.

Lemma store_ok_insert db (r : Row) :
  store_ok db → row_id r = next_uuid db → row_updated_at r = now db →
  insert_row r (cs2_portfolio db) = Some (cs2_portfolio db ++ [r])
  ∧ store_ok (mkDB (cs2_portfolio db ++ [r]) (S (now db)) (S (next_uuid db))).
Proof.
  intros (Hu & Hc & Hnd) Hid Hst. unfold uuid_fresh, clock_fresh in *.
  split.
  - apply insert_row_fresh. rewrite Hid. exact Hu.
  - unfold store_ok, uuid_fresh, clock_fresh; simpl. split_and!.
    + apply Forall_app. split.
      * eapply Forall_impl; [exact Hu|]. simpl. intros; lia.
      * apply Forall_singleton. lia.
    + apply Forall_app. split.
      * eapply Forall_impl; [exact Hc|]. simpl. intros; lia.
      * apply Forall_singleton. lia.
    + rewrite fmap_app. apply NoDup_app. split_and!; [done | | apply NoDup_singleton].
      intros x Hx Hx'. simpl in Hx'. apply list_elem_of_singleton in Hx'. subst x.
      apply list_elem_of_fmap in Hx as (r' & Hr' & Hin).
      rewrite Forall_forall in Hu. specialize (Hu _ Hin). lia.
Qed.

Lemma update_row_fields config_id date cash total pos stamp r :
  row_id (update_row config_id date cash total pos stamp r) = row_id r
  ∧ row_config_id (update_row config_id date cash total pos stamp r) = row_config_id r
  ∧ row_trading_date (update_row config_id date cash total pos stamp r) = row_trading_date r.
Proof. unfold update_row. by destruct (matches config_id date r). Qed.

Lemma store_ok_update db (config_id : nat) p (date : Z) :
  store_ok db → store_ok (update_portfolio db config_id p date).2.
Proof.
  intros (Hu & Hc & Hnd). unfold update_portfolio, store_ok, uuid_fresh, clock_fresh in *; simpl.
  split_and!.
  - apply Forall_fmap. eapply Forall_impl; [exact Hu|]. intros r Hr; simpl in *.
    by rewrite (proj1 (update_row_fields _ _ _ _ _ _ r)).
  - apply Forall_fmap. eapply Forall_impl; [exact Hc|]. intros r Hr; simpl in *.
    unfold update_row. destruct (matches config_id date r); simpl; lia.
  - rewrite <- list_fmap_compose.
    erewrite list_fmap_ext; [exact Hnd|].
    intros i r _. simpl. apply update_row_fields.
Qed.

(** X11: a store whose identifiers and stamps lie below the two counters,
    with no identifier repeated, stays so under [create_portfolio],
    [copy_portfolio] and [update_portfolio]; on such a store no INSERT
    fails, so [create_portfolio] and [copy_portfolio] always return a
    portfolio. *)
Theorem store_ok_preserved db (config_id : nat) (date : Z) :
  store_ok db →
  (∀ cash, is_Some (create_portfolio db config_id cash date).1
           ∧ store_ok (create_portfolio db config_id cash date).2)
  ∧ (∀ portfolio, is_Some (copy_portfolio db config_id portfolio date).1
                  ∧ store_ok (copy_portfolio db config_id portfolio date).2)
  ∧ (∀ p, store_ok (update_portfolio db config_id p date).2).
Proof.
  intros Hok. split_and!.
  - intros cash. unfold create_portfolio; simpl.
    destruct (store_ok_insert db (mkRow (next_uuid db) config_id (now db) date cash cash ∅)
                Hok eq_refl eq_refl) as [Hins Hok'].
    rewrite Hins; simpl. split; [by eexists | exact Hok'].
  - intros portfolio.
    destruct (find (matches config_id date) (cs2_portfolio db)) as [r|] eqn:Hf.
    + rewrite (copy_portfolio_existing _ _ _ _ _ Hf); simpl. split; [by eexists | exact Hok].
    + rewrite (copy_portfolio_new _ _ _ _ Hf).
      destruct (store_ok_insert db (copied_row db config_id portfolio date)
                  Hok eq_refl eq_refl) as [Hins Hok'].
      rewrite Hins; simpl. split; [by eexists | exact Hok'].
  - intros p. by apply store_ok_update.
Qed.

Lemma store_ok_db1 : store_ok Examples.db1.
Proof.
  split_and!.
  - apply Forall_singleton. simpl. lia.
  - apply Forall_singleton. simpl. lia.
  - apply NoDup_singleton.
Qed.

Lemma store_ok_preserved_example :
  store_ok Examples.db1
  ∧ is_Some (copy_portfolio Examples.db1 1 (dict_of_row (mkRow 0 1 0 1 1000 1000 ∅)) 2).1
  ∧ store_ok (copy_portfolio Examples.db1 1 (dict_of_row (mkRow 0 1 0 1 1000 1000 ∅)) 2).2.
Proof.
  destruct (store_ok_preserved Examples.db1 1 2 store_ok_db1) as (_ & Hcopy & _).
  split; [exact store_ok_db1 | apply Hcopy].
Defined.

(** X12: [update_portfolio] answers [True] exactly when the configuration
    has a row for the day.  It never adds or removes a row and never changes
    an identifier, a configuration or a day; the rows of the pair receive the
    portfolio's cash and positions, the total cash + sum of the position
    values and the stamp of the call, every other row is left as it is. *)
Theorem update_portfolio_effect db (config_id : nat) p (date : Z) :
  let out := update_portfolio db config_id p date in
  (out.1 = true ↔ has_snapshot db config_id date)
  ∧ row_id <$> cs2_portfolio out.2 = row_id <$> cs2_portfolio db
  ∧ row_config_id <$> cs2_portfolio out.2 = row_config_id <$> cs2_portfolio db
  ∧ row_trading_date <$> cs2_portfolio out.2 = row_trading_date <$> cs2_portfolio db
  ∧ (∀ i r, cs2_portfolio db !! i = Some r →
       cs2_portfolio out.2 !! i
       = Some (if matches config_id date r
               then mkRow (row_id r) config_id (now db) date (cashflow p)
                          (cashflow p + sum_values (positions p))%Q (positions p)
               else r))
  ∧ (out.1 = false → cs2_portfolio out.2 = cs2_portfolio db).
Proof.
  intros out. unfold out, update_portfolio; simpl.
  assert (Hiff : (0 <? length (filter (λ r, matches config_id date r = true) (cs2_portfolio db)))%nat
                 = true ↔ has_snapshot db config_id date).
  { rewrite Nat.ltb_lt. unfold has_snapshot. split.
    - intros Hlen.
      destruct (filter _ (cs2_portfolio db)) as [|r l] eqn:Ef; [simpl in Hlen; lia|].
      assert (Hin : r ∈ filter (λ r, matches config_id date r = true) (cs2_portfolio db))
        by (rewrite Ef; apply list_elem_of_here).
      apply list_elem_of_filter in Hin as [Hm Hin].
      unfold matches in Hm. apply andb_true_iff in Hm as [H1 H2].
      apply Nat.eqb_eq in H1. apply Z.eqb_eq in H2. by exists r.
    - intros (r & Hin & Hc & Hd).
      assert (Hin' : r ∈ filter (λ r, matches config_id date r = true) (cs2_portfolio db)).
      { apply list_elem_of_filter. split; [|done]. subst. apply matches_refl. }
      destruct (filter _ (cs2_portfolio db)); [by apply elem_of_nil in Hin'|]. simpl. lia. }
  split_and!.
  - exact Hiff.
  - rewrite <- list_fmap_compose. apply list_fmap_ext. intros i r _; simpl.
    apply update_row_fields.
  - rewrite <- list_fmap_compose. apply list_fmap_ext. intros i r _; simpl.
    apply update_row_fields.
  - rewrite <- list_fmap_compose. apply list_fmap_ext. intros i r _; simpl.
    apply update_row_fields.
  - intros i r Hi. rewrite list_lookup_fmap, Hi; simpl. f_equal.
    unfold update_row. destruct (matches config_id date r) eqn:Em; [|done].
    unfold matches in Em. apply andb_true_iff in Em as [H1 H2].
    apply Nat.eqb_eq in H1. apply Z.eqb_eq in H2. by rewrite H1, H2.
  - intros Hfalse. apply not_true_iff_false in Hfalse.
    rewrite <- (list_fmap_id (cs2_portfolio db)) at 2.
    apply list_fmap_ext. intros i r Hi; simpl.
    unfold update_row. destruct (matches config_id date r) eqn:Em; [|done].
    exfalso. apply Hfalse, Hiff.
    unfold matches in Em. apply andb_true_iff in Em as [H1 H2].
    apply Nat.eqb_eq in H1. apply Z.eqb_eq in H2.
    exists r. split_and!; [|done|done]. by eapply list_elem_of_lookup_2.
Qed.

Lemma update_portfolio_effect_example :
  (update_portfolio Examples.db2 1 Examples.pfB 2).1 = true
  ∧ (update_portfolio Examples.db2 1 Examples.pfB 7).1 = false
  ∧ cs2_portfolio (update_portfolio Examples.db2 1 Examples.pfB 7).2 = cs2_portfolio Examples.db2
  ∧ row_cashflow <$> cs2_portfolio (update_portfolio Examples.db2 1 Examples.pfB 2).2
    = [1000%Q; 0%Q].
Proof.
  destruct (update_portfolio_effect Examples.db2 1 Examples.pfB 7) as (_ & _ & _ & _ & _ & Hno).
  destruct (update_portfolio_effect Examples.db2 1 Examples.pfB 2) as (Hyes & _).
  split_and!.
  - apply Hyes. exists (mkRow 1 1 1 2 1000 1000 ∅).
    split_and!; [|reflexivity|reflexivity].
    apply list_elem_of_further, list_elem_of_here.
  - reflexivity.
  - apply Hno. reflexivity.
  - reflexivity.
Defined.

Lemma latest_after_update db (config_id : nat) p (date : Z) :
  clock_fresh db → has_snapshot db config_id date →
  let db' := (update_portfolio db config_id p date).2 in
  ∃ d, get_latest_portfolio db' config_id = Some d
     ∧ (d_config_id d, d_trading_date d) = (config_id, date)
     ∧ (d_cashflow d, d_positions d) = (cashflow p, positions p)
     ∧ d_total_assets d = (cashflow p + sum_values (positions p))%Q
     ∧ d_updated_at d = Some (now db)
     ∧ get_latest_trading_date db' config_id = Some date.
Proof.
  intros Hclock (r0 & Hin0 & Hc0 & Hd0) db'.
  set (upd := update_row config_id date (cashflow p)
                (cashflow p + sum_values (positions p))%Q (positions p) (now db)).
  assert (Hrows : cs2_portfolio db' = upd <$> cs2_portfolio db) by reflexivity.
  assert (Hin0' : upd r0 ∈ cs2_portfolio db').
  { rewrite Hrows. apply list_elem_of_fmap. by exists r0. }
  assert (Hm0 : matches config_id date r0 = true) by (subst; apply matches_refl).
  assert (Hupd0 : row_updated_at (upd r0) = now db ∧ row_config_id (upd r0) = config_id).
  { unfold upd, update_row. rewrite Hm0; simpl. by subst. }
  destruct (latest_row config_id (cs2_portfolio db')) as [r|] eqn:El.
  - destruct (latest_row_some _ _ _ El) as (Hin & Hc & Hmax).
    pose proof (Hmax _ Hin0' (proj2 Hupd0)) as Hge. rewrite (proj1 Hupd0) in Hge.
    rewrite Hrows in Hin. apply list_elem_of_fmap in Hin as (x & -> & Hx).
    unfold clock_fresh in Hclock. rewrite Forall_forall in Hclock. specialize (Hclock _ Hx).
    destruct (matches config_id date x) eqn:Em.
    + assert (Hux : upd x = mkRow (row_id x) config_id (now db) date (cashflow p)
                      (cashflow p + sum_values (positions p))%Q (positions p)).
      { unfold upd, update_row. rewrite Em.
        unfold matches in Em. apply andb_true_iff in Em as [H1 H2].
        apply Nat.eqb_eq in H1. apply Z.eqb_eq in H2. by rewrite H1, H2. }
      exists (dict_of_row (upd x)).
      unfold get_latest_portfolio, get_latest_trading_date. rewrite El, Hux. simpl.
      split_and!; reflexivity.
    + exfalso. unfold upd, update_row in Hge. rewrite Em in Hge. lia.
  - exfalso. apply latest_row_none_iff with (x := upd r0) in El; [|done].
    by destruct Hupd0.
Qed.

(** X13: on a store whose stamps lie before the clock, a successful
    [update_portfolio] is what [get_latest_portfolio] reads back next: the
    portfolio's cash and positions, the total cash + sum of the position
    values, under the day of the update, which is then also the latest
    trading date of the configuration. *)
Theorem update_then_latest db (config_id : nat) p (date : Z) :
  clock_fresh db → has_snapshot db config_id date →
  let db' := (update_portfolio db config_id p date).2 in
  ∃ d, get_latest_portfolio db' config_id = Some d
     ∧ (d_config_id d, d_trading_date d) = (config_id, date)
     ∧ (d_cashflow d, d_positions d) = (cashflow p, positions p)
     ∧ d_total_assets d = (cashflow p + sum_values (positions p))%Q
     ∧ d_updated_at d = Some (now db)
     ∧ get_latest_trading_date db' config_id = Some date.
Proof. apply latest_after_update. Qed.

Lemma update_then_latest_example :
  clock_fresh Examples.db2 ∧ has_snapshot Examples.db2 1 2
  ∧ (d_cashflow <$> get_latest_portfolio (update_portfolio Examples.db2 1 Examples.pfB 2).2 1)
    = Some (cashflow Examples.pfB)
  ∧ get_latest_trading_date (update_portfolio Examples.db2 1 Examples.pfB 2).2 1 = Some 2.
Proof.
  assert (H1 : clock_fresh Examples.db2).
  { apply Forall_cons. split; [simpl; lia|]. apply Forall_singleton. simpl. lia. }
  assert (H2 : has_snapshot Examples.db2 1 2).
  { exists (mkRow 1 1 1 2 1000 1000 ∅). split_and!; [|reflexivity|reflexivity].
    apply list_elem_of_further, list_elem_of_here. }
  destruct (update_then_latest Examples.db2 1 Examples.pfB 2 H1 H2)
    as (d & Hd & _ & Hcash & _ & _ & Hdate).
  split_and!; [exact H1 | exact H2 | | exact Hdate].
  rewrite Hd; simpl. by injection Hcash as -> _.
Defined.

Lemma find_by_id_unique (rows : list Row) r :
  NoDup (row_id <$> rows) → r ∈ rows →
  find (λ r', (row_id r' =? row_id r)%nat) rows = Some r.
Proof.
  induction rows as [|a rows IH]; intros Hnd Hin; [by apply elem_of_nil in Hin|].
  rewrite fmap_cons in Hnd. apply NoDup_cons in Hnd as [Hnotin Hnd]. simpl.
  destruct (row_id a =? row_id r)%nat eqn:E.
  - apply Nat.eqb_eq in E. apply elem_of_cons in Hin as [->|Hin]; [done|].
    exfalso. apply Hnotin. rewrite E. apply list_elem_of_fmap. by exists r.
  - apply elem_of_cons in Hin as [->|Hin]; [by rewrite Nat.eqb_refl in E|].
    by apply IH.
Qed.

Lemma find_by_id_absent (rows : list Row) (i : nat) :
  Forall (λ r, (row_id r < i)%nat) rows → find (λ r', (row_id r' =? i)%nat) rows = None.
Proof.
  induction 1 as [|a rows Ha _ IH]; [done|]. simpl.
  replace (row_id a =? i)%nat with false; [done|].
  symmetry. apply Nat.eqb_neq. lia.
Qed.

(** X14: on a store with fresh counters and distinct identifiers, the
    portfolio [copy_portfolio] returns is stored under its id:
    [get_portfolio] reads it back with the same configuration, day, cash,
    total and positions.  When the day had no row, the copy carries the cash
    and the positions of the portfolio handed over, with the total
    recomputed, under the new day and under an id that no portfolio had
    before. *)
Theorem copy_portfolio_reads_back db (config_id : nat) (portfolio : PortfolioDict) (date : Z) :
  store_ok db →
  ∃ d db' d', copy_portfolio db config_id portfolio date = (Some d, db')
    ∧ get_portfolio db' (d_id d) = Some d'
    ∧ (d_id d', d_config_id d', d_trading_date d') = (d_id d, config_id, date)
    ∧ (d_config_id d, d_trading_date d) = (config_id, date)
    ∧ (d_cashflow d', d_total_assets d', d_positions d')
      = (d_cashflow d, d_total_assets d, d_positions d)
    ∧ (¬ has_snapshot db config_id date →
         (d_cashflow d, d_positions d) = (d_cashflow portfolio, d_positions portfolio)
         ∧ d_total_assets d = (d_cashflow portfolio + sum_values (d_positions portfolio))%Q
         ∧ get_portfolio db (d_id d) = None).
Proof.
  intros (Hu & Hc & Hnd).
  destruct (find (matches config_id date) (cs2_portfolio db)) as [r|] eqn:Hf.
  - destruct (find_matches _ _ _ _ Hf) as (Hin & Hcfg & Hdate).
    exists (dict_of_row r), db, (dict_of_row r).
    rewrite (copy_portfolio_existing _ _ _ _ _ Hf). unfold get_portfolio; simpl.
    rewrite (find_by_id_unique _ r Hnd Hin); simpl. rewrite Hcfg, Hdate.
    split_and!; try reflexivity.
    intros Hno. exfalso. apply Hno. by exists r.
  - rewrite (copy_portfolio_new _ _ _ _ Hf).
    rewrite (insert_row_fresh (copied_row db config_id portfolio date)) by exact Hu.
    eexists _, _, (dict_of_row (copied_row db config_id portfolio date)).
    split; [reflexivity|]. unfold get_portfolio; simpl.
    assert (Hfind : find (λ r, (row_id r =? next_uuid db)%nat)
                      (cs2_portfolio db ++ [copied_row db config_id portfolio date])
                    = Some (copied_row db config_id portfolio date)).
    { apply find_snoc; [by apply find_by_id_absent | simpl; apply Nat.eqb_refl]. }
    rewrite Hfind; simpl. split_and!; try reflexivity.
    intros _. split_and!; try reflexivity.
    by rewrite find_by_id_absent.
Qed.

Lemma copy_portfolio_reads_back_example :
  store_ok Examples.db1
  ∧ (d_id <$> (copy_portfolio Examples.db1 1 (dict_of_row (mkRow 0 1 0 1 1000 1000 ∅)) 2).1)
    = Some 1%nat
  ∧ (d_cashflow <$> get_portfolio Examples.db2 1) = Some 1000%Q
  ∧ get_portfolio Examples.db1 1 = None.
Proof.
  destruct (copy_portfolio_reads_back Examples.db1 1
              (dict_of_row (mkRow 0 1 0 1 1000 1000 ∅)) 2 store_ok_db1)
    as (d & db' & d' & Hcopy & _).
  split_and!; [exact store_ok_db1 | | reflexivity | reflexivity].
  rewrite Hcopy; simpl.
  assert (H : (copy_portfolio Examples.db1 1 (dict_of_row (mkRow 0 1 0 1 1000 1000 ∅)) 2).1
              = Some (mkDict 1 1 None 2 1000 (1000 + sum_values ∅) ∅)) by reflexivity.
  rewrite Hcopy in H. simpl in H. by injection H as ->.
Defined.

End StoreExtras.

(** * More on the trading-date driver *)

Section DriverStructure.

Variable env : Env.

Implicit Types (db : DB) (wf : AgentWorkflow) (cfg : Config) (r : Row).

(** The constructor leaves the table as it is or appends one row for the
    run's day, which then had none. *)
Lemma new_workflow_rows db cfg (config_id : nat) :
  let out := new_workflow env db cfg config_id in
  cs2_portfolio out.2 = cs2_portfolio db
  ∨ (find (matches config_id (cfg_trading_date cfg)) (cs2_portfolio db) = None
     ∧ ∃ r, cs2_portfolio out.2 = cs2_portfolio db ++ [r]
          ∧ row_config_id r = config_id ∧ row_trading_date r = cfg_trading_date cfg
          ∧ row_updated_at r = now db).
Proof.
  unfold new_workflow.
  destruct (get_latest_portfolio db config_id) as [pd|] eqn:Hl.
  - destruct (find (matches config_id (cfg_trading_date cfg)) (cs2_portfolio db))
      as [r|] eqn:Hf.
    + rewrite (copy_portfolio_existing _ _ _ _ _ Hf). by left.
    + rewrite (copy_portfolio_new _ _ _ _ Hf).
      destruct (insert_row _ _) as [rows|] eqn:Hins; simpl; [|by left].
      apply insert_row_some in Hins. subst rows. right. split; [done|].
      by exists (copied_row db config_id pd (cfg_trading_date cfg)).
  - assert (Hf : find (matches config_id (cfg_trading_date cfg)) (cs2_portfolio db) = None).
    { apply latest_row_none. unfold get_latest_portfolio in Hl.
      by destruct (latest_row config_id (cs2_portfolio db)). }
    unfold create_portfolio; simpl.
    destruct (insert_row _ _) as [rows|] eqn:Hins; simpl; [|by left].
    apply insert_row_some in Hins. subst rows.
    set (created := mkRow (next_uuid db) config_id (now db) (cfg_trading_date cfg)
                          (cfg_cashflow cfg) (cfg_cashflow cfg) ∅).
    assert (Hf' : find (matches config_id (cfg_trading_date cfg))
                    (cs2_portfolio db ++ [created]) = Some created).
    { apply find_snoc; [done | apply (matches_refl created)]. }
    rewrite (copy_portfolio_existing (mkDB _ _ _) _ _ _ _ Hf'); simpl.
    right. split; [done|]. by exists created.
Qed.

(** On a well-formed store the constructor returns, and leaves a
    well-formed store. *)
Lemma new_workflow_on_ok_store db cfg (config_id : nat) :
  store_ok db →
  ∃ wf db', new_workflow env db cfg config_id = (Returns wf, db') ∧ store_ok db'.
Proof.
  intros Hok. unfold new_workflow.
  destruct (get_latest_portfolio db config_id) as [pd|] eqn:Hl.
  - destruct (find (matches config_id (cfg_trading_date cfg)) (cs2_portfolio db))
      as [r|] eqn:Hf.
    + rewrite (copy_portfolio_existing _ _ _ _ _ Hf). by eexists _, _.
    + rewrite (copy_portfolio_new _ _ _ _ Hf).
      destruct (store_ok_insert db (copied_row db config_id pd (cfg_trading_date cfg))
                  Hok eq_refl eq_refl) as [Hins Hok'].
      rewrite Hins. by eexists _, _.
  - unfold create_portfolio; simpl.
    set (created := mkRow (next_uuid db) config_id (now db) (cfg_trading_date cfg)
                          (cfg_cashflow cfg) (cfg_cashflow cfg) ∅).
    destruct (store_ok_insert db created Hok eq_refl eq_refl) as [Hins Hok'].
    rewrite Hins.
    assert (Hf : find (matches config_id (cfg_trading_date cfg)) (cs2_portfolio db) = None).
    { apply latest_row_none. unfold get_latest_portfolio in Hl.
      by destruct (latest_row config_id (cs2_portfolio db)). }
    assert (Hf' : find (matches config_id (cfg_trading_date cfg))
                    (cs2_portfolio db ++ [created]) = Some created).
    { apply find_snoc; [done | apply (matches_refl created)]. }
    rewrite (copy_portfolio_existing (mkDB _ _ _) _ _ _ _ Hf'). by eexists _, _.
Qed.

(** [run] leaves the store as it is or applies one [update_portfolio]. *)
Lemma run_store wf db (config_id : nat) :
  (run env wf db config_id).2 = db
  ∨ ∃ final, run_tickers env db wf (init_portfolio wf) (wf_tickers wf) = Returns final
           ∧ (run env wf db config_id).2
             = (update_portfolio db config_id final (wf_trading_date wf)).2.
Proof.
  unfold run.
  destruct (run_tickers env db wf (init_portfolio wf) (wf_tickers wf)) as [final|e];
    [|by left].
  right. exists final. split; [done|].
  by destruct (update_portfolio db config_id final (wf_trading_date wf)) as [[] db'].
Qed.

Lemma count_snoc (c : nat) (d : Z) (rows : list Row) r :
  length (filter (λ x, matches c d x = true) (rows ++ [r]))
  = (length (filter (λ x, matches c d x = true) rows)
     + if matches c d r then 1 else 0)%nat.
Proof.
  rewrite filter_app, length_app. f_equal.
  destruct (matches c d r) eqn:E.
  - by rewrite filter_cons_True.
  - rewrite filter_cons_False; [done|]. by rewrite E.
Qed.

Lemma count_update (c : nat) (d : Z) (rows : list Row) config_id date cash total pos stamp :
  length (filter (λ x, matches c d x = true)
            (update_row config_id date cash total pos stamp <$> rows))
  = length (filter (λ x, matches c d x = true) rows).
Proof.
  induction rows as [|a rows IH]; [done|]. rewrite fmap_cons.
  assert (Hm : matches c d (update_row config_id date cash total pos stamp a) = matches c d a).
  { unfold matches.
    destruct (update_row_fields config_id date cash total pos stamp a) as (_ & -> & ->).
    done. }
  rewrite !filter_cons, Hm.
  destruct (decide (matches c d a = true)); simpl; by rewrite IH.
Qed.

Lemma matches_true_iff (c : nat) (d : Z) r :
  matches c d r = true ↔ row_config_id r = c ∧ row_trading_date r = d.
Proof.
  unfold matches. rewrite andb_true_iff, Nat.eqb_eq, Z.eqb_eq. done.
Qed.

End DriverStructure.

Section DriverInvariants.

Variable env : Env.

Implicit Types (db : DB) (wf : AgentWorkflow) (cfg : Config) (r : Row).

Lemma one_snapshot_snoc db db' (c : nat) (d : Z) r :
  one_snapshot_per_day db →
  find (matches c d) (cs2_portfolio db) = None →
  row_config_id r = c → row_trading_date r = d →
  cs2_portfolio db' = cs2_portfolio db ++ [r] →
  one_snapshot_per_day db'.
Proof.
  intros Hosp Hf Hc Hd Hrows c' d'. unfold snapshots. rewrite Hrows, count_snoc.
  destruct (matches c' d' r) eqn:Em.
  - apply matches_true_iff in Em as [<- <-]. rewrite Hc, Hd.
    by rewrite (find_none_filter _ _ _ Hf).
  - specialize (Hosp c' d'). unfold snapshots in Hosp. lia.
Qed.

Lemma one_snapshot_update db (config_id : nat) (p : Portfolio) (date : Z) :
  one_snapshot_per_day db →
  one_snapshot_per_day (update_portfolio db config_id p date).2.
Proof.
  intros Hosp c d. unfold snapshots, update_portfolio; simpl.
  rewrite count_update. apply Hosp.
Qed.

Lemma one_snapshot_rows db db' :
  cs2_portfolio db' = cs2_portfolio db → one_snapshot_per_day db → one_snapshot_per_day db'.
Proof. intros Hrows Hosp c d. unfold snapshots. rewrite Hrows. apply Hosp. Qed.

Lemma one_snapshot_new_workflow db cfg (config_id : nat) :
  one_snapshot_per_day db →
  one_snapshot_per_day (new_workflow env db cfg config_id).2.
Proof.
  intros Hosp.
  destruct (new_workflow_rows env db cfg config_id) as [Hsame|(Hf & r & Hrows & Hc & Hd & _)].
  - by apply (one_snapshot_rows db).
  - by apply (one_snapshot_snoc db _ config_id (cfg_trading_date cfg) r).
Qed.

Lemma one_snapshot_run wf db (config_id : nat) :
  one_snapshot_per_day db → one_snapshot_per_day (run env wf db config_id).2.
Proof.
  intros Hosp. destruct (run_store env wf db config_id) as [->|(final & _ & ->)]; [done|].
  by apply one_snapshot_update.
Qed.

(** X15: a whole run of a day, whatever its outcome, keeps the table free
    of duplicates: if no configuration had two rows for one day before, none
    has after. *)
Theorem run_keeps_one_snapshot_per_day db cfg (config_id : nat) :
  one_snapshot_per_day db →
  one_snapshot_per_day (run_single_experiment env db cfg config_id).2.
Proof.
  intros Hosp. unfold run_single_experiment.
  assert (Hwf : one_snapshot_per_day (run_workflow env db cfg config_id).2).
  { unfold run_workflow.
    pose proof (one_snapshot_new_workflow db cfg config_id Hosp) as Hnew.
    destruct (new_workflow env db cfg config_id) as [[app|e] db1]; simpl in Hnew.
    - by apply one_snapshot_run.
    - done. }
  destruct (get_latest_trading_date db config_id) as [latest|]; [|done].
  by destruct (cfg_trading_date cfg <? latest).
Qed.

Lemma none_after_rows (config_id : nat) (day : Z) db db' :
  none_after config_id day db →
  (∀ r', r' ∈ cs2_portfolio db' →
     (∃ r, r ∈ cs2_portfolio db ∧ row_config_id r' = row_config_id r
           ∧ row_trading_date r' = row_trading_date r)
     ∨ row_trading_date r' <= day) →
  none_after config_id day db'.
Proof.
  intros Hna Hrows r' Hin Hc.
  destruct (Hrows r' Hin) as [(r & Hr & Hcr & Hdr)|Hle]; [|done].
  rewrite Hdr. apply Hna; [done|]. by rewrite <- Hcr.
Qed.

Lemma none_after_run_single db cfg (config_id : nat) :
  none_after config_id (cfg_trading_date cfg) db →
  none_after config_id (cfg_trading_date cfg) (run_single_experiment env db cfg config_id).2.
Proof.
  intros Hna.
  assert (Hnew : none_after config_id (cfg_trading_date cfg) (new_workflow env db cfg config_id).2).
  { destruct (new_workflow_rows env db cfg config_id) as [Hsame|(_ & r & Hrows & _ & Hd & _)].
    - apply (none_after_rows _ _ db); [done|]. rewrite Hsame. intros r' Hr'. left. by exists r'.
    - apply (none_after_rows _ _ db); [done|]. rewrite Hrows. intros r' Hr'.
      apply elem_of_app in Hr' as [Hr'|Hr'].
      + left. by exists r'.
      + apply list_elem_of_singleton in Hr' as ->. right. lia. }
  assert (Hwf : none_after config_id (cfg_trading_date cfg) (run_workflow env db cfg config_id).2).
  { unfold run_workflow.
    destruct (new_workflow env db cfg config_id) as [[app|e] db1]; simpl in Hnew; [|done].
    destruct (run_store env app db1 config_id) as [->|(final & _ & ->)]; [done|].
    apply (none_after_rows _ _ db1); [done|].
    unfold update_portfolio; simpl. intros r' Hr'.
    apply list_elem_of_fmap in Hr' as (r & -> & Hr). left. exists r.
    destruct (update_row_fields config_id (wf_trading_date app) (cashflow final)
                (cashflow final + sum_values (positions final))%Q (positions final)
                (now db1) r) as (_ & -> & ->).
    done. }
  unfold run_single_experiment.
  destruct (get_latest_trading_date db config_id) as [latest|]; [|done].
  by destruct (cfg_trading_date cfg <? latest).
Qed.

Lemma none_after_passes_check db cfg (config_id : nat) :
  none_after config_id (cfg_trading_date cfg) db →
  run_single_experiment env db cfg config_id = run_workflow env db cfg config_id.
Proof.
  intros Hna. unfold run_single_experiment, get_latest_trading_date.
  destruct (latest_row config_id (cs2_portfolio db)) as [r|] eqn:El; [|done]. simpl.
  destruct (latest_row_some _ _ _ El) as (Hin & Hc & _).
  specialize (Hna r Hin Hc).
  by rewrite (proj2 (Z.ltb_ge _ _) Hna).
Qed.

Lemma run_dates_from (config_for : Z → Config) (config_id : nat) (n : nat) :
  (∀ d, cfg_trading_date (config_for d) = d) →
  ∀ (start : Z) db,
    none_after config_id start db →
    let out := run_dates env config_for config_id db (days_from start n) in
    (∀ d o, (d, o) ∈ out.1 → o ≠ Raises (RuntimeError NotChronological))
    ∧ out.1.*1 `prefix_of` days_from start n
    ∧ (∀ d e, (d, Raises e) ∈ out.1 → last out.1 = Some (d, Raises e)).
Proof.
  intros Hcfg. induction n as [|n IH]; intros start db Hna; simpl.
  - split_and!; [by intros d o H%elem_of_nil | done | by intros d e H%elem_of_nil].
  - pose proof Hna as Hna'. rewrite <- (Hcfg start) in Hna'.
    pose proof (none_after_run_single db (config_for start) config_id Hna') as Hafter.
    pose proof (run_workflow_not_chronological env db (config_for start) config_id) as Hnc.
    rewrite <- (none_after_passes_check db (config_for start) config_id Hna') in Hnc.
    destruct (run_single_experiment env db (config_for start) config_id) as [[v|e] db1];
      simpl in *.
    + assert (Hna1 : none_after config_id (start + 1) db1).
      { intros r Hr Hc. specialize (Hafter r Hr Hc). rewrite Hcfg in Hafter. lia. }
      destruct (IH (start + 1) db1 Hna1) as (H1 & H2 & H3).
      destruct (run_dates env config_for config_id db1 (days_from (start + 1) n))
        as [log db2]; simpl in *.
      split_and!.
      * intros d o Hin. apply elem_of_cons in Hin as [[= -> ->]|Hin]; [discriminate|].
        by apply (H1 d).
      * by apply prefix_cons.
      * intros d e Hin. apply elem_of_cons in Hin as [[=]|Hin].
        specialize (H3 d e Hin). destruct log; [by apply elem_of_nil in Hin|].
        exact H3.
    + split_and!.
      * intros d o Hin. apply list_elem_of_singleton in Hin as [= -> ->]. exact Hnc.
      * apply prefix_cons, prefix_nil.
      * intros d e' Hin. by apply list_elem_of_singleton in Hin as [= -> ->].
Qed.

(** X16: a batch over consecutive days, started on a store in which the
    configuration has no row dated after the first day, never trips the
    chronological check: no day of the batch ends in the ordering error.
    The days run are an initial segment of the range, in order, and a day
    that raises is the last one run. *)
Theorem batch_never_out_of_order (config_for : Z → Config) (config_id : nat)
    (start_date end_date : Z) db :
  (∀ d, cfg_trading_date (config_for d) = d) →
  none_after config_id start_date db →
  let out := run_dates env config_for config_id db (date_range start_date end_date) in
  (∀ d o, (d, o) ∈ out.1 → o ≠ Raises (RuntimeError NotChronological))
  ∧ out.1.*1 `prefix_of` date_range start_date end_date
  ∧ (∀ d e, (d, Raises e) ∈ out.1 → last out.1 = Some (d, Raises e)).
Proof. intros Hcfg Hna. by apply run_dates_from. Qed.

End DriverInvariants.

Section DriverInvariantWitnesses.

Lemma one_snapshot_db1 : one_snapshot_per_day Examples.db1.
Proof.
  intros c d. unfold snapshots; simpl. rewrite filter_cons.
  destruct (decide _); simpl; lia.
Qed.

Lemma run_keeps_one_snapshot_example :
  one_snapshot_per_day Examples.db1
  ∧ one_snapshot_per_day
      (run_single_experiment Examples.env_ak_only Examples.db1 Examples.cfg_two 1).2
  ∧ length (snapshots
      (run_single_experiment Examples.env_ak_only
         (run_single_experiment Examples.env_ak_only Examples.db1 Examples.cfg_two 1).2
         Examples.cfg_two 1).2 1 2) = 1%nat.
Proof.
  split_and!; [exact one_snapshot_db1 | | reflexivity].
  exact (run_keeps_one_snapshot_per_day Examples.env_ak_only Examples.db1 Examples.cfg_two 1
           one_snapshot_db1).
Defined.

Lemma batch_never_out_of_order_example :
  let out := run_dates Examples.env_buy BatchExamples.config_for 1 Examples.db1
               (date_range 1 3) in
  (∀ d, cfg_trading_date (BatchExamples.config_for d) = d)
  ∧ none_after 1 1 Examples.db1
  ∧ out.1 = [(1, Returns ()); (2, Returns ()); (3, Returns ())]
  ∧ (∀ d o, (d, o) ∈ out.1 → o ≠ Raises (RuntimeError NotChronological)).
Proof.
  intros out.
  assert (H1 : ∀ d, cfg_trading_date (BatchExamples.config_for d) = d) by reflexivity.
  assert (H2 : none_after 1 1 Examples.db1).
  { intros r Hr _. apply list_elem_of_singleton in Hr as ->. simpl. lia. }
  split_and!; [exact H1 | exact H2 | reflexivity |].
  exact (proj1 (batch_never_out_of_order Examples.env_buy BatchExamples.config_for 1 1 3
                  Examples.db1 H1 H2)).
Defined.

End DriverInvariantWitnesses.

Section DriverAcrossDays.

Variable env : Env.

Implicit Types (db : DB) (wf : AgentWorkflow) (cfg : Config) (r : Row).

Lemma latest_of_newest_snoc db db' (config_id : nat) r :
  clock_fresh db → cs2_portfolio db' = cs2_portfolio db ++ [r] →
  row_config_id r = config_id → row_updated_at r = now db →
  latest_row config_id (cs2_portfolio db') = Some r.
Proof.
  intros Hclock Hrows Hc Hst.
  assert (Hin : r ∈ cs2_portfolio db')
    by (rewrite Hrows; apply elem_of_app; right; apply list_elem_of_here).
  destruct (latest_row config_id (cs2_portfolio db')) as [r'|] eqn:El.
  - destruct (latest_row_some _ _ _ El) as (Hin' & _ & Hmax).
    specialize (Hmax r Hin Hc). rewrite Hrows in Hin'.
    apply elem_of_app in Hin' as [Hold|Hnew].
    + unfold clock_fresh in Hclock. rewrite Forall_forall in Hclock.
      specialize (Hclock _ Hold). lia.
    + apply list_elem_of_singleton in Hnew. by subst.
  - exfalso. by apply latest_row_none_iff with (x := r) in El.
Qed.

Lemma run_tickers_pf_id db wf (p final : Portfolio) (ts : list string) :
  run_tickers env db wf p ts = Returns final → pf_id final = pf_id p.
Proof.
  revert p. induction ts as [|t ts IH]; intros p; simpl; [by intros [= <-]|].
  destruct (load_analysts env wf t); [|discriminate].
  destruct (workflow_invoke env db t v p) as [d|]; [|discriminate].
  intros H. rewrite (IH _ H). by rewrite update_portfolio_ticker_eq.
Qed.

Lemma find_some_has_snapshot db (config_id : nat) (date : Z) r :
  find (matches config_id date) (cs2_portfolio db) = Some r → has_snapshot db config_id date.
Proof. intros H. destruct (find_matches _ _ _ _ H) as (? & ? & ?). by exists r. Qed.

Lemma no_snapshot_find_none db (config_id : nat) (date : Z) :
  ¬ has_snapshot db config_id date → find (matches config_id date) (cs2_portfolio db) = None.
Proof.
  intros Hno. destruct (find _ _) as [r|] eqn:E; [|done].
  by apply find_some_has_snapshot in E.
Qed.

(** The chronological check of [run_single_experiment] lets the run through
    when the latest trading date, if there is one, is not after the day. *)
Lemma passes_check db cfg (config_id : nat) :
  (∀ latest, get_latest_trading_date db config_id = Some latest →
             latest <= cfg_trading_date cfg) →
  run_single_experiment env db cfg config_id = run_workflow env db cfg config_id.
Proof.
  intros Hcheck. unfold run_single_experiment.
  destruct (get_latest_trading_date db config_id) as [latest|]; [|done].
  by rewrite (proj2 (Z.ltb_ge _ _) (Hcheck latest eq_refl)).
Qed.

(** X17: on a well-formed store, a run that passes the chronological check
    (the latest trading date of the configuration, if any, is not after the
    day) and either returns or is the first run of its day leaves that day as
    the configuration's latest trading date, even when it has aborted; from
    then on every run for an earlier day is refused with the ordering error,
    with the store untouched. *)
Theorem run_advances_latest_date db cfg (config_id : nat) :
  store_ok db →
  (∀ latest, get_latest_trading_date db config_id = Some latest →
             latest <= cfg_trading_date cfg) →
  let out := run_single_experiment env db cfg config_id in
  out.1 = Returns () ∨ ¬ has_snapshot db config_id (cfg_trading_date cfg) →
  store_ok out.2
  ∧ get_latest_trading_date out.2 config_id = Some (cfg_trading_date cfg)
  ∧ (∀ (env' : Env) cfg', cfg_trading_date cfg' < cfg_trading_date cfg →
       run_single_experiment env' out.2 cfg' config_id
       = (Raises (RuntimeError NotChronological), out.2)).
Proof.
  intros Hok Hna out Hcase.
  assert (Hgoal : store_ok out.2
                  ∧ get_latest_trading_date out.2 config_id = Some (cfg_trading_date cfg)).
  { unfold out in *. rewrite (passes_check db cfg config_id Hna) in *.
    destruct (new_workflow_on_ok_store env db cfg config_id Hok) as (wf & db' & Hnew & Hok').
    pose proof (new_workflow_rows env db cfg config_id) as Hrows. rewrite Hnew in Hrows.
    simpl in Hrows.
    destruct (new_workflow_returns env _ _ _ _ _ Hnew)
      as (Hts & Hdate & _ & _ & _ & r & Hr & _ & _).
    unfold run_workflow in *. rewrite Hnew in *. unfold run in *.
    destruct (run_tickers env db' wf (init_portfolio wf) (wf_tickers wf)) as [final|e].
    - pose proof (update_portfolio_succeeds db' config_id final (wf_trading_date wf) r) as Hsucc.
      rewrite Hdate in Hsucc. specialize (Hsucc Hr).
      pose proof (store_ok_update db' config_id final (wf_trading_date wf) Hok') as Hok1.
      destruct (latest_after_update db' config_id final (cfg_trading_date cfg))
        as (d & _ & _ & _ & _ & _ & Hlatest).
      { by destruct Hok' as (_ & ? & _). }
      { by apply find_some_has_snapshot in Hr. }
      rewrite Hdate in *.
      destruct (update_portfolio db' config_id final (cfg_trading_date cfg)) as [success db1].
      simpl in *. rewrite Hsucc. simpl. done.
    - simpl in *. destruct Hcase as [Hret|Hno]; [discriminate|].
      split; [done|].
      destruct Hrows as [Hsame|(_ & r' & Hrows & Hc & Hd & Hst)].
      + exfalso. apply Hno. apply (find_some_has_snapshot _ _ _ r).
        by rewrite <- Hsame.
      + unfold get_latest_trading_date.
        rewrite (latest_of_newest_snoc db db' config_id r'); try done.
        * simpl. by rewrite Hd.
        * by destruct Hok as (_ & ? & _). }
  destruct Hgoal as [Hok1 Hlatest]. split_and!; [done | done |].
  intros env' cfg' Hlt. unfold run_single_experiment. rewrite Hlatest.
  by rewrite (proj2 (Z.ltb_lt _ _) Hlt).
Qed.

(** X18: the next day starts from the ledger the day before has written.
    On a well-formed store, after a run whose every ticker went through, the
    workflow constructed for a day that has no row yet holds the cash and the
    positions of the final portfolio of that run, with the total cash + sum
    of the position values, under the new day and a new portfolio id. *)
Theorem next_day_starts_from_final_ledger (env' : Env) db cfg cfg' (config_id : nat)
    wf db' (final : Portfolio) :
  store_ok db →
  new_workflow env db cfg config_id = (Returns wf, db') →
  run_tickers env db' wf (init_portfolio wf) (tickers cfg) = Returns final →
  let db1 := (run_workflow env db cfg config_id).2 in
  ¬ has_snapshot db1 config_id (cfg_trading_date cfg') →
  (run_workflow env db cfg config_id).1 = Returns ()
  ∧ ∃ wf' db2, new_workflow env' db1 cfg' config_id = (Returns wf', db2)
      ∧ (cashflow (init_portfolio wf'), positions (init_portfolio wf'))
        = (cashflow final, positions final)
      ∧ total_assets (init_portfolio wf') = (cashflow final + sum_values (positions final))%Q
      ∧ (Schema.config_id (init_portfolio wf'), trading_date (init_portfolio wf'))
        = (config_id, cfg_trading_date cfg')
      ∧ pf_id (init_portfolio wf') ≠ pf_id final.
Proof.
  intros Hok Hnew Hfinal db1 Hno.
  destruct (new_workflow_on_ok_store env db cfg config_id Hok) as (wf0 & db0 & Hnew0 & Hok').
  rewrite Hnew in Hnew0. injection Hnew0 as <- <-.
  destruct (new_workflow_returns env _ _ _ _ _ Hnew)
    as (Hts & Hdate & _ & _ & _ & r & Hr & Hinit & _).
  pose proof (update_portfolio_succeeds db' config_id final (cfg_trading_date cfg) r Hr) as Hsucc.
  assert (Hrun : run_workflow env db cfg config_id
                 = (Returns (), (update_portfolio db' config_id final (cfg_trading_date cfg)).2)).
  { unfold run_workflow, run. rewrite Hnew, Hts, Hfinal, Hdate.
    destruct (update_portfolio db' config_id final (cfg_trading_date cfg)) as [s dbu].
    simpl in *. by rewrite Hsucc. }
  unfold db1 in *. clear db1. rewrite Hrun in *. cbn [fst snd] in *. split; [done|].
  set (dbu := (update_portfolio db' config_id final (cfg_trading_date cfg)).2) in *.
  assert (Hoku : store_ok dbu) by (by apply store_ok_update).
  destruct (latest_after_update db' config_id final (cfg_trading_date cfg))
    as (d & Hlatest & _ & Hcp & Htot & _ & _).
  { by destruct Hok' as (_ & ? & _). }
  { by apply find_some_has_snapshot in Hr. }
  fold dbu in Hlatest.
  pose proof (no_snapshot_find_none _ _ _ Hno) as Hfnone.
  unfold new_workflow. rewrite Hlatest.
  rewrite (copy_portfolio_new _ _ _ _ Hfnone).
  destruct (store_ok_insert dbu (copied_row dbu config_id d (cfg_trading_date cfg'))
              Hoku eq_refl eq_refl) as [Hins _].
  rewrite Hins. eexists _, _. split; [reflexivity|]. simpl.
  injection Hcp as Hc Hp. rewrite Hc, Hp. split_and!; try reflexivity.
  rewrite (run_tickers_pf_id _ _ _ _ _ Hfinal), Hinit. simpl.
  destruct (find_matches _ _ _ _ Hr) as (Hin & _ & _).
  destruct Hok' as (Hu & _ & _). unfold uuid_fresh in Hu. rewrite Forall_forall in Hu.
  specialize (Hu _ Hin).
  assert (Hnext : next_uuid dbu = next_uuid db') by reflexivity.
 unfold copied_row; simpl. lia.
Qed.

Lemma run_tickers_outcomes db wf (p : Portfolio) (ts : list string) :
  (∃ final, run_tickers env db wf p ts = Returns final)
  ∨ (run_tickers env db wf p ts = Raises (ValueError NoAnalystsSelected)
     ∧ wf_planner_mode wf = true)
  ∨ run_tickers env db wf p ts = Raises (RuntimeError (FailedGenerate (pf_id p))).
Proof.
  revert p. induction ts as [|t ts IH]; intros p; simpl; [left; by eexists|].
  unfold load_analysts.
  destruct (wf_workflow_analysts wf) as [|a l] eqn:Ea.
  - destruct (workflow_invoke env db t [] p) as [d|]; [|by right; right].
    destruct (IH (update_portfolio_ticker p t d (wf_enable_transaction_fee wf)))
      as [H|[H|H]]; [by left | by right; left |].
    right; right. rewrite H. by rewrite update_portfolio_ticker_eq.
  - destruct (wf_planner_mode wf) eqn:Em.
    + destruct (planner_agent env t (a :: l)) as [|s sel]; [by right; left|].
      destruct (workflow_invoke env db t (s :: sel) p) as [d|]; [|by right; right].
      destruct (IH (update_portfolio_ticker p t d (wf_enable_transaction_fee wf)))
        as [H|[H|H]]; [by left | by right; left |].
      right; right. rewrite H. by rewrite update_portfolio_ticker_eq.
    + destruct (workflow_invoke env db t (a :: l) p) as [d|]; [|by right; right].
      destruct (IH (update_portfolio_ticker p t d (wf_enable_transaction_fee wf)))
        as [H|[[_ H]|H]]; [by left | discriminate |].
      right; right. rewrite H. by rewrite update_portfolio_ticker_eq.
Qed.

(** The outcomes of a run in the model, where the planner and the graph
    construction return. *)
Lemma run_outcomes_cases db cfg (config_id : nat) :
  store_ok db →
  let out := run_single_experiment env db cfg config_id in
  store_ok out.2
  ∧ (out.1 = Returns ()
     ∨ (out.1 = Raises (RuntimeError NotChronological) ∧ out.2 = db)
     ∨ (out.1 = Raises (ValueError NoAnalystsSelected) ∧ planner_mode cfg = true)
     ∨ (∃ portfolio_id, out.1 = Raises (RuntimeError (FailedGenerate portfolio_id))
          ∧ has_snapshot out.2 config_id (cfg_trading_date cfg)
          ∧ ∃ d, get_portfolio out.2 portfolio_id = Some d
               ∧ (d_config_id d, d_trading_date d) = (config_id, cfg_trading_date cfg))).
Proof.
  intros Hok out. unfold out, run_single_experiment.
  assert (Hwf : store_ok (run_workflow env db cfg config_id).2
    ∧ ((run_workflow env db cfg config_id).1 = Returns ()
       ∨ ((run_workflow env db cfg config_id).1 = Raises (ValueError NoAnalystsSelected)
          ∧ planner_mode cfg = true)
       ∨ (∃ portfolio_id,
            (run_workflow env db cfg config_id).1
            = Raises (RuntimeError (FailedGenerate portfolio_id))
            ∧ has_snapshot (run_workflow env db cfg config_id).2 config_id (cfg_trading_date cfg)
            ∧ ∃ d, get_portfolio (run_workflow env db cfg config_id).2 portfolio_id = Some d
                 ∧ (d_config_id d, d_trading_date d) = (config_id, cfg_trading_date cfg)))).
  { destruct (new_workflow_on_ok_store env db cfg config_id Hok) as (wf & db' & Hnew & Hok').
    destruct (new_workflow_returns env _ _ _ _ _ Hnew)
      as (Hts & Hdate & _ & Hmode & _ & r & Hr & Hinit & _).
    unfold run_workflow, run. rewrite Hnew.
    destruct (run_tickers_outcomes db' wf (init_portfolio wf) (wf_tickers wf))
      as [[final Hf]|[[Hv Hm]|Hg]].
    - rewrite Hf.
      pose proof (update_portfolio_succeeds db' config_id final (wf_trading_date wf) r) as Hs.
      rewrite Hdate in Hs. specialize (Hs Hr).
      pose proof (store_ok_update db' config_id final (wf_trading_date wf) Hok') as Hok1.
      rewrite Hdate in *.
      destruct (update_portfolio db' config_id final (cfg_trading_date cfg)) as [s db1].
      simpl in *. rewrite Hs. simpl. split; [done | by left].
    - rewrite Hv. simpl. split; [done|]. right; left. by rewrite <- Hmode.
    - rewrite Hg. simpl. split; [done|]. right; right.
      exists (pf_id (init_portfolio wf)). split_and!; [done | |].
      + by apply find_some_has_snapshot in Hr.
      + destruct (find_matches _ _ _ _ Hr) as (Hin & Hc & Hd).
        exists (dict_of_row r). rewrite Hinit. unfold get_portfolio; simpl.
        destruct Hok' as (_ & _ & Hnd).
        rewrite (find_by_id_unique _ r Hnd Hin). simpl. by rewrite Hc, Hd. }
  destruct (get_latest_trading_date db config_id) as [latest|]; [|tauto].
  destruct (cfg_trading_date cfg <? latest); [|tauto].
  simpl. split; [done|]. right; left. done.
Qed.


(** X19: on a well-formed store a run of a day never ends in "Failed to
    create portfolio", in the [TypeError] of a missing copy or in "Failed to
    update portfolio to database", and the store it leaves is well-formed.
    When it is refused by the chronological check the store is untouched;
    the "No analysts selected" error occurs in planned mode only; and when a
    ticker's pipeline has raised, the error names the id of a stored
    portfolio, the one of the configuration for that day. *)
Theorem run_never_fails_on_persistence db cfg (config_id : nat) :
  store_ok db →
  let out := run_single_experiment env db cfg config_id in
  store_ok out.2
  ∧ out.1 ≠ Raises (RuntimeError FailedCreatePortfolio)
  ∧ out.1 ≠ Raises TypeError
  ∧ out.1 ≠ Raises (RuntimeError FailedUpdate)
  ∧ (out.1 = Raises (RuntimeError NotChronological) → out.2 = db)
  ∧ (out.1 = Raises (ValueError NoAnalystsSelected) → planner_mode cfg = true)
  ∧ (∀ portfolio_id, out.1 = Raises (RuntimeError (FailedGenerate portfolio_id)) →
       has_snapshot out.2 config_id (cfg_trading_date cfg)
       ∧ ∃ d, get_portfolio out.2 portfolio_id = Some d
            ∧ (d_config_id d, d_trading_date d) = (config_id, cfg_trading_date cfg)).
Proof.
  intros Hok out.
  destruct (run_outcomes_cases db cfg config_id Hok) as [Hok' Hcases]. fold out in Hok', Hcases.
  split; [exact Hok'|].
  destruct Hcases as [H|[[H Hdb]|[[H Hm]|(pid & H & Hsnap & Hget)]]]; rewrite H;
    split_and!; try discriminate; try done.
  intros portfolio_id [= <-]. by split.
Qed.

End DriverAcrossDays.

Section DriverAcrossDaysWitnesses.

Lemma no_day2_in_db1 : ¬ has_snapshot Examples.db1 1 2.
Proof.
  intros (r & Hin & _ & Hd). apply list_elem_of_singleton in Hin. subst r. discriminate Hd.
Qed.

(** The aborted run for day 2 of the examples: day 2 is the latest date
    afterwards and a run for day 1 is refused. *)
Lemma run_advances_latest_date_example :
  let out := run_single_experiment Examples.env_ak_only Examples.db1 Examples.cfg_two 1 in
  store_ok Examples.db1 ∧ get_latest_trading_date Examples.db1 1 = Some 1
  ∧ ¬ has_snapshot Examples.db1 1 2
  ∧ out.1 = Raises (RuntimeError (FailedGenerate 1))
  ∧ get_latest_trading_date out.2 1 = Some 2
  ∧ run_single_experiment Examples.env_buy out.2 Examples.cfg_day1 1
    = (Raises (RuntimeError NotChronological), out.2).
Proof.
  intros out.
  assert (Hcheck : ∀ latest, get_latest_trading_date Examples.db1 1 = Some latest →
                             latest <= cfg_trading_date Examples.cfg_two).
  { intros latest [= <-]. simpl. lia. }
  destruct (run_advances_latest_date Examples.env_ak_only Examples.db1 Examples.cfg_two 1
              store_ok_db1 Hcheck (or_intror no_day2_in_db1)) as (_ & Hlatest & Hrefuse).
  split_and!; [exact store_ok_db1 | reflexivity | exact no_day2_in_db1
               | reflexivity | exact Hlatest |].
  apply Hrefuse. reflexivity.
Defined.

(** Day 2 of the examples run to the end, then day 3 constructed: it starts
    with the 800 in cash and the two positions day 2 has left. *)
Lemma next_day_starts_from_final_ledger_example :
  ∃ final,
    new_workflow Examples.env_buy Examples.db1 Examples.cfg_two 1
    = (Returns Examples.wf_two, Examples.db2)
    ∧ run_tickers Examples.env_buy Examples.db2 Examples.wf_two
        (init_portfolio Examples.wf_two) (tickers Examples.cfg_two) = Returns final
    ∧ ¬ has_snapshot (run_workflow Examples.env_buy Examples.db1 Examples.cfg_two 1).2 1 3
    ∧ (cashflow final == 800)%Q
    ∧ ∃ wf' db3,
        new_workflow Examples.env_buy
          (run_workflow Examples.env_buy Examples.db1 Examples.cfg_two 1).2
          (BatchExamples.config_for 3) 1 = (Returns wf', db3)
        ∧ cashflow (init_portfolio wf') = cashflow final
        ∧ positions (init_portfolio wf') = positions final.
Proof.
  eexists.
  assert (H1 : new_workflow Examples.env_buy Examples.db1 Examples.cfg_two 1
               = (Returns Examples.wf_two, Examples.db2)) by reflexivity.
  split; [exact H1|]. split; [reflexivity|].
  assert (H3 : ¬ has_snapshot (run_workflow Examples.env_buy Examples.db1 Examples.cfg_two 1).2 1 3).
  { intros (r & Hin & _ & Hd). vm_compute in Hin.
    apply elem_of_cons in Hin as [->|Hin]; [discriminate|].
    apply list_elem_of_singleton in Hin as ->. discriminate. }
  split; [exact H3|]. split; [reflexivity|].
  destruct (next_day_starts_from_final_ledger Examples.env_buy Examples.env_buy Examples.db1
              Examples.cfg_two (BatchExamples.config_for 3) 1 Examples.wf_two Examples.db2 _
              store_ok_db1 H1 eq_refl H3) as (_ & wf' & db3 & Hnew & Hcp & _).
  exists wf', db3. split; [exact Hnew|].
  by injection Hcp as -> ->.
Defined.

Lemma run_never_fails_on_persistence_example :
  store_ok Examples.db1
  ∧ (run_single_experiment Examples.env_ak_only Examples.db1 Examples.cfg_two 1).1
    = Raises (RuntimeError (FailedGenerate 1))
  ∧ store_ok (run_single_experiment Examples.env_ak_only Examples.db1 Examples.cfg_two 1).2
  ∧ (d_trading_date
       <$> get_portfolio
             (run_single_experiment Examples.env_ak_only Examples.db1 Examples.cfg_two 1).2 1)
    = Some 2.
Proof.
  destruct (run_never_fails_on_persistence Examples.env_ak_only Examples.db1 Examples.cfg_two 1
              store_ok_db1) as [Hok _].
  split_and!; [exact store_ok_db1 | reflexivity | exact Hok | reflexivity].
Defined.

End DriverAcrossDaysWitnesses.

Section OtherConfigurations.

Variable env : Env.

Implicit Types (db : DB) (cfg : Config) (r : Row).

Lemma others_update (config_id : nat) (date : Z) cash total pos (stamp : nat)
    (rows : list Row) :
  filter (λ r, row_config_id r ≠ config_id)
    (update_row config_id date cash total pos stamp <$> rows)
  = filter (λ r, row_config_id r ≠ config_id) rows.
Proof.
  induction rows as [|a rows IH]; [done|]. rewrite fmap_cons, !filter_cons.
  destruct (update_row_fields config_id date cash total pos stamp a) as (_ & Hc & _).
  rewrite Hc. destruct (decide (row_config_id a ≠ config_id)) as [Hne|Heq].
  - rewrite IH. f_equal. unfold update_row.
    destruct (matches config_id date a) eqn:Em; [|done].
    apply matches_true_iff in Em as [? _]. done.
  - exact IH.
Qed.

Lemma others_new_workflow db cfg (config_id : nat) :
  filter (λ r, row_config_id r ≠ config_id) (cs2_portfolio (new_workflow env db cfg config_id).2)
  = filter (λ r, row_config_id r ≠ config_id) (cs2_portfolio db).
Proof.
  destruct (new_workflow_rows env db cfg config_id) as [->|(_ & r & -> & Hc & _)]; [done|].
  rewrite filter_app, filter_cons_False, filter_nil, app_nil_r; [done|].
  intros Hne. by apply Hne.
Qed.

(** X20: a run for one configuration leaves the rows of every other
    configuration as they are, in content and in order, whatever the outcome
    of the run. *)
Theorem run_leaves_other_configurations db cfg (config_id : nat) :
  filter (λ r, row_config_id r ≠ config_id)
    (cs2_portfolio (run_single_experiment env db cfg config_id).2)
  = filter (λ r, row_config_id r ≠ config_id) (cs2_portfolio db).
Proof.
  assert (Hwf : filter (λ r, row_config_id r ≠ config_id)
                  (cs2_portfolio (run_workflow env db cfg config_id).2)
                = filter (λ r, row_config_id r ≠ config_id) (cs2_portfolio db)).
  { pose proof (others_new_workflow db cfg config_id) as Hnew.
    unfold run_workflow.
    destruct (new_workflow env db cfg config_id) as [[app|e] db1]; simpl in Hnew; [|done].
    destruct (run_store env app db1 config_id) as [->|(final & _ & ->)]; [done|].
    unfold update_portfolio; simpl. by rewrite others_update. }
  unfold run_single_experiment.
  destruct (get_latest_trading_date db config_id) as [latest|]; [|done].
  by destruct (cfg_trading_date cfg <? latest).
Qed.

End OtherConfigurations.

(** * Sorting, the configuration table and the decision memory *)

Section Sorting.

Context {A : Type} (key : A → Z).

Lemma insert_desc_Permutation (x : A) (l : list A) : insert_desc key x l ≡ₚ x :: l.
Proof.
  induction l as [|y l IH]; simpl; [done|].
  destruct (key x <? key y); [|done].
  rewrite IH. apply Permutation_swap.
Qed.

Lemma sort_desc_Permutation (l : list A) : sort_desc key l ≡ₚ l.
Proof.
  induction l as [|x l IH]; simpl; [done|].
  unfold sort_desc in *. simpl. by rewrite insert_desc_Permutation, IH.
Qed.

Lemma insert_desc_sorted (x : A) (l : list A) :
  StronglySorted (λ a b, key b <= key a) l →
  StronglySorted (λ a b, key b <= key a) (insert_desc key x l).
Proof.
  induction l as [|y l IH]; simpl; intros Hs.
  - repeat constructor.
  - apply StronglySorted_cons in Hs as [Hy Hs].
    destruct (key x <? key y) eqn:E.
    + apply Z.ltb_lt in E. apply StronglySorted_cons. split; [|by apply IH].
      rewrite insert_desc_Permutation. constructor; [lia | done].
    + apply Z.ltb_ge in E. apply StronglySorted_cons. split.
      * constructor; [done|]. eapply Forall_impl; [exact Hy|]. simpl. intros; lia.
      * by apply StronglySorted_cons.
Qed.

Lemma sort_desc_sorted (l : list A) :
  StronglySorted (λ a b, key b <= key a) (sort_desc key l).
Proof.
  induction l as [|x l IH]; [constructor|].
  unfold sort_desc in *. simpl. by apply insert_desc_sorted.
Qed.

Lemma elem_of_sort_desc (x : A) (l : list A) : x ∈ sort_desc key l ↔ x ∈ l.
Proof. by rewrite sort_desc_Permutation. Qed.

(** The first [n] of a descending sort: in descending order, taken from the
    list, and no element left out has a larger key than one taken. *)
Lemma take_sort_desc (n : nat) (l : list A) :
  StronglySorted (λ a b, key b <= key a) (take n (sort_desc key l))
  ∧ (∀ x, x ∈ take n (sort_desc key l) → x ∈ l)
  ∧ (∀ x y, x ∈ take n (sort_desc key l) → y ∈ drop n (sort_desc key l) → key y <= key x)
  ∧ length (take n (sort_desc key l)) = Nat.min n (length l).
Proof.
  pose proof (sort_desc_sorted l) as Hs.
  rewrite <- (take_drop n (sort_desc key l)) in Hs.
  apply StronglySorted_app in Hs as (Hcross & Htake & _).
  split_and!.
  - exact Htake.
  - intros x Hx. apply elem_of_sort_desc.
    rewrite <- (take_drop n (sort_desc key l)). apply elem_of_app. by left.
  - intros x y Hx Hy. by apply Hcross.
  - rewrite length_take. by rewrite sort_desc_Permutation.
Qed.

End Sorting.

Lemma StronglySorted_weaken {A} (R R' : A → A → Prop) (l : list A) :
  StronglySorted R l → (∀ a b, R a b → R' a b) → StronglySorted R' l.
Proof.
  intros Hs Himp. induction Hs as [|a l Hs IH Ha]; constructor; [done|].
  eapply Forall_impl; [exact Ha|]. apply Himp.
Qed.

Section ConfigExtras.

Implicit Types (st : Store) (cfg : ConfigDict).

Lemma find_name_snoc (rows : list ConfigRow) (r : ConfigRow) (name : string) :
  find (λ x, bool_decide (crow_exp_name x = name)) rows = None →
  crow_exp_name r = name →
  find (λ x, bool_decide (crow_exp_name x = name)) (rows ++ [r]) = Some r.
Proof.
  intros Hnone Hr. apply find_snoc; [done|]. by apply bool_decide_eq_true.
Qed.

Lemma find_name_none_filter (rows : list ConfigRow) (name : string) :
  find (λ x, bool_decide (crow_exp_name x = name)) rows = None →
  filter (λ r, crow_exp_name r = name) rows = [].
Proof.
  induction rows as [|a rows IH]; simpl; [done|].
  destruct (bool_decide (crow_exp_name a = name)) eqn:E; [discriminate|].
  apply bool_decide_eq_false in E. intros H.
  rewrite filter_cons_False by done. by apply IH.
Qed.

Lemma load_existing st cfg (config_id : nat) :
  get_config_id_by_name st (cd_exp_name cfg) = Some config_id →
  load_portfolio_config cfg st = (inl config_id, st).
Proof. intros H. unfold load_portfolio_config. by rewrite H. Qed.

Lemma load_new_complete st cfg (items : list string) (has_planner : bool) :
  get_config_id_by_name st (cd_exp_name cfg) = None →
  cd_tickers cfg = Some items → cd_planner_mode cfg = Some has_planner →
  is_Some (cd_llm_model cfg) → is_Some (cd_llm_provider cfg) →
  load_portfolio_config cfg st
  = if existsb (λ r, (crow_id r =? next_uuid (portfolios st))%nat) (cs2_config st)
    then (inr FailedCreateConfig, after_create st (cs2_config st))
    else (inl (next_uuid (portfolios st)),
          after_create st
            (cs2_config st
             ++ [mkConfigRow (next_uuid (portfolios st)) (cd_exp_name cfg)
                             (now (portfolios st)) items has_planner])).
Proof.
  intros H Ht Hp [m Hm] [pr Hpr]. unfold load_portfolio_config, create_config.
  rewrite H, Ht, Hp, Hm, Hpr. simpl.
  by destruct (existsb _ _).
Qed.

Lemma load_new_incomplete st cfg :
  get_config_id_by_name st (cd_exp_name cfg) = None → ¬ complete cfg →
  load_portfolio_config cfg st = (inr FailedCreateConfig, after_create st (cs2_config st)).
Proof.
  intros H Hinc. unfold load_portfolio_config, create_config. rewrite H. simpl.
  unfold complete in Hinc.
  destruct (cd_tickers cfg), (cd_planner_mode cfg), (cd_llm_model cfg), (cd_llm_provider cfg);
    try reflexivity.
  exfalso. apply Hinc. by split_and!.
Qed.

(** X21: [load_portfolio_config] gets or creates.  A configuration stored
    under the experiment's name is returned, the first one, and nothing is
    written; otherwise at most one row is inserted.  When it returns, a call
    again for the same name returns the same id and leaves the store as the
    first call left it, so a name never gets a second row by this path.  When
    it raises, no row has been written; and while [uuid4] gives an id that no
    configuration has, it raises exactly when the name is not stored and the
    dictionary lacks [tickers], [planner_mode] or one of the two [llm]
    entries, although the workflow itself would default [planner_mode]. *)
Theorem load_portfolio_config_idempotent st cfg cfg' :
  cd_exp_name cfg' = cd_exp_name cfg →
  let first := load_portfolio_config cfg st in
  let second := load_portfolio_config cfg' first.2 in
  (∀ config_id, first.1 = inl config_id →
     second = (inl config_id, first.2)
     ∧ get_config_id_by_name first.2 (cd_exp_name cfg) = Some config_id
     ∧ length (named (cd_exp_name cfg) first.2)
       = Nat.max 1 (length (named (cd_exp_name cfg) st)))
  ∧ (∀ config_id, get_config_id_by_name st (cd_exp_name cfg) = Some config_id →
       first = (inl config_id, st))
  ∧ (first.1 = inr FailedCreateConfig → cs2_config first.2 = cs2_config st)
  ∧ (Forall (λ r, (crow_id r < next_uuid (portfolios st))%nat) (cs2_config st) →
       (first.1 = inr FailedCreateConfig
        ↔ get_config_id_by_name st (cd_exp_name cfg) = None ∧ ¬ complete cfg)).
Proof.
  intros Hname first second. subst second first.
  destruct (get_config_id_by_name st (cd_exp_name cfg)) as [i|] eqn:Hget.
  - rewrite (load_existing st cfg i Hget). simpl. split_and!.
    + intros config_id [= <-]. split_and!.
      * apply load_existing. by rewrite Hname.
      * exact Hget.
      * unfold named. unfold get_config_id_by_name in Hget.
        destruct (find _ (cs2_config st)) as [r|] eqn:Hf; [|discriminate].
        apply find_some in Hf as [Hin Hb]. apply bool_decide_eq_true in Hb.
        assert (Hin' : r ∈ filter (λ r, crow_exp_name r = cd_exp_name cfg) (cs2_config st)).
        { apply list_elem_of_filter. split; [done | by apply list_elem_of_In]. }
        destruct (filter _ (cs2_config st)); [by apply elem_of_nil in Hin'|]. simpl. lia.
    + by intros config_id [= <-].
    + discriminate.
    + intros _. split; [discriminate | by intros [[=] _]].
  - assert (Hf : find (λ r, bool_decide (crow_exp_name r = cd_exp_name cfg)) (cs2_config st)
                 = None).
    { unfold get_config_id_by_name in Hget. by destruct (find _ (cs2_config st)). }
    destruct (decide (complete cfg)) as [Hc|Hc].
    + pose proof Hc as ([items Ht] & [hp Hp] & Hm & Hpr).
      rewrite (load_new_complete st cfg items hp Hget Ht Hp Hm Hpr).
      destruct (existsb (λ r, (crow_id r =? next_uuid (portfolios st))%nat) (cs2_config st))
        eqn:Hex; simpl.
      * split_and!.
        -- intros config_id [=].
        -- intros config_id [=].
        -- done.
        -- intros Hfresh. exfalso. apply existsb_exists in Hex as (r & Hin & Heq).
           apply Nat.eqb_eq in Heq. rewrite Forall_forall in Hfresh.
           apply list_elem_of_In in Hin. specialize (Hfresh _ Hin). lia.
      * set (new := mkConfigRow (next_uuid (portfolios st)) (cd_exp_name cfg)
                      (now (portfolios st)) items hp).
        assert (Hget' : ∀ dbx, get_config_id_by_name (mkStore dbx (cs2_config st ++ [new]))
                            (cd_exp_name cfg) = Some (next_uuid (portfolios st))).
        { intros dbx. unfold get_config_id_by_name; simpl.
          by rewrite (find_name_snoc _ new (cd_exp_name cfg) Hf eq_refl). }
        split_and!.
        -- intros config_id [= <-]. split_and!.
           ++ apply load_existing. rewrite Hname. apply Hget'.
           ++ apply Hget'.
           ++ unfold named; simpl. rewrite filter_app, (find_name_none_filter _ _ Hf).
              by rewrite filter_cons_True.
        -- intros config_id [=].
        -- discriminate.
        -- intros _. split; [discriminate | by intros [_ Hn]].
    + rewrite (load_new_incomplete st cfg Hget Hc). simpl. split_and!.
      * intros config_id [=].
      * intros config_id [=].
      * done.
      * intros _. split; [done | done].
Qed.

(** The example dictionary on a store without configuration: the first call
    inserts configuration 2 and the second finds it; the dictionary without
    [planner_mode] raises. *)
Lemma load_portfolio_config_example :
  cd_exp_name AuditExamples.cfg_exp = cd_exp_name AuditExamples.cfg_exp
  ∧ (load_portfolio_config AuditExamples.cfg_exp AuditExamples.st1).1 = inl 1%nat
  ∧ (load_portfolio_config AuditExamples.cfg_exp (mkStore Examples.db2 [])).1 = inl 2%nat
  ∧ load_portfolio_config AuditExamples.cfg_exp
      (load_portfolio_config AuditExamples.cfg_exp (mkStore Examples.db2 [])).2
    = (inl 2%nat, (load_portfolio_config AuditExamples.cfg_exp (mkStore Examples.db2 [])).2)
  ∧ (load_portfolio_config AuditExamples.cfg_no_planner_mode (mkStore Examples.db2 [])).1
    = inr FailedCreateConfig.
Proof.
  assert (H : cd_exp_name AuditExamples.cfg_exp = cd_exp_name AuditExamples.cfg_exp)
    by reflexivity.
  destruct (load_portfolio_config_idempotent (mkStore Examples.db2 []) AuditExamples.cfg_exp
              AuditExamples.cfg_exp H) as (Hsame & _).
  split_and!; [exact H | reflexivity | reflexivity | | reflexivity].
  exact (proj1 (Hsame 2%nat eq_refl)).
Defined.

End ConfigExtras.

Section DecisionMemoryExtras.

Implicit Types (st : Store) (decisions : list DecisionRow).

(** X22: the decision memory of a ticker never has more than [limit]
    entries; it is empty for an unknown experiment name and for a
    configuration without portfolio.  Every entry comes from a stored
    decision for that ticker, made under one of the [limit] most recently
    written portfolios of the named configuration; the entries are in
    descending order of their stamps, and a decision that qualifies and is
    left out is not more recent than any that is returned. *)
Theorem decision_memory_bounds st decisions (exp_name ticker : string) (limit : nat) :
  (length (get_decision_memory st decisions exp_name ticker limit) <= limit)%nat
  ∧ (get_config_id_by_name st exp_name = None →
       get_decision_memory st decisions exp_name ticker limit = [])
  ∧ (∀ config_id, get_config_id_by_name st exp_name = Some config_id →
       let ids := get_recent_portfolio_ids_by_config_id (portfolios st) config_id limit in
       ∃ rows,
         get_decision_memory st decisions exp_name ticker limit = entry_of_row <$> rows
         ∧ (length ids <= limit)%nat
         ∧ (∀ i, i ∈ ids → ∃ r, r ∈ cs2_portfolio (portfolios st)
                              ∧ row_id r = i ∧ row_config_id r = config_id)
         ∧ (∀ r, r ∈ rows → r ∈ decisions ∧ dec_item_name r = ticker
                           ∧ dec_portfolio_id r ∈ ids)
         ∧ StronglySorted (λ a b, (dec_updated_at b <= dec_updated_at a)%nat) rows
         ∧ (∀ r r', r ∈ rows → r' ∈ decisions → r' ∉ rows →
              dec_item_name r' = ticker → dec_portfolio_id r' ∈ ids →
              (dec_updated_at r' <= dec_updated_at r)%nat)).
Proof.
  split_and!.
  - unfold get_decision_memory.
    destruct (get_config_id_by_name st exp_name); [|simpl; lia].
    destruct (get_recent_portfolio_ids_by_config_id _ _ _); [simpl; lia|].
    rewrite length_fmap. unfold memory_rows. rewrite length_take. lia.
  - intros Hnone. unfold get_decision_memory. by rewrite Hnone.
  - intros config_id Hcfg ids.
    assert (Hids : (length ids <= limit)%nat
                   ∧ ∀ i, i ∈ ids → ∃ r, r ∈ cs2_portfolio (portfolios st)
                                        ∧ row_id r = i ∧ row_config_id r = config_id).
    { unfold ids, get_recent_portfolio_ids_by_config_id. split.
      - rewrite length_fmap, length_take. lia.
      - intros i Hi. apply list_elem_of_fmap in Hi as (r & -> & Hr).
        apply (take_sort_desc (λ r, Z.of_nat (row_updated_at r))) in Hr.
        apply list_elem_of_filter in Hr as [Hc Hr]. by exists r. }
    destruct Hids as [Hlen Hid].
    unfold get_decision_memory. rewrite Hcfg. fold ids.
    destruct ids as [|i0 ids'] eqn:Eids.
    + exists []. split_and!.
      * done.
      * exact Hlen.
      * exact Hid.
      * by intros r Hr%elem_of_nil.
      * constructor.
      * by intros r r' Hr%elem_of_nil.
    + rewrite <- Eids in *. clear Eids.
      exists (memory_rows decisions ids ticker limit).
      destruct (take_sort_desc (λ r, Z.of_nat (dec_updated_at r)) limit
                  (filter (λ r, dec_portfolio_id r ∈ ids ∧ dec_item_name r = ticker) decisions))
        as (Hsorted & Hsub & Htop & _).
      split_and!.
      * by destruct ids.
      * exact Hlen.
      * exact Hid.
      * intros r Hr. apply Hsub in Hr. apply list_elem_of_filter in Hr as [[? ?] ?]. done.
      * apply (StronglySorted_weaken _ _ _ Hsorted). intros; simpl in *; lia.
      * intros r r' Hr Hr' Hnot Ht Hp.
        assert (Hin : r' ∈ sort_desc (λ r, Z.of_nat (dec_updated_at r))
                        (filter (λ r, dec_portfolio_id r ∈ ids ∧ dec_item_name r = ticker)
                           decisions)).
        { apply elem_of_sort_desc, list_elem_of_filter. done. }
        rewrite <- (take_drop limit) in Hin. apply elem_of_app in Hin as [Hin|Hin];
          [by destruct Hnot|].
        specialize (Htop r r' Hr Hin). lia.
Qed.

Lemma decision_memory_example :
  get_config_id_by_name AuditExamples.st1 "exp" = Some 1%nat
  ∧ get_decision_memory AuditExamples.st1 AuditExamples.decisions "exp" "AK-47" 5
    = [mkMemoryEntry 2 SELL 1 110; mkMemoryEntry 1 BUY 1 100]
  ∧ get_decision_memory AuditExamples.st1 AuditExamples.decisions "exp" "AK-47" 1
    = [mkMemoryEntry 2 SELL 1 110]
  ∧ get_decision_memory AuditExamples.st1 AuditExamples.decisions "other" "AK-47" 5 = [].
Proof.
  destruct (decision_memory_bounds AuditExamples.st1 AuditExamples.decisions "other" "AK-47" 5)
    as (_ & Hnone & _).
  split_and!; [reflexivity | reflexivity | reflexivity |].
  apply Hnone. reflexivity.
Defined.

End DecisionMemoryExtras.

(** * The Reddit search results and the sentiment agents *)

Section RedditExtras.

Import Reddit.

Implicit Types (post p q : MediaNews) (results : list (list MediaNews)).

Lemma add_unseen_spec (acc : list MediaNews) post :
  (NoDup (title <$> acc) → NoDup (title <$> add_unseen acc post))
  ∧ (∀ p, p ∈ add_unseen acc post → p ∈ acc ∨ p = post)
  ∧ (∀ p, p ∈ acc → p ∈ add_unseen acc post)
  ∧ title post ∈ title <$> add_unseen acc post.
Proof.
  unfold add_unseen. destruct (bool_decide (title post ∈ title <$> acc)) eqn:E.
  - apply bool_decide_eq_true in E. split_and!; auto.
  - apply bool_decide_eq_false in E. split_and!.
    + intros Hnd. rewrite fmap_app. apply NoDup_app. split_and!; [done | | apply NoDup_singleton].
      intros x Hx Hx'. simpl in Hx'. apply list_elem_of_singleton in Hx'. by subst.
    + intros p Hp. apply elem_of_app in Hp as [?|Hp]; auto.
      apply list_elem_of_singleton in Hp. auto.
    + intros p Hp. apply elem_of_app. by left.
    + rewrite fmap_app. apply elem_of_app. right. apply list_elem_of_here.
Qed.

Lemma merge_one_spec (posts acc : list MediaNews) :
  (NoDup (title <$> acc) → NoDup (title <$> foldl add_unseen acc posts))
  ∧ (∀ p, p ∈ foldl add_unseen acc posts → p ∈ acc ∨ p ∈ posts)
  ∧ (∀ p, p ∈ acc → p ∈ foldl add_unseen acc posts)
  ∧ (∀ p, p ∈ posts → title p ∈ title <$> foldl add_unseen acc posts).
Proof.
  revert acc. induction posts as [|post posts IH]; intros acc; simpl.
  - split_and!; auto. by intros p Hp%elem_of_nil.
  - destruct (IH (add_unseen acc post)) as (H1 & H2 & H3 & H4).
    destruct (add_unseen_spec acc post) as (A1 & A2 & A3 & A4).
    split_and!.
    + auto.
    + intros p Hp. destruct (H2 p Hp) as [Hacc|Hin].
      * destruct (A2 p Hacc) as [?| ->]; [by left|]. right. apply list_elem_of_here.
      * right. by apply list_elem_of_further.
    + auto.
    + intros p Hp. apply elem_of_cons in Hp as [->|Hp]; [|by apply H4].
      apply list_elem_of_fmap in A4 as (q & Hq & Hin).
      rewrite Hq. apply list_elem_of_fmap. exists q. split; [done|]. by apply H3.
Qed.

Lemma merge_all_spec results (acc : list MediaNews) :
  (NoDup (title <$> acc) → NoDup (title <$> foldl (foldl add_unseen) acc results))
  ∧ (∀ p, p ∈ foldl (foldl add_unseen) acc results →
          p ∈ acc ∨ ∃ posts, posts ∈ results ∧ p ∈ posts)
  ∧ (∀ p, p ∈ acc → p ∈ foldl (foldl add_unseen) acc results)
  ∧ (∀ posts p, posts ∈ results → p ∈ posts →
                title p ∈ title <$> foldl (foldl add_unseen) acc results).
Proof.
  revert acc. induction results as [|posts results IH]; intros acc; simpl.
  - split_and!; auto. by intros posts p Hp%elem_of_nil.
  - destruct (IH (foldl add_unseen acc posts)) as (H1 & H2 & H3 & H4).
    destruct (merge_one_spec posts acc) as (M1 & M2 & M3 & M4).
    split_and!.
    + auto.
    + intros p Hp. destruct (H2 p Hp) as [Hacc|(ps & Hps & Hin)].
      * destruct (M2 p Hacc) as [?|?]; [by left|]. right. exists posts.
        split; [apply list_elem_of_here | done].
      * right. exists ps. split; [by apply list_elem_of_further | done].
    + auto.
    + intros ps p Hps Hp. apply elem_of_cons in Hps as [->|Hps]; [|by apply (H4 ps)].
      specialize (M4 p Hp). apply list_elem_of_fmap in M4 as (q & Hq & Hin).
      rewrite Hq. apply list_elem_of_fmap. exists q. split; [done|]. by apply H3.
Qed.

(** X23: the posts [get_ticker_relevant_posts] returns are at most [limit],
    no two with the same title, each one found by one of the searches, in
    descending order of relevance; a merged post that is left out is not more
    relevant than any post returned, and the merge itself loses no title
    that a search has found. *)
Theorem relevant_posts_bounds (relevance_score : MediaNews → Z) (limit : nat) results :
  let out := get_ticker_relevant_posts relevance_score limit results in
  (length out <= limit)%nat
  ∧ NoDup (title <$> out)
  ∧ (∀ p, p ∈ out → ∃ posts, posts ∈ results ∧ p ∈ posts)
  ∧ StronglySorted (λ a b, relevance_score b <= relevance_score a) out
  ∧ (∀ p q, p ∈ out → q ∈ merge_results results → q ∉ out →
            relevance_score q <= relevance_score p)
  ∧ (∀ posts p, posts ∈ results → p ∈ posts → title p ∈ title <$> merge_results results).
Proof.
  intros out. unfold out, get_ticker_relevant_posts.
  destruct (merge_all_spec results []) as (H1 & H2 & _ & H4).
  destruct (take_sort_desc relevance_score limit (merge_results results))
    as (Hsorted & Hsub & Htop & Hlen).
  split_and!.
  - rewrite Hlen. lia.
  - apply (sublist_NoDup _ (title <$> sort_desc relevance_score (merge_results results))).
    + rewrite sort_desc_Permutation. apply H1. constructor.
    + apply fmap_sublist, sublist_take.
  - intros p Hp. apply Hsub in Hp. destruct (H2 p Hp) as [Hnil|?]; [|done].
    by apply elem_of_nil in Hnil.
  - exact Hsorted.
  - intros p q Hp Hq Hnot. apply Htop; [done|].
    apply (elem_of_sort_desc relevance_score) in Hq.
    rewrite <- (take_drop limit) in Hq. apply elem_of_app in Hq as [Hq|Hq]; [done|done].
  - intros posts p Hposts Hp. by apply (H4 posts).
Qed.

Lemma relevant_posts_example :
  title <$> get_ticker_relevant_posts SentimentExamples.by_score 2 SentimentExamples.results
  = ["Asiimov trade"; "Skins"]
  ∧ title <$> merge_results SentimentExamples.results
    = ["AK-47 price"; "Asiimov trade"; "Skins"]
  ∧ NoDup (title <$> get_ticker_relevant_posts SentimentExamples.by_score 2
                       SentimentExamples.results).
Proof.
  split_and!; [reflexivity | reflexivity |].
  apply (relevant_posts_bounds SentimentExamples.by_score 2 SentimentExamples.results).
Defined.

End RedditExtras.

Section SentimentExtras.

Import Registry Reddit Sentiment.

Variable K : AgentKey.
Variable agent_call : Prompt → Outcome AnalystSignal.

Implicit Types (fetched : Outcome (list MediaNews)) (state : AgentState)
  (table : list SignalRow).

(** The row [sentiment_agent] saves for a prompt and its answer. *)
Local Abbreviation base_row state prompt signal :=
  (mkSignalRow (st_portfolio_id state) (SENTIMENT K) (st_ticker state) prompt signal).

(** The outcomes of [sentiment_agent]: one answer and its row, or the error
    of the model with the table as it was. *)
Lemma sentiment_agent_cases fetched state table :
  (∃ prompt signal,
      agent_call prompt = Returns signal
      ∧ (is_fallback_prompt prompt
         ∨ ∃ posts, fetched = Returns posts ∧ (reddit_post_count <= length posts)%nat
                    ∧ prompt = SENTIMENT_PROMPT (st_ticker state) posts (length posts))
      ∧ sentiment_agent K agent_call fetched state table
        = (Returns [signal], table ++ [base_row state prompt signal]))
  ∨ (∃ e,
      sentiment_agent K agent_call fetched state table = (Raises e, table)
      ∧ (agent_call (REDDIT_SENTIMENT_FETCH_ERROR_PROMPT (st_ticker state)) = Raises e
         ∨ ∃ posts, fetched = Returns posts ∧ (reddit_post_count <= length posts)%nat
                    ∧ agent_call (SENTIMENT_PROMPT (st_ticker state) posts (length posts))
                      = Raises e)).
Proof.
  assert (Herr : ∀ r,
    r = call_and_save agent_call (SENTIMENT K) state
          (REDDIT_SENTIMENT_FETCH_ERROR_PROMPT (st_ticker state)) table →
    (∃ prompt signal, agent_call prompt = Returns signal ∧ is_fallback_prompt prompt
        ∧ r = (Returns [signal], table ++ [base_row state prompt signal]))
    ∨ (∃ e, r = (Raises e, table)
        ∧ agent_call (REDDIT_SENTIMENT_FETCH_ERROR_PROMPT (st_ticker state)) = Raises e)).
  { intros r ->. unfold call_and_save.
    destruct (agent_call (REDDIT_SENTIMENT_FETCH_ERROR_PROMPT (st_ticker state))) as [s|e] eqn:E.
    - left. exists (REDDIT_SENTIMENT_FETCH_ERROR_PROMPT (st_ticker state)), s. by split_and!.
    - right. by exists e. }
  set (on_error := call_and_save agent_call (SENTIMENT K) state
                     (REDDIT_SENTIMENT_FETCH_ERROR_PROMPT (st_ticker state)) table).
  assert (Hfall : sentiment_agent K agent_call fetched state table = on_error →
    (∃ prompt signal, agent_call prompt = Returns signal
        ∧ (is_fallback_prompt prompt
           ∨ ∃ posts, fetched = Returns posts ∧ (reddit_post_count <= length posts)%nat
                      ∧ prompt = SENTIMENT_PROMPT (st_ticker state) posts (length posts))
        ∧ sentiment_agent K agent_call fetched state table
          = (Returns [signal], table ++ [base_row state prompt signal]))
    ∨ (∃ e, sentiment_agent K agent_call fetched state table = (Raises e, table)
        ∧ (agent_call (REDDIT_SENTIMENT_FETCH_ERROR_PROMPT (st_ticker state)) = Raises e
           ∨ ∃ posts, fetched = Returns posts ∧ (reddit_post_count <= length posts)%nat
                      ∧ agent_call (SENTIMENT_PROMPT (st_ticker state) posts (length posts))
                        = Raises e))).
  { intros Heq. rewrite Heq.
    destruct (Herr on_error eq_refl) as [(p & s & Hc & Hf & ->)|(e & -> & Hc)].
    - left. exists p, s. split_and!; auto.
    - right. exists e. split; auto. }
  destruct fetched as [posts|e0]; [|by apply Hfall].
  destruct (length posts <? reddit_post_count)%nat eqn:Hlen.
  - destruct (agent_call (REDDIT_SENTIMENT_INSUFFICIENT_DATA_PROMPT (st_ticker state)
                            (length posts) reddit_post_count)) as [s|e] eqn:E.
    + left. exists (REDDIT_SENTIMENT_INSUFFICIENT_DATA_PROMPT (st_ticker state)
                      (length posts) reddit_post_count), s.
      split_and!; [done | by left |].
      unfold sentiment_agent. by rewrite Hlen, E.
    + apply Hfall. unfold sentiment_agent. by rewrite Hlen, E.
  - assert (Heq : sentiment_agent K agent_call (Returns posts) state table
                  = call_and_save agent_call (SENTIMENT K) state
                      (SENTIMENT_PROMPT (st_ticker state) posts (length posts)) table).
    { unfold sentiment_agent. by rewrite Hlen. }
    rewrite Heq. apply Nat.ltb_ge in Hlen. unfold call_and_save.
    destruct (agent_call (SENTIMENT_PROMPT (st_ticker state) posts (length posts)))
      as [s|e] eqn:E.
    + left. exists (SENTIMENT_PROMPT (st_ticker state) posts (length posts)), s.
      split_and!; [done | right; by exists posts | done].
    + right. exists e. split; [done|]. right. by exists posts.
Qed.

(** X24: fed with what [get_ticker_relevant_posts] returns for the limit the
    agent asks for (15), [sentiment_agent] never sends the analysis prompt:
    the list is shorter than the 25 posts the agent requires, so the answer
    it returns and saves comes from the insufficient-data prompt or, when
    that call raises, from the fetch-error prompt; it raises only when the
    model raises on the fetch-error prompt, and then saves nothing. *)
Theorem sentiment_agent_always_falls_back (relevance_score : MediaNews → Z)
  (results : list (list MediaNews)) state table :
  let fetched := Returns (get_ticker_relevant_posts relevance_score reddit_relevant_limit results) in
  let r := sentiment_agent K agent_call fetched state table in
  (∃ prompt signal,
      is_fallback_prompt prompt
      ∧ agent_call prompt = Returns signal
      ∧ r = (Returns [signal], table ++ [base_row state prompt signal]))
  ∨ (∃ e,
      agent_call (REDDIT_SENTIMENT_FETCH_ERROR_PROMPT (st_ticker state)) = Raises e
      ∧ r = (Raises e, table)).
Proof.
  intros fetched r.
  assert (Hshort : ∀ posts, fetched = Returns posts → ¬ (reddit_post_count <= length posts)%nat).
  { intros posts [= <-]. unfold get_ticker_relevant_posts.
    rewrite length_take. unfold reddit_post_count, reddit_relevant_limit. lia. }
  destruct (sentiment_agent_cases fetched state table)
    as [(p & s & Hc & Hp & Hr)|(e & Hr & He)].
  - left. exists p, s. split_and!; [|done|done].
    destruct Hp as [?|(posts & Hf & Hlen & _)]; [done|]. by destruct (Hshort posts).
  - right. exists e. split; [|done].
    destruct He as [?|(posts & Hf & Hlen & _)]; [done|]. by destruct (Hshort posts).
Qed.

(** X25: [sentiment_reverse_agent] never returns the state unchanged: when
    it returns, its one signal is the model's answer to the reverse prompt
    built from the base signal, and the table has gained two rows, the base
    signal under the sentiment key and then the reversed one under the
    reverse key; when it raises, the table is unchanged or has gained the
    base row alone. *)
Theorem sentiment_reverse_outcomes fetched state table :
  match sentiment_reverse_agent K agent_call fetched state table with
  | (Returns StateUnchanged, _) => False
  | (Returns (AnalystSignals signals), table') =>
      ∃ prompt base reversed,
        agent_call prompt = Returns base
        ∧ agent_call (SENTIMENT_REVERSE_PROMPT (st_ticker state) (signal base)
                        (justification base)) = Returns reversed
        ∧ signals = [reversed]
        ∧ table' = table ++
            [base_row state prompt base;
             mkSignalRow (st_portfolio_id state) (SENTIMENT_REVERSE K) (st_ticker state)
               (SENTIMENT_REVERSE_PROMPT (st_ticker state) (signal base) (justification base))
               reversed]
  | (Raises e, table') =>
      table' = table
      ∨ ∃ prompt base,
          agent_call prompt = Returns base
          ∧ agent_call (SENTIMENT_REVERSE_PROMPT (st_ticker state) (signal base)
                          (justification base)) = Raises e
          ∧ table' = table ++ [base_row state prompt base]
  end.
Proof.
  unfold sentiment_reverse_agent.
  destruct (sentiment_agent_cases fetched state table)
    as [(p & s & Hc & _ & ->)|(e & -> & _)]; [|by left].
  destruct (agent_call (SENTIMENT_REVERSE_PROMPT (st_ticker state) (signal s)
                          (justification s))) as [rev|e] eqn:E.
  - exists p, s, rev. split_and!; [done | done | done |].
    by rewrite <- app_assoc.
  - right. by exists p, s.
Qed.

End SentimentExtras.

Section SentimentWitnesses.

Import Registry Reddit Sentiment.

Lemma sentiment_agent_falls_back_example :
  sentiment_agent Examples.keys SentimentExamples.model
    (Returns (get_ticker_relevant_posts SentimentExamples.by_score reddit_relevant_limit
                SentimentExamples.results))
    SentimentExamples.state []
  = (Returns [mkSignal Neutral "not enough data"],
     [mkSignalRow 1 "sentiment" "AK-47"
        (REDDIT_SENTIMENT_INSUFFICIENT_DATA_PROMPT "AK-47" 3 25)
        (mkSignal Neutral "not enough data")])
  ∧ ∃ prompt, is_fallback_prompt prompt
      ∧ SentimentExamples.model prompt = Returns (mkSignal Neutral "not enough data").
Proof.
  split; [reflexivity|].
  destruct (sentiment_agent_always_falls_back Examples.keys SentimentExamples.model
              SentimentExamples.by_score SentimentExamples.results SentimentExamples.state [])
    as [(prompt & s & Hf & Hc & Hr)|(e & He & _)]; [|discriminate He].
  exists prompt. split; [exact Hf|].
  injection Hr as Hs _. rewrite Hc. by rewrite Hs.
Defined.

Lemma sentiment_reverse_example :
  sentiment_reverse_agent Examples.keys SentimentExamples.model
    (Raises (KeyError "children")) SentimentExamples.state []
  = (Returns (AnalystSignals [mkSignal Bullish "answer"]),
     [mkSignalRow 1 "sentiment" "AK-47" (REDDIT_SENTIMENT_FETCH_ERROR_PROMPT "AK-47")
        (mkSignal Neutral "not enough data");
      mkSignalRow 1 "sentiment_reverse" "AK-47"
        (SENTIMENT_REVERSE_PROMPT "AK-47" Neutral "not enough data")
        (mkSignal Bullish "answer")])
  ∧ ∃ prompt base,
      SentimentExamples.model prompt = Returns base
      ∧ SentimentExamples.model
          (SENTIMENT_REVERSE_PROMPT "AK-47" (signal base) (justification base))
        = Returns (mkSignal Bullish "answer").
Proof.
  assert (Hrun : sentiment_reverse_agent Examples.keys SentimentExamples.model
            (Raises (KeyError "children")) SentimentExamples.state []
          = (Returns (AnalystSignals [mkSignal Bullish "answer"]),
             [mkSignalRow 1 "sentiment" "AK-47" (REDDIT_SENTIMENT_FETCH_ERROR_PROMPT "AK-47")
                (mkSignal Neutral "not enough data");
              mkSignalRow 1 "sentiment_reverse" "AK-47"
                (SENTIMENT_REVERSE_PROMPT "AK-47" Neutral "not enough data")
                (mkSignal Bullish "answer")])) by reflexivity.
  split; [exact Hrun|].
  pose proof (sentiment_reverse_outcomes Examples.keys SentimentExamples.model
                (Raises (KeyError "children")) SentimentExamples.state []) as H.
  rewrite Hrun in H. destruct H as (prompt & base & reversed & Hb & Hr & [= <-] & _).
  by exists prompt, base.
Defined.

End SentimentWitnesses.
